(** * Streaming baseline detectors of NAB: model and properties

    Shallow embedding of [nab/detectors/simple_stats/simple_stats_detectors.py]:
    the logistic score transform [_logisticScore] and the three detectors
    [ZScoreDetector], [EwmaDetector] and [AdaptiveThresholdDetector].

    Arithmetic model.  A Python [float] is a real number or one of the three
    IEEE special values.  Finite arithmetic is exact: rounding and signed
    zeros are not represented and a finite result is never replaced by an
    infinity.  The overflows that CPython turns into an exception, those of
    [x ** 2] and [math.exp], are kept as range checks.  The special values
    follow IEEE 754 as Python exposes it.  Python exceptions are explicit: a
    computation returns a value or raises.

    A property that rounding, an overflow to infinity or an underflow to zero
    would break in binary64 is stated with hypotheses that keep its arguments
    away from them: a finite scale, magnitudes within 1e150, differences of
    at least 1e-100, inequalities that rounding preserves. *)

From Stdlib Require Ascii String.
From Stdlib Require Import Reals Lra List Arith ZArith Lia Bool.
Import ListNotations.

Local Open Scope R_scope.

(** ** Python exceptions *)

Inductive exn : Type :=
| ZeroDivisionError
| ValueError
| OverflowError.

Inductive result (A : Type) : Type :=
| Ok (a : A)
| Raise (e : exn).

Arguments Ok {A} a.
Arguments Raise {A} e.

Definition bind {A B : Type} (m : result A) (k : A -> result B) : result B :=
  match m with
  | Ok a => k a
  | Raise e => Raise e
  end.

Definition rmap {A B : Type} (f : A -> B) (m : result A) : result B :=
  bind m (fun a => Ok (f a)).

Notation "'let*' x ':=' m 'in' k" := (bind m (fun x => k))
  (at level 10, x pattern, m at level 100, k at level 200).

(** The results of [f] on the items of [l], left to right, up to the first
    exception: what consuming a generator expression does. *)
Fixpoint traverse {A B : Type} (f : A -> result B) (l : list A)
    : result (list B) :=
  match l with
  | [] => Ok []
  | x :: rest =>
      let* y := f x in
      let* ys := traverse f rest in
      Ok (y :: ys)
  end.

(** ** Floats *)

Inductive pyfloat : Type :=
| Fin (r : R)
| PInf
| NInf
| NaN.

(** The largest finite float, [sys.float_info.max] = 2^1024 - 2^971. *)
Definition DBL_MAX_int : Z := Eval vm_compute in (2 ^ 1024 - 2 ^ 971)%Z.
Definition DBL_MAX : R := IZR DBL_MAX_int.

Definition Rltb (a b : R) : bool := if Rlt_dec a b then true else false.
Definition Rleb (a b : R) : bool := if Rle_dec a b then true else false.
Definition Reqb (a b : R) : bool := if Req_dec_T a b then true else false.

Module Float.

(** [math.isfinite] *)
Definition isfinite (x : pyfloat) : bool :=
  match x with Fin _ => true | _ => false end.

(** [x < y]: false as soon as one side is NaN. *)
Definition ltb (x y : pyfloat) : bool :=
  match x, y with
  | NaN, _ | _, NaN => false
  | Fin a, Fin b => Rltb a b
  | NInf, NInf => false
  | NInf, _ => true
  | _, NInf => false
  | PInf, _ => false
  | Fin _, PInf => true
  end.

(** [x <= y] *)
Definition leb (x y : pyfloat) : bool :=
  match x, y with
  | NaN, _ | _, NaN => false
  | Fin a, Fin b => Rleb a b
  | NInf, _ => true
  | _, PInf => true
  | PInf, _ => false
  | Fin _, NInf => false
  end.

(** [x > y] and [x >= y] *)
Definition gtb (x y : pyfloat) : bool := ltb y x.
Definition geb (x y : pyfloat) : bool := leb y x.

(** [x == y] *)
Definition eqb (x y : pyfloat) : bool :=
  match x, y with
  | Fin a, Fin b => Reqb a b
  | PInf, PInf => true
  | NInf, NInf => true
  | _, _ => false
  end.

(** Unary minus. *)
Definition neg (x : pyfloat) : pyfloat :=
  match x with
  | Fin r => Fin (- r)
  | PInf => NInf
  | NInf => PInf
  | NaN => NaN
  end.

(** [abs(x)] *)
Definition abs (x : pyfloat) : pyfloat :=
  match x with
  | Fin r => Fin (Rabs r)
  | PInf | NInf => PInf
  | NaN => NaN
  end.

(** [x + y] *)
Definition add (x y : pyfloat) : pyfloat :=
  match x, y with
  | NaN, _ | _, NaN => NaN
  | Fin a, Fin b => Fin (a + b)
  | PInf, NInf | NInf, PInf => NaN
  | PInf, _ | _, PInf => PInf
  | NInf, _ | _, NInf => NInf
  end.

(** [x - y] *)
Definition sub (x y : pyfloat) : pyfloat := add x (neg y).

(** An infinity of the sign of [r] times the sign of [x]; NaN at zero. *)
Definition scale_inf (positive : bool) (r : R) : pyfloat :=
  if Rltb 0 r then (if positive then PInf else NInf)
  else if Rltb r 0 then (if positive then NInf else PInf)
  else NaN.

(** [x * y] *)
Definition mul (x y : pyfloat) : pyfloat :=
  match x, y with
  | NaN, _ | _, NaN => NaN
  | Fin a, Fin b => Fin (a * b)
  | PInf, Fin r | Fin r, PInf => scale_inf true r
  | NInf, Fin r | Fin r, NInf => scale_inf false r
  | PInf, PInf | NInf, NInf => PInf
  | PInf, NInf | NInf, PInf => NInf
  end.

(** [x / y]: Python raises on a zero divisor before IEEE division applies. *)
Definition div (x y : pyfloat) : result pyfloat :=
  match x, y with
  | _, Fin b =>
      if Reqb b 0 then Raise ZeroDivisionError
      else match x with
           | Fin a => Ok (Fin (a / b))
           | PInf => Ok (scale_inf true b)
           | NInf => Ok (scale_inf false b)
           | NaN => Ok NaN
           end
  | NaN, _ | _, NaN => Ok NaN
  | Fin _, (PInf | NInf) => Ok (Fin 0)
  | (PInf | NInf), (PInf | NInf) => Ok NaN
  end.

(** [x ** 2]: OverflowError when the square of a finite [x] is out of the
    float range. *)
Definition pow2 (x : pyfloat) : result pyfloat :=
  match x with
  | Fin r => if Rltb DBL_MAX (r * r) then Raise OverflowError else Ok (Fin (r * r))
  | PInf | NInf => Ok PInf
  | NaN => Ok NaN
  end.

(** [math.sqrt]: ValueError (math domain error) below zero. *)
Definition sqrt (x : pyfloat) : result pyfloat :=
  match x with
  | Fin r => if Rltb r 0 then Raise ValueError else Ok (Fin (R_sqrt.sqrt r))
  | PInf => Ok PInf
  | NInf => Raise ValueError
  | NaN => Ok NaN
  end.

(** [math.exp]: OverflowError (math range error) when the exponential of a
    finite [x] is out of the float range. *)
Definition exp (x : pyfloat) : result pyfloat :=
  match x with
  | Fin r =>
      if Rltb DBL_MAX (Rtrigo_def.exp r) then Raise OverflowError
      else Ok (Fin (Rtrigo_def.exp r))
  | PInf => Ok PInf
  | NInf => Ok (Fin 0)
  | NaN => Ok NaN
  end.

(** The float of a Python [int] that counts something. *)
Definition of_nat (n : nat) : pyfloat := Fin (INR n).

(** Built-in [sum] over floats: left to right from the integer 0. *)
Definition sum (l : list pyfloat) : pyfloat := fold_left add l (Fin 0).

(** Built-in [max]: ValueError on an empty sequence; an item replaces the
    running maximum only when it compares greater. *)
Definition max (l : list pyfloat) : result pyfloat :=
  match l with
  | [] => Raise ValueError
  | x :: rest => Ok (fold_left (fun m y => if gtb y m then y else m) rest x)
  end.

End Float.

(** ** The score transform *)

(** [_logisticScore(metric, center, scale)]; [None] arguments are [None] here. *)
Definition _logisticScore (metric : option pyfloat) (center : pyfloat)
    (scale : option pyfloat) : result pyfloat :=
  match metric with
  | None => Ok (Fin 0)
  | Some metric =>
      if negb (Float.isfinite metric) then Ok (Fin 0)
      else
        let scale :=
          match scale with
          | None => Fin 1
          | Some s => if Float.leb s (Fin 0) then Fin 1 else s
          end in
        let* x := Float.div (Float.sub metric center) scale in
        if Float.geb x (Fin 60) then Ok (Fin 1)
        else if Float.leb x (Fin (-60)) then Ok (Fin 0)
        else
          let* e := Float.exp (Float.neg x) in
          Float.div (Fin 1) (Float.add (Fin 1) e)
  end.

Arguments _logisticScore : simpl never.

(** ** Driving a detector

    The benchmark harness calls [handleRecord] once per record, in order, and
    collects the scores; an exception ends the run. *)

Fixpoint feed {S : Type} (step : S -> pyfloat -> result (pyfloat * S))
    (self : S) (values : list pyfloat) : result (list pyfloat * S) :=
  match values with
  | [] => Ok ([], self)
  | value :: rest =>
      let* (score, self) := step self value in
      let* (scores, self) := feed step self rest in
      Ok (score :: scores, self)
  end.

(** [collections.deque.append] on a deque with [maxlen]: the item is added on
    the right, then the leftmost item is dropped if the length exceeds
    [maxlen]. *)
Definition deque_append (maxlen : nat) (window : list pyfloat) (value : pyfloat)
    : list pyfloat :=
  let window := window ++ [value] in
  if (maxlen <? length window)%nat then tl window else window.

(** The probation override shared by the three detectors:
    [if self._recordIndex < self.probationaryPeriod: score = 0.0]. *)
Definition probation (recordIndex : nat) (probationaryPeriod : Z)
    (score : pyfloat) : pyfloat :=
  if (Z.of_nat recordIndex <? probationaryPeriod)%Z then Fin 0 else score.

(** The floor applied to a spread: [if std < minStd: std = minStd]. *)
Definition floored (spread floor : pyfloat) : pyfloat :=
  if Float.ltb spread floor then floor else spread.

Arguments deque_append : simpl never.
Arguments probation : simpl never.
Arguments floored : simpl never.

(** ** ZScoreDetector *)

Module ZScoreDetector.

(** [windowSize] is the [maxlen] of the deque ([deque] refuses a negative
    one at construction); [probationaryPeriod] comes from the base class. *)
Record t : Type := mk {
  probationaryPeriod : Z;
  windowSize : nat;
  threshold : pyfloat;
  scale : pyfloat;
  minStd : pyfloat;
  window : list pyfloat;
  _recordIndex : nat
}.

Definition init (probationaryPeriod : Z) (windowSize : nat)
    (threshold scale minStd : pyfloat) : t :=
  mk probationaryPeriod windowSize threshold scale minStd [] 0.

(** Mean and floored standard deviation of the window (lines 66-70). *)
Definition statistics (minStd : pyfloat) (window : list pyfloat)
    : result (pyfloat * pyfloat) :=
  let n := Float.of_nat (length window) in
  let* mean := Float.div (Float.sum window) n in
  let* squares := traverse (fun x => Float.pow2 (Float.sub x mean)) window in
  let* variance := Float.div (Float.sum squares) n in
  let* std := Float.sqrt variance in
  Ok (mean, floored std minStd).

(** The score of [value] against the statistics (lines 72-73). *)
Definition scoreAgainst (threshold scale : pyfloat) (stats : pyfloat * pyfloat)
    (value : pyfloat) : result pyfloat :=
  let '(mean, std) := stats in
  let* q := Float.div (Float.sub value mean) std in
  _logisticScore (Some (Float.abs q)) threshold (Some scale).

Definition handleRecord (self : t) (value : pyfloat) : result (pyfloat * t) :=
  let* score :=
    if (windowSize self <=? length (window self))%nat then
      let* stats := statistics (minStd self) (window self) in
      scoreAgainst (threshold self) (scale self) stats value
    else Ok (Fin 0) in
  let window := deque_append (windowSize self) (window self) value in
  let score := probation (_recordIndex self) (probationaryPeriod self) score in
  Ok (score,
      mk (probationaryPeriod self) (windowSize self) (threshold self)
         (scale self) (minStd self) window (S (_recordIndex self))).

End ZScoreDetector.

Arguments ZScoreDetector.statistics : simpl never.
Arguments ZScoreDetector.scoreAgainst : simpl never.

(** ** EwmaDetector *)

Module EwmaDetector.

Record t : Type := mk {
  probationaryPeriod : Z;
  alpha : pyfloat;
  threshold : pyfloat;
  scale : pyfloat;
  minStd : pyfloat;
  ewma : option pyfloat;
  variance : pyfloat;
  _recordIndex : nat
}.

Definition init (probationaryPeriod : Z) (alpha threshold scale minStd : pyfloat)
    : t :=
  mk probationaryPeriod alpha threshold scale minStd None (Fin 0) 0.

(** The score of [value] against the running estimates (lines 115-121). *)
Definition scoreAgainst (threshold scale minStd : pyfloat)
    (ewma variance value : pyfloat) : result pyfloat :=
  let diff := Float.sub value ewma in
  let* std := Float.sqrt variance in
  let std := floored std minStd in
  let* ratio := Float.div (Float.abs diff) std in
  _logisticScore (Some ratio) threshold (Some scale).

(** The estimates after [value] (lines 111-112 and 123-124). *)
Definition update (alpha : pyfloat) (estimates : option pyfloat * pyfloat)
    (value : pyfloat) : option pyfloat * pyfloat :=
  match estimates with
  | (None, _) => (Some value, Fin 0)
  | (Some ewma, variance) =>
      let diff := Float.sub value ewma in
      (Some (Float.add ewma (Float.mul alpha diff)),
       Float.mul (Float.sub (Fin 1) alpha)
         (Float.add variance (Float.mul (Float.mul alpha diff) diff)))
  end.

Definition handleRecord (self : t) (value : pyfloat) : result (pyfloat * t) :=
  let* score :=
    match ewma self with
    | None => Ok (Fin 0)
    | Some e =>
        scoreAgainst (threshold self) (scale self) (minStd self)
          e (variance self) value
    end in
  let '(ewma, variance) := update (alpha self) (ewma self, variance self) value in
  let score := probation (_recordIndex self) (probationaryPeriod self) score in
  Ok (score,
      mk (probationaryPeriod self) (alpha self) (threshold self) (scale self)
         (minStd self) ewma variance (S (_recordIndex self))).

End EwmaDetector.

Arguments EwmaDetector.scoreAgainst : simpl never.
Arguments EwmaDetector.update : simpl never.

(** ** AdaptiveThresholdDetector *)

Module AdaptiveThresholdDetector.

Record t : Type := mk {
  probationaryPeriod : Z;
  windowSize : nat;
  sensitivity : pyfloat;
  scale : pyfloat;
  minDev : pyfloat;
  window : list pyfloat;
  _recordIndex : nat
}.

Definition init (probationaryPeriod : Z) (windowSize : nat)
    (sensitivity scale minDev : pyfloat) : t :=
  mk probationaryPeriod windowSize sensitivity scale minDev [] 0.

(** Mean and floored maximum deviation of the window (lines 160-163). *)
Definition statistics (minDev : pyfloat) (window : list pyfloat)
    : result (pyfloat * pyfloat) :=
  let* mean := Float.div (Float.sum window) (Float.of_nat (length window)) in
  let* maxDev := Float.max (map (fun x => Float.abs (Float.sub x mean)) window) in
  Ok (mean, floored maxDev minDev).

(** The score of [value] against the statistics (lines 165-166). *)
Definition scoreAgainst (sensitivity scale : pyfloat) (stats : pyfloat * pyfloat)
    (value : pyfloat) : result pyfloat :=
  let '(mean, maxDev) := stats in
  let* ratio := Float.div (Float.abs (Float.sub value mean)) maxDev in
  _logisticScore (Some ratio) sensitivity (Some scale).

Definition handleRecord (self : t) (value : pyfloat) : result (pyfloat * t) :=
  let* score :=
    if (windowSize self <=? length (window self))%nat then
      let* stats := statistics (minDev self) (window self) in
      scoreAgainst (sensitivity self) (scale self) stats value
    else Ok (Fin 0) in
  let window := deque_append (windowSize self) (window self) value in
  let score := probation (_recordIndex self) (probationaryPeriod self) score in
  Ok (score,
      mk (probationaryPeriod self) (windowSize self) (sensitivity self)
         (scale self) (minDev self) window (S (_recordIndex self))).

End AdaptiveThresholdDetector.

Arguments AdaptiveThresholdDetector.statistics : simpl never.
Arguments AdaptiveThresholdDetector.scoreAgainst : simpl never.

(** ** Auxiliary definitions for the properties *)

(** Lines 29-34 of [_logisticScore] at a finite [x]. *)
Definition squash (x : R) : R :=
  if Rleb 60 x then 1
  else if Rleb x (-60) then 0
  else 1 / (1 + exp (- x)).

(** The scale [_logisticScore] divides by (lines 23-24). *)
Definition effectiveScale (scale : option pyfloat) : pyfloat :=
  match scale with
  | None => Fin 1
  | Some s => if Float.leb s (Fin 0) then Fin 1 else s
  end.


(** A float that is not below zero: a real [>= 0], plus infinity or NaN. *)
Definition nonneg (x : pyfloat) : Prop :=
  match x with
  | Fin r => 0 <= r
  | PInf | NaN => True
  | NInf => False
  end.

(** [0 < x] as Python evaluates it. *)
Definition positive (x : pyfloat) : Prop := Float.ltb (Fin 0) x = true.

(** The state the probation claims speak of: everything a call may change. *)
Definition ZScore_state (self : ZScoreDetector.t) : list pyfloat * nat :=
  (ZScoreDetector.window self, ZScoreDetector._recordIndex self).

Definition Ewma_state (self : EwmaDetector.t) : option pyfloat * pyfloat * nat :=
  (EwmaDetector.ewma self, EwmaDetector.variance self,
   EwmaDetector._recordIndex self).

Definition Adaptive_state (self : AdaptiveThresholdDetector.t)
    : list pyfloat * nat :=
  (AdaptiveThresholdDetector.window self,
   AdaptiveThresholdDetector._recordIndex self).

(** The last [n] values of a history. *)
Definition recent (n : nat) (history : list pyfloat) : list pyfloat :=
  skipn (length history - n) history.

(** Scores of [values] when each score is computed by [score] from the values
    that came before it and the value itself. *)
Fixpoint scoresFrom (score : list pyfloat -> pyfloat -> result pyfloat)
    (history values : list pyfloat) : result (list pyfloat) :=
  match values with
  | [] => Ok []
  | value :: rest =>
      let* s := score history value in
      let* scores := scoresFrom score (history ++ [value]) rest in
      Ok (s :: scores)
  end.

(** The z-score of [value] from the statistics of the last [windowSize]
    earlier values. *)
Definition ZScore_scoreFromHistory (p : Z) (windowSize : nat)
    (threshold scale minStd : pyfloat) (history : list pyfloat)
    (value : pyfloat) : result pyfloat :=
  let window := recent windowSize history in
  let* score :=
    if (windowSize <=? length window)%nat then
      let* stats := ZScoreDetector.statistics minStd window in
      ZScoreDetector.scoreAgainst threshold scale stats value
    else Ok (Fin 0) in
  Ok (probation (length history) p score).

Definition Adaptive_scoreFromHistory (p : Z) (windowSize : nat)
    (sensitivity scale minDev : pyfloat) (history : list pyfloat)
    (value : pyfloat) : result pyfloat :=
  let window := recent windowSize history in
  let* score :=
    if (windowSize <=? length window)%nat then
      let* stats := AdaptiveThresholdDetector.statistics minDev window in
      AdaptiveThresholdDetector.scoreAgainst sensitivity scale stats value
    else Ok (Fin 0) in
  Ok (probation (length history) p score).

(** The EWMA estimates folded from a history. *)
Definition Ewma_estimates (alpha : pyfloat) (history : list pyfloat)
    : option pyfloat * pyfloat :=
  fold_left (EwmaDetector.update alpha) history (None, Fin 0).

Definition Ewma_scoreFromHistory (p : Z) (alpha threshold scale minStd : pyfloat)
    (history : list pyfloat) (value : pyfloat) : result pyfloat :=
  let* score :=
    match fst (Ewma_estimates alpha history) with
    | None => Ok (Fin 0)
    | Some e =>
        EwmaDetector.scoreAgainst threshold scale minStd e
          (snd (Ewma_estimates alpha history)) value
    end in
  Ok (probation (length history) p score).

(** A value whose deviation from a mean of such values cannot overflow when
    squared: NaN, an infinity, or a real of magnitude at most 1e150. *)
Definition tame (x : pyfloat) : Prop :=
  match x with
  | Fin r => -1e150 <= r <= 1e150
  | _ => True
  end.

(** Configurations and states under which a call returns. *)
Definition ZScore_sound (period : Z) (self : ZScoreDetector.t) : Prop :=
  (1 <= ZScoreDetector.windowSize self)%nat /\
  positive (ZScoreDetector.minStd self) /\
  Forall tame (ZScoreDetector.window self) /\
  ZScoreDetector.probationaryPeriod self = period.

Definition Ewma_sound (period : Z) (self : EwmaDetector.t) : Prop :=
  (exists a, EwmaDetector.alpha self = Fin a /\ 0 < a <= 1) /\
  positive (EwmaDetector.minStd self) /\
  nonneg (EwmaDetector.variance self) /\
  EwmaDetector.probationaryPeriod self = period.

Definition Adaptive_sound (period : Z) (self : AdaptiveThresholdDetector.t)
    : Prop :=
  (1 <= AdaptiveThresholdDetector.windowSize self)%nat /\
  positive (AdaptiveThresholdDetector.minDev self) /\
  AdaptiveThresholdDetector.probationaryPeriod self = period.

(** ** Further auxiliary definitions *)

(** A score in the unit interval. *)
Definition in_unit (x : pyfloat) : Prop :=
  match x with
  | Fin r => 0 <= r <= 1
  | _ => False
  end.

(** Center and scale for which the scaled offset of a finite metric is never
    NaN: the center is not NaN and the scale is neither NaN nor plus
    infinity.  With a scale of plus infinity the offset is inf/inf when the
    center is infinite and when [metric - center] overflows. *)
Definition offset_defined (center scale : pyfloat) : Prop :=
  center <> NaN /\ scale <> NaN /\ scale <> PInf.

(** The probation override applied to the scores of consecutive calls, the
    first of which has record index [index]. *)
Fixpoint maskScores (index : nat) (p : Z) (scores : list pyfloat)
    : list pyfloat :=
  match scores with
  | [] => []
  | score :: rest => probation index p score :: maskScores (S index) p rest
  end.

(** ** The env file reader of [scripts/run_simple_stats_detectors.py]

    A Python [str] is the list of its code points.  The file system is a
    lookup from a path to the lines that iterating the open text file yields,
    [None] when [os.path.exists] is false.  [os.environ] is a lookup from
    names to values.  Failures of [open] on a path that exists are not
    represented. *)

Module EnvFile.
Import Ascii String.

Definition str : Type := list N.

(** A literal of the source. *)
Definition lit (s : string) : str :=
  List.map N_of_ascii (list_ascii_of_string s).

Definition str_eqb (a b : str) : bool :=
  if list_eq_dec N.eq_dec a b then true else false.

(** The characters [str.strip()] removes: those for which [str.isspace] holds
    (U+0009-000D, U+001C-0020, U+0085, U+00A0, U+1680, U+2000-200A, U+2028,
    U+2029, U+202F, U+205F, U+3000). *)
Definition isspace (c : N) : bool :=
  ((9 <=? c) && (c <=? 13) || (28 <=? c) && (c <=? 32) || (c =? 133)
   || (c =? 160) || (c =? 5760) || (8192 <=? c) && (c <=? 8202)
   || (c =? 8232) || (c =? 8233) || (c =? 8239) || (c =? 8287)
   || (c =? 12288))%N.

Fixpoint lstrip (s : str) : str :=
  match s with
  | [] => []
  | c :: rest => if isspace c then lstrip rest else s
  end.

Definition rstrip (s : str) : str := rev (lstrip (rev s)).

(** [s.strip()] *)
Definition strip (s : str) : str := rstrip (lstrip s).

(** [s.startswith(prefix)] *)
Fixpoint startswith (s prefix : str) : bool :=
  match prefix, s with
  | [], _ => true
  | _ :: _, [] => false
  | p :: prefix, c :: s => (c =? p)%N && startswith s prefix
  end.

(** [c in s] for a one-character [c]. *)
Definition contains (s : str) (c : N) : bool := existsb (N.eqb c) s.

(** [s.split(c, 1)]: the parts before and after the first [c], or [s] alone. *)
Fixpoint split1 (s : str) (c : N) : list str :=
  match s with
  | [] => [[]]
  | x :: rest =>
      if (x =? c)%N then [[]; rest]
      else match split1 rest c with
           | before :: parts => (x :: before) :: parts
           | [] => [[x]]
           end
  end.

Definition equals : N := 61.
Definition hash : N := 35.
Definition apostrophe : N := 39.
Definition quotation : N := 34.

(** Lines 40-43: one pair of matching quotes around the value is dropped. *)
Definition unquote (value : str) : str :=
  if (2 <=? List.length value)%nat
     && (List.hd 0 value =? List.last value 0)%N
     && ((List.hd 0 value =? apostrophe) || (List.hd 0 value =? quotation))%N
  then removelast (List.tl value)
  else value.

(** Lines 33-46 on the line left after the [export] handling: the assignment
    to perform, if any. *)
Definition parseAssignment (line : str) : result (option (str * str)) :=
  if negb (contains line equals) then Ok None
  else
    match split1 line equals with
    | [key; value] =>
        let key := strip key in
        let value := unquote (strip value) in
        match key with
        | [] => Ok None
        | _ :: _ => Ok (Some (key, value))
        end
    | _ => Raise ValueError
    end.

(** Lines 28-46: the body of the loop over the lines of the file. *)
Definition parseLine (rawLine : str) : result (option (str * str)) :=
  let line := strip rawLine in
  match line with
  | [] => Ok None
  | _ :: _ =>
      if startswith line (lit "#") then Ok None
      else
        let line :=
          if startswith line (lit "export ")
          then strip (skipn (List.length (lit "export ")) line)
          else line in
        parseAssignment line
  end.

Definition environ : Type := str -> option str.

(** A character [os.environ] cannot encode (UTF-8 with surrogateescape): a
    surrogate outside U+DC80-DCFF. *)
Definition unencodable (c : N) : bool :=
  ((55296 <=? c) && (c <=? 57343) && negb ((56448 <=? c) && (c <=? 56575)))%N.

(** A string [os.environ] refuses as name or value: UnicodeEncodeError, a
    subclass of ValueError, or ValueError for an embedded null character. *)
Definition refused (s : str) : bool := existsb unencodable s || contains s 0.

(** [os.environ[key] = value] on POSIX for a key that is not empty:
    ValueError on a name or value that is refused and on a name with [=]. *)
Definition setitem (env : environ) (key value : str) : result environ :=
  if refused key || refused value then Raise ValueError
  else if contains key equals then Raise ValueError
  else Ok (fun name => if str_eqb name key then Some value else env name).

Fixpoint loadLines (lines : list str) (env : environ) : result environ :=
  match lines with
  | [] => Ok env
  | rawLine :: rest =>
      let* parsed := parseLine rawLine in
      match parsed with
      | None => loadLines rest env
      | Some (key, value) =>
          let* env := setitem env key value in
          loadLines rest env
      end
  end.

(** [_loadEnvFile(path)]; [path] is [None] or a string, [exists_ path] is
    [None] when [os.path.exists(path)] is false and the lines the open file
    yields otherwise. *)
Definition _loadEnvFile (exists_ : str -> option (list str))
    (path : option str) (env : environ) : result environ :=
  match path with
  | None | Some [] => Ok env
  | Some path =>
      match exists_ path with
      | None => Ok env
      | Some lines => loadLines lines env
      end
  end.

(** A string of whitespace only. *)
Definition blank (s : str) : Prop := Forall (fun c => isspace c = true) s.

(** The assignments a list of lines asks for, in order. *)
Definition assignments (lines : list str) : list (str * str) :=
  flat_map (fun rawLine =>
              match parseLine rawLine with
              | Ok (Some assignment) => [assignment]
              | _ => []
              end) lines.

(** An assignment [os.environ] refuses. *)
Definition unsettable (assignment : str * str) : bool :=
  refused (fst assignment) || refused (snd assignment).

(** The environment after a list of assignments: the last one to a name wins. *)
Definition override (assigned : list (str * str)) (env : environ) : environ :=
  fun name =>
    match find (fun assignment => str_eqb name (fst assignment)) (rev assigned) with
    | Some assignment => Some (snd assignment)
    | None => env name
    end.

End EnvFile.

(** * Properties *)

(** ** Comparisons on reals *)

Lemma Rltb_true (a b : R) : Rltb a b = true <-> a < b.
Proof. unfold Rltb; destruct (Rlt_dec a b); split; intros; try easy. Qed.

Lemma Rltb_false (a b : R) : Rltb a b = false <-> b <= a.
Proof.
  unfold Rltb; destruct (Rlt_dec a b); split; intros; try easy; lra.
Qed.

Lemma Rleb_true (a b : R) : Rleb a b = true <-> a <= b.
Proof. unfold Rleb; destruct (Rle_dec a b); split; intros; try easy. Qed.

Lemma Rleb_false (a b : R) : Rleb a b = false <-> b < a.
Proof.
  unfold Rleb; destruct (Rle_dec a b); split; intros; try easy; lra.
Qed.

Lemma Reqb_true (a b : R) : Reqb a b = true <-> a = b.
Proof. unfold Reqb; destruct (Req_dec_T a b); split; intros; try easy. Qed.

Lemma Reqb_false (a b : R) : Reqb a b = false <-> a <> b.
Proof. unfold Reqb; destruct (Req_dec_T a b); split; intros; try easy. Qed.

(** Decide every real comparison in sight, then close by linear arithmetic. *)
Ltac rdecide :=
  unfold Rltb, Rleb, Reqb in *;
  repeat match goal with
    | |- context [Rlt_dec ?a ?b] => destruct (Rlt_dec a b)
    | |- context [Rle_dec ?a ?b] => destruct (Rle_dec a b)
    | |- context [Req_dec_T ?a ?b] => destruct (Req_dec_T a b)
    | H : context [Rlt_dec ?a ?b] |- _ => destruct (Rlt_dec a b)
    | H : context [Rle_dec ?a ?b] |- _ => destruct (Rle_dec a b)
    | H : context [Req_dec_T ?a ?b] |- _ => destruct (Req_dec_T a b)
    end;
  try discriminate; try reflexivity; try lra.

(** ** The logistic curve on the reals *)

Lemma squash_monotone (x y : R) : x <= y -> squash x <= squash y.
Proof.
  intros Hxy. unfold squash.
  assert (Hx : 0 < exp (- x)) by apply exp_pos.
  assert (Hy : 0 < exp (- y)) by apply exp_pos.
  assert (Hinvx : 0 < / (1 + exp (- x))) by (apply Rinv_0_lt_compat; lra).
  assert (Hinvy : 0 < / (1 + exp (- y))) by (apply Rinv_0_lt_compat; lra).
  assert (Hlex : / (1 + exp (- x)) <= 1).
  { rewrite <- Rinv_1 at 2. apply Rinv_le_contravar; lra. }
  assert (Hley : / (1 + exp (- y)) <= 1).
  { rewrite <- Rinv_1 at 2. apply Rinv_le_contravar; lra. }
  assert (Hexp : exp (- y) <= exp (- x)).
  { destruct (Req_dec x y) as [-> | Hne]; [lra |].
    left. apply exp_increasing. lra. }
  assert (Hinv : / (1 + exp (- x)) <= / (1 + exp (- y))).
  { apply Rinv_le_contravar; lra. }
  unfold Rdiv. rdecide.
Qed.

Lemma squash_at_zero : squash 0 = 1 / 2.
Proof.
  unfold squash. replace (- 0) with 0 by lra. rewrite exp_0.
  rdecide.
Qed.

Lemma squash_below (x : R) : x <= 0 -> squash x <= 1 / 2.
Proof.
  intros H. rewrite <- squash_at_zero. now apply squash_monotone.
Qed.

Lemma squash_above (x : R) : 0 <= x -> 1 / 2 <= squash x.
Proof.
  intros H. rewrite <- squash_at_zero. now apply squash_monotone.
Qed.

(** Below 60 the exponential stays in the float range: the clamps of
    [_logisticScore] keep [math.exp] from overflowing. *)
Lemma exp_double (x b : R) : exp x <= b -> exp (x + x) <= b * b.
Proof.
  intros H. rewrite exp_plus.
  pose proof (exp_pos x) as Hpos.
  apply Rmult_le_compat; lra.
Qed.

Lemma exp_64_bound : exp 64 <= 3433683820292512484657849089281.
Proof.
  pose proof exp_le_3 as H1.
  apply exp_double in H1. replace (1 + 1) with 2 in H1 by lra.
  apply exp_double in H1. replace (2 + 2) with 4 in H1 by lra.
  apply exp_double in H1. replace (4 + 4) with 8 in H1 by lra.
  apply exp_double in H1. replace (8 + 8) with 16 in H1 by lra.
  apply exp_double in H1. replace (16 + 16) with 32 in H1 by lra.
  apply exp_double in H1. replace (32 + 32) with 64 in H1 by lra.
  lra.
Qed.

Lemma exp_in_range (y : R) : y < 60 -> Rltb DBL_MAX (exp y) = false.
Proof.
  intros Hy. apply Rltb_false.
  assert (Hlt : exp y < exp 64) by (apply exp_increasing; lra).
  pose proof exp_64_bound as Hb.
  unfold DBL_MAX, DBL_MAX_int. lra.
Qed.

(** ** The score transform *)

Lemma effectiveScale_cases (scale : option pyfloat) :
  (exists s, effectiveScale scale = Fin s /\ 0 < s)
  \/ effectiveScale scale = PInf
  \/ (effectiveScale scale = NaN /\ scale = Some NaN).
Proof.
  destruct scale as [[s | | |] |]; simpl.
  - destruct (Rleb s 0) eqn:E.
    + left. exists 1. split; [reflexivity | lra].
    + left. exists s. apply Rleb_false in E. now split.
  - now (right; left).
  - left. exists 1. split; [reflexivity | lra].
  - now (right; right).
  - left. exists 1. split; [reflexivity | lra].
Qed.

(** At a finite scaled offset the transform is the clamped logistic curve. *)
Lemma logisticScore_finite (m c s : R) (scale : option pyfloat) :
  effectiveScale scale = Fin s -> 0 < s ->
  _logisticScore (Some (Fin m)) (Fin c) scale = Ok (Fin (squash ((m - c) / s))).
Proof.
  intros Hs Hpos. unfold _logisticScore. fold (effectiveScale scale).
  rewrite Hs. simpl.
  assert (E : Reqb s 0 = false) by (apply Reqb_false; lra).
  rewrite E. simpl. unfold Float.geb, Float.leb, squash.
  replace (m + - c) with (m - c) by lra.
  destruct (Rleb 60 ((m - c) / s)); [reflexivity |].
  destruct (Rleb ((m - c) / s) (-60)) eqn:Hlow; [reflexivity |].
  apply Rleb_false in Hlow. simpl.
  rewrite exp_in_range by lra. simpl.
  assert (Hx : 0 < exp (- ((m - c) / s))) by apply exp_pos.
  assert (E1 : Reqb (1 + exp (- ((m - c) / s))) 0 = false)
    by (apply Reqb_false; lra).
  now rewrite E1.
Qed.

(** With an infinite scale the finite offset vanishes: the score is 1/2. *)
Lemma logisticScore_infinite_scale (m c : R) (scale : option pyfloat) :
  effectiveScale scale = PInf ->
  _logisticScore (Some (Fin m)) (Fin c) scale = Ok (Fin (1 / 2)).
Proof.
  intros Hs. unfold _logisticScore. fold (effectiveScale scale).
  rewrite Hs. simpl. unfold Float.geb, Float.leb.
  assert (E1 : Rleb 60 0 = false) by (apply Rleb_false; lra).
  assert (E2 : Rleb 0 (-60) = false) by (apply Rleb_false; lra).
  rewrite E1, E2. simpl.
  rewrite exp_in_range by lra. simpl.
  replace (- 0) with 0 by lra. rewrite exp_0.
  assert (E3 : Reqb (1 + 1) 0 = false) by (apply Reqb_false; lra).
  rewrite E3. do 2 f_equal; lra.
Qed.

(** A center at plus infinity puts every finite metric at the bottom. *)
Lemma logisticScore_center_PInf (m s : R) (scale : option pyfloat) :
  effectiveScale scale = Fin s -> 0 < s ->
  _logisticScore (Some (Fin m)) PInf scale = Ok (Fin 0).
Proof.
  intros Hs Hpos. unfold _logisticScore. fold (effectiveScale scale).
  rewrite Hs. simpl.
  assert (E : Reqb s 0 = false) by (apply Reqb_false; lra).
  assert (E1 : Rltb 0 s = true) by (now apply Rltb_true).
  rewrite E. unfold Float.scale_inf. rewrite E1. reflexivity.
Qed.

(** A center at minus infinity puts every finite metric at the top. *)
Lemma logisticScore_center_NInf (m s : R) (scale : option pyfloat) :
  effectiveScale scale = Fin s -> 0 < s ->
  _logisticScore (Some (Fin m)) NInf scale = Ok (Fin 1).
Proof.
  intros Hs Hpos. unfold _logisticScore. fold (effectiveScale scale).
  rewrite Hs. simpl.
  assert (E : Reqb s 0 = false) by (apply Reqb_false; lra).
  assert (E1 : Rltb 0 s = true) by (now apply Rltb_true).
  rewrite E. unfold Float.scale_inf. rewrite E1. reflexivity.
Qed.

(** The transform never raises. *)
Lemma logisticScore_total (metric : option pyfloat) (center : pyfloat)
    (scale : option pyfloat) :
  exists score, _logisticScore metric center scale = Ok score.
Proof.
  destruct metric as [[m | | |] |]; try (eexists; reflexivity).
  destruct (effectiveScale_cases scale) as [(s & Hs & Hpos) | [Hs | [Hs _]]].
  - destruct center as [c | | |].
    + eexists. now apply logisticScore_finite with (s := s).
    + eexists. now apply logisticScore_center_PInf with (s := s).
    + eexists. now apply logisticScore_center_NInf with (s := s).
    + unfold _logisticScore. fold (effectiveScale scale). rewrite Hs. simpl.
      assert (E : Reqb s 0 = false) by (apply Reqb_false; lra).
      rewrite E. simpl. eexists; reflexivity.
  - destruct center as [c | | |].
    + eexists. now apply logisticScore_infinite_scale.
    + unfold _logisticScore. fold (effectiveScale scale). rewrite Hs.
      eexists; reflexivity.
    + unfold _logisticScore. fold (effectiveScale scale). rewrite Hs.
      eexists; reflexivity.
    + unfold _logisticScore. fold (effectiveScale scale). rewrite Hs.
      eexists; reflexivity.
  - unfold _logisticScore. fold (effectiveScale scale). rewrite Hs.
    destruct center; eexists; reflexivity.
Qed.

(** C8: for every center and every scale, the transform returns exactly
    0.0 when the metric is [None], NaN, plus infinity or minus infinity. *)
Theorem logisticScore_undefined_metric :
  (forall center scale, _logisticScore None center scale = Ok (Fin 0)) /\
  (forall center scale, _logisticScore (Some NaN) center scale = Ok (Fin 0)) /\
  (forall center scale, _logisticScore (Some PInf) center scale = Ok (Fin 0)) /\
  (forall center scale, _logisticScore (Some NInf) center scale = Ok (Fin 0)).
Proof. repeat split. Qed.

(** C5 fails as stated: with a NaN scale the guard [scale <= 0] does not
    fire, the offset is NaN, both clamps are skipped and the score is NaN even
    at [metric == center]: neither 0.5 nor below or above it. *)
Lemma logisticScore_nan_scale :
  Float.eqb (Fin 0) (Fin 0) = true /\
  _logisticScore (Some (Fin 0)) (Fin 0) (Some NaN) = Ok NaN /\
  NaN <> Fin (1 / 2) /\
  Float.leb NaN (Fin (1 / 2)) = false /\
  Float.geb NaN (Fin (1 / 2)) = false.
Proof.
  repeat split; try discriminate.
  apply Reqb_true. reflexivity.
Qed.

(** A scale of plus infinity with an infinite center: the offset is
    inf/inf and the score is NaN. *)
Lemma logisticScore_infinite_offset (metric : R) :
  _logisticScore (Some (Fin metric)) PInf (Some PInf) = Ok NaN /\
  _logisticScore (Some (Fin metric)) NInf (Some PInf) = Ok NaN.
Proof. split; reflexivity. Qed.

(** C5, amended: for every finite metric, every center and every scale that
    is neither NaN nor plus infinity ([None] and a scale [<= 0], minus
    infinity included, count as 1.0), the transform returns a score that is
    at most 0.5 when [metric <= center], at least 0.5 when
    [metric >= center], and exactly 0.5 when [metric == center].  A scale of
    plus infinity is left out: the offset is then inf/inf, hence NaN, when
    the center is infinite and when [metric - center] overflows. *)
Theorem logisticScore_half_at_center (metric : R) (center : pyfloat)
    (scale : option pyfloat) :
  scale <> Some NaN ->
  scale <> Some PInf ->
  exists score,
    _logisticScore (Some (Fin metric)) center scale = Ok score /\
    (Float.leb (Fin metric) center = true ->
       Float.leb score (Fin (1 / 2)) = true) /\
    (Float.geb (Fin metric) center = true ->
       Float.geb score (Fin (1 / 2)) = true) /\
    (Float.eqb (Fin metric) center = true -> score = Fin (1 / 2)).
Proof.
  intros Hnan Hinf.
  destruct (effectiveScale_cases scale) as [(s & Hs & Hpos) | [Hs | [_ Hs]]];
    [ | | contradiction].
  - destruct center as [c | | |].
    + exists (Fin (squash ((metric - c) / s))). split.
      * now apply logisticScore_finite.
      * unfold Float.geb. simpl. repeat split; intros H.
        -- apply Rleb_true in H. apply Rleb_true. apply squash_below.
           apply Rmult_le_reg_r with (r := s); [assumption |].
           unfold Rdiv. rewrite Rmult_assoc, Rinv_l by lra. lra.
        -- apply Rleb_true in H. apply Rleb_true. apply squash_above.
           apply Rmult_le_reg_r with (r := s); [assumption |].
           unfold Rdiv. rewrite Rmult_assoc, Rinv_l by lra. lra.
        -- apply Reqb_true in H. subst c. f_equal.
           replace ((metric - metric) / s) with 0 by (field; lra).
           apply squash_at_zero.
    + exists (Fin 0). split.
      * now apply logisticScore_center_PInf with (s := s).
      * unfold Float.geb. simpl. repeat split; intros H; try discriminate.
        apply Rleb_true. lra.
    + exists (Fin 1). split.
      * now apply logisticScore_center_NInf with (s := s).
      * unfold Float.geb. simpl. repeat split; intros H; try discriminate.
        apply Rleb_true. lra.
    + destruct (logisticScore_total (Some (Fin metric)) NaN scale) as [x Hx].
      exists x. split; [assumption |].
      unfold Float.geb. simpl. repeat split; discriminate.
  - assert (Hscale : scale = Some PInf).
    { destruct scale as [[r | | |] |]; simpl in Hs; try discriminate;
        try reflexivity.
      destruct (Rleb r 0); discriminate. }
    contradiction.
Qed.

Lemma logisticScore_half_at_center_witness :
  exists score,
    _logisticScore (Some (Fin 3)) (Fin 3) (Some (Fin 1)) = Ok score /\
    (Float.leb (Fin 3) (Fin 3) = true -> Float.leb score (Fin (1 / 2)) = true) /\
    (Float.geb (Fin 3) (Fin 3) = true -> Float.geb score (Fin (1 / 2)) = true) /\
    (Float.eqb (Fin 3) (Fin 3) = true -> score = Fin (1 / 2)).
Proof.
  apply (logisticScore_half_at_center 3 (Fin 3) (Some (Fin 1))).
  - discriminate.
  - discriminate.
Defined.

(** C6 fails as stated: with a NaN center every score is NaN, and NaN is
    not below or equal to NaN. *)
Lemma logisticScore_nan_center :
  0 <= 1 /\
  Float.ltb (Fin 0) (Fin 1) = true /\
  _logisticScore (Some (Fin 0)) NaN (Some (Fin 1)) = Ok NaN /\
  _logisticScore (Some (Fin 1)) NaN (Some (Fin 1)) = Ok NaN /\
  Float.leb NaN NaN = false.
Proof.
  assert (E0 : Rleb 1 0 = false) by (apply Rleb_false; lra).
  assert (E1 : Reqb 1 0 = false) by (apply Reqb_false; lra).
  repeat split.
  - lra.
  - apply Rltb_true. lra.
  - unfold _logisticScore. simpl. rewrite E0. simpl. now rewrite E1.
  - unfold _logisticScore. simpl. rewrite E0. simpl. now rewrite E1.
Qed.

(** C6, amended: for every fixed center other than NaN and every fixed
    finite scale > 0, the transform is non-decreasing in a finite metric,
    clamps included.  A scale of plus infinity is left out: the offset is
    then inf/inf, hence NaN, when the center is infinite and when
    [metric - center] overflows. *)
Theorem logisticScore_monotone (center scale : pyfloat) (metric1 metric2 : R) :
  center <> NaN ->
  Float.ltb (Fin 0) scale = true ->
  Float.isfinite scale = true ->
  metric1 <= metric2 ->
  exists score1 score2,
    _logisticScore (Some (Fin metric1)) center (Some scale) = Ok score1 /\
    _logisticScore (Some (Fin metric2)) center (Some scale) = Ok score2 /\
    Float.leb score1 score2 = true.
Proof.
  intros Hc Hs Hfin Hle.
  destruct scale as [s | | |]; simpl in Hs; try discriminate.
  - apply Rltb_true in Hs.
    assert (Heff : effectiveScale (Some (Fin s)) = Fin s).
    { simpl. assert (E : Rleb s 0 = false) by (apply Rleb_false; lra).
      now rewrite E. }
    destruct center as [c | | |]; [ | | | contradiction].
    + exists (Fin (squash ((metric1 - c) / s))),
        (Fin (squash ((metric2 - c) / s))).
      repeat split; try (now apply logisticScore_finite).
      simpl. apply Rleb_true. apply squash_monotone.
      apply Rmult_le_compat_r; [| lra].
      left. now apply Rinv_0_lt_compat.
    + exists (Fin 0), (Fin 0).
      repeat split; try (now apply logisticScore_center_PInf with (s := s)).
      simpl. apply Rleb_true. lra.
    + exists (Fin 1), (Fin 1).
      repeat split; try (now apply logisticScore_center_NInf with (s := s)).
      simpl. apply Rleb_true. lra.
Qed.

Lemma logisticScore_monotone_witness :
  exists score1 score2,
    _logisticScore (Some (Fin 1)) (Fin 3) (Some (Fin 2)) = Ok score1 /\
    _logisticScore (Some (Fin 200)) (Fin 3) (Some (Fin 2)) = Ok score2 /\
    Float.leb score1 score2 = true.
Proof.
  apply (logisticScore_monotone (Fin 3) (Fin 2) 1 200).
  - discriminate.
  - apply Rltb_true. lra.
  - reflexivity.
  - lra.
Defined.

(** ** Floats that are not below zero *)

Lemma add_nonneg (x y : pyfloat) : nonneg x -> nonneg y -> nonneg (Float.add x y).
Proof. destruct x, y; simpl; trivial; try contradiction. lra. Qed.

Lemma mul_nonneg (x y : pyfloat) : nonneg x -> nonneg y -> nonneg (Float.mul x y).
Proof.
  destruct x, y; simpl; trivial; try contradiction; unfold Float.scale_inf;
    intros; try nra; rdecide; simpl; trivial; lra.
Qed.

Lemma sum_nonneg (l : list pyfloat) :
  Forall nonneg l -> nonneg (Float.sum l).
Proof.
  unfold Float.sum.
  assert (H : forall acc, nonneg acc -> Forall nonneg l ->
                          nonneg (fold_left Float.add l acc)).
  { induction l as [| x l IH]; intros acc Hacc Hl; simpl; [assumption |].
    inversion Hl; subst. apply IH; [now apply add_nonneg | assumption]. }
  apply H. simpl. lra.
Qed.

Lemma div_by_count (x : pyfloat) (n : nat) :
  (1 <= n)%nat -> nonneg x ->
  exists q, Float.div x (Float.of_nat n) = Ok q /\ nonneg q.
Proof.
  intros Hn Hx.
  assert (Hpos : 0 < INR n) by (apply lt_0_INR; lia).
  assert (E : Reqb (INR n) 0 = false) by (apply Reqb_false; lra).
  assert (E1 : Rltb 0 (INR n) = true) by (now apply Rltb_true).
  unfold Float.of_nat.
  destruct x as [r | | |]; simpl in *; rewrite E; try contradiction.
  - eexists; split; [reflexivity |]. simpl.
    apply Rmult_le_pos; [assumption |]. left. now apply Rinv_0_lt_compat.
  - unfold Float.scale_inf. rewrite E1. eexists; split; [reflexivity | exact I].
  - eexists; split; [reflexivity | exact I].
Qed.

Lemma div_by_count_total (x : pyfloat) (n : nat) :
  (1 <= n)%nat -> exists q, Float.div x (Float.of_nat n) = Ok q.
Proof.
  intros Hn.
  assert (Hpos : 0 < INR n) by (apply lt_0_INR; lia).
  assert (E : Reqb (INR n) 0 = false) by (apply Reqb_false; lra).
  unfold Float.of_nat.
  destruct x as [r | | |]; simpl in *; rewrite E; eexists; reflexivity.
Qed.

Lemma sqrt_nonneg (x : pyfloat) :
  nonneg x -> exists r, Float.sqrt x = Ok r /\ nonneg r.
Proof.
  destruct x as [r | | |]; simpl; intros H; try contradiction.
  - assert (E : Rltb r 0 = false) by (now apply Rltb_false).
    rewrite E. eexists; split; [reflexivity |]. simpl. apply sqrt_pos.
  - eexists; split; [reflexivity | exact I].
  - eexists; split; [reflexivity | exact I].
Qed.

(** Python divides by anything but zero. *)
Lemma div_total (x y : pyfloat) :
  y <> Fin 0 -> exists q, Float.div x y = Ok q.
Proof.
  intros Hy. destruct y as [b | | |].
  - assert (E : Reqb b 0 = false).
    { apply Reqb_false. intros ->. now apply Hy. }
    destruct x; simpl; rewrite E; eexists; reflexivity.
  - destruct x; eexists; reflexivity.
  - destruct x; eexists; reflexivity.
  - destruct x; eexists; reflexivity.
Qed.

Lemma div_finite (x y : R) : y <> 0 -> Float.div (Fin x) (Fin y) = Ok (Fin (x / y)).
Proof.
  intros Hy. simpl.
  assert (E : Reqb y 0 = false) by (now apply Reqb_false).
  now rewrite E.
Qed.

Lemma sqrt_zero : Float.sqrt (Fin 0) = Ok (Fin 0).
Proof.
  simpl. assert (E : Rltb 0 0 = false) by (apply Rltb_false; lra).
  rewrite E. now rewrite sqrt_0.
Qed.

Lemma div_by_zero (x : pyfloat) : Float.div x (Fin 0) = Raise ZeroDivisionError.
Proof.
  assert (E : Reqb 0 0 = true) by (now apply Reqb_true).
  destruct x; simpl; now rewrite E.
Qed.

(** A positive floor keeps the floored spread away from zero. *)
Lemma floored_nonzero (spread floor : pyfloat) :
  positive floor -> floored spread floor <> Fin 0.
Proof.
  unfold positive, floored. intros Hpos.
  destruct (Float.ltb spread floor) eqn:E.
  - intros ->. simpl in Hpos. apply Rltb_true in Hpos. lra.
  - intros ->. rewrite Hpos in E. discriminate.
Qed.

Lemma traverse_returns {A : Type} (f : A -> result pyfloat) (P : A -> Prop)
    (l : list A) :
  (forall x, P x -> exists y, f x = Ok y /\ nonneg y) ->
  Forall P l ->
  exists ys, traverse f l = Ok ys /\ Forall nonneg ys.
Proof.
  intros Hf Hl. induction Hl as [| x l Hx Hl IH].
  - exists []. now split.
  - destruct (Hf x Hx) as (y & Hy & Hny). destruct IH as (ys & Hys & Hnys).
    exists (y :: ys). simpl. rewrite Hy. simpl. rewrite Hys. simpl.
    split; [reflexivity | now constructor].
Qed.

Lemma traverse_repeat {A B : Type} (f : A -> result B) (x : A) (y : B) (n : nat) :
  f x = Ok y -> traverse f (repeat x n) = Ok (repeat y n).
Proof.
  intros Hf. induction n as [| n IH]; [reflexivity |].
  simpl. rewrite Hf. simpl. rewrite IH. reflexivity.
Qed.

Lemma Forall_tl {A : Type} (P : A -> Prop) (l : list A) :
  Forall P l -> Forall P (tl l).
Proof. intros H. destruct H; [constructor | assumption]. Qed.

(** ** Runs *)

Lemma feed_app {S : Type} (step : S -> pyfloat -> result (pyfloat * S))
    (l1 l2 : list pyfloat) (self : S) :
  feed step self (l1 ++ l2) =
  let* (scores1, self1) := feed step self l1 in
  let* (scores2, self2) := feed step self1 l2 in
  Ok (scores1 ++ scores2, self2).
Proof.
  revert self. induction l1 as [| v l1 IH]; intros self; simpl.
  - destruct (feed step self l2) as [[scores self'] | e]; reflexivity.
  - destruct (step self v) as [[score self1] | e]; simpl; [| reflexivity].
    rewrite IH.
    destruct (feed step self1 l1) as [[scores1 self2] | e]; simpl;
      [| reflexivity].
    destruct (feed step self2 l2) as [[scores2 self3] | e]; reflexivity.
Qed.

Section Driver.

Variable S : Type.
Variable step : S -> pyfloat -> result (pyfloat * S).
Variable Inv : S -> Prop.
Variable Good : pyfloat -> Prop.
Variable index : S -> nat.
Variable period : Z.

Hypothesis step_returns :
  forall self value, Inv self -> Good value ->
    exists score self',
      step self value = Ok (score, self') /\ Inv self' /\
      index self' = Datatypes.S (index self) /\
      ((Z.of_nat (index self) < period)%Z -> score = Fin 0).

(** A step that always returns under the invariant makes every run over good
    values return, one score per value, with zeros while the index is below
    the period. *)
Lemma feed_returns (values : list pyfloat) (self : S) :
  Inv self -> Forall Good values ->
  exists scores self',
    feed step self values = Ok (scores, self') /\ Inv self' /\
    length scores = length values /\
    forall i, (i < length values)%nat ->
      (Z.of_nat (index self + i) < period)%Z ->
      nth_error scores i = Some (Fin 0).
Proof.
  revert self. induction values as [| v values IH]; intros self Hinv Hgood.
  - exists [], self. repeat split; trivial. simpl. intros i Hi. lia.
  - inversion Hgood as [| v' values' Hv Hvalues]; subst.
    destruct (step_returns self v Hinv Hv)
      as (score & self1 & Hstep & Hinv1 & Hidx & Hzero).
    destruct (IH self1 Hinv1 Hvalues)
      as (scores & self2 & Hfeed & Hinv2 & Hlen & Hz).
    exists (score :: scores), self2. simpl. rewrite Hstep. simpl.
    rewrite Hfeed. simpl. repeat split; trivial.
    + now rewrite Hlen.
    + intros [| i] Hi Hp; simpl.
      * f_equal. apply Hzero. rewrite Nat.add_0_r in Hp. exact Hp.
      * apply Hz; [lia |]. rewrite Hidx.
        replace (Datatypes.S (index self) + i)%nat
          with (index self + Datatypes.S i)%nat by lia.
        exact Hp.
Qed.

End Driver.

(** ** Calls unfolded *)

Lemma ZScore_call (p : Z) (n : nat) (threshold scale minStd : pyfloat)
    (window : list pyfloat) (index : nat) (value : pyfloat) :
  ZScoreDetector.handleRecord
    (ZScoreDetector.mk p n threshold scale minStd window index) value
  = let* score :=
      if (n <=? length window)%nat then
        let* stats := ZScoreDetector.statistics minStd window in
        ZScoreDetector.scoreAgainst threshold scale stats value
      else Ok (Fin 0) in
    Ok (probation index p score,
        ZScoreDetector.mk p n threshold scale minStd
          (deque_append n window value) (S index)).
Proof. reflexivity. Qed.

Lemma Adaptive_call (p : Z) (n : nat) (sensitivity scale minDev : pyfloat)
    (window : list pyfloat) (index : nat) (value : pyfloat) :
  AdaptiveThresholdDetector.handleRecord
    (AdaptiveThresholdDetector.mk p n sensitivity scale minDev window index)
    value
  = let* score :=
      if (n <=? length window)%nat then
        let* stats := AdaptiveThresholdDetector.statistics minDev window in
        AdaptiveThresholdDetector.scoreAgainst sensitivity scale stats value
      else Ok (Fin 0) in
    Ok (probation index p score,
        AdaptiveThresholdDetector.mk p n sensitivity scale minDev
          (deque_append n window value) (S index)).
Proof. reflexivity. Qed.

Lemma Ewma_call (p : Z) (alpha threshold scale minStd : pyfloat)
    (ewma : option pyfloat) (variance : pyfloat) (index : nat)
    (value : pyfloat) :
  EwmaDetector.handleRecord
    (EwmaDetector.mk p alpha threshold scale minStd ewma variance index) value
  = let* score :=
      match ewma with
      | None => Ok (Fin 0)
      | Some e =>
          EwmaDetector.scoreAgainst threshold scale minStd e variance value
      end in
    Ok (probation index p score,
        EwmaDetector.mk p alpha threshold scale minStd
          (fst (EwmaDetector.update alpha (ewma, variance) value))
          (snd (EwmaDetector.update alpha (ewma, variance) value))
          (S index)).
Proof.
  unfold EwmaDetector.handleRecord. cbn [EwmaDetector.ewma
    EwmaDetector.variance EwmaDetector.alpha EwmaDetector.threshold
    EwmaDetector.scale EwmaDetector.minStd EwmaDetector._recordIndex
    EwmaDetector.probationaryPeriod].
  now destruct (EwmaDetector.update alpha (ewma, variance) value).
Qed.

Lemma Ewma_call_first (p : Z) (alpha threshold scale minStd variance : pyfloat)
    (index : nat) (value : pyfloat) :
  EwmaDetector.handleRecord
    (EwmaDetector.mk p alpha threshold scale minStd None variance index) value
  = Ok (probation index p (Fin 0),
        EwmaDetector.mk p alpha threshold scale minStd (Some value) (Fin 0)
          (S index)).
Proof. reflexivity. Qed.

(** ** ZScoreDetector returns *)

Module ZScoreFacts.
Import ZScoreDetector.

Lemma square_bound (d b : R) : - b <= d <= b -> d * d <= b * b.
Proof. intros H. nra. Qed.

(** A running sum of tame values is NaN or infinite, or a real within the
    number of summands times the bound. *)
Lemma sum_tame (l : list pyfloat) :
  Forall tame l ->
  forall (k : nat) (acc : pyfloat),
    (Float.isfinite acc = false \/
     exists s, acc = Fin s /\ - (INR k * 1e150) <= s <= INR k * 1e150) ->
    Float.isfinite (fold_left Float.add l acc) = false \/
    exists s, fold_left Float.add l acc = Fin s /\
              - (INR (k + length l) * 1e150) <= s <= INR (k + length l) * 1e150.
Proof.
  induction 1 as [| x l Hx Hl IH]; intros k acc Hacc.
  - simpl. now rewrite Nat.add_0_r.
  - cbn [fold_left length].
    replace (k + S (length l))%nat with (S k + length l)%nat by lia.
    apply IH. rewrite S_INR.
    destruct Hacc as [Hacc | (s & -> & Hs)].
    + left. destruct acc, x; simpl in *; try discriminate; reflexivity.
    + destruct x as [r | | |]; simpl in Hx; try (now left).
      right. exists (s + r). split; [reflexivity | lra].
Qed.

(** The mean of a window of tame values is NaN or infinite, or tame. *)
Lemma mean_tame (window : list pyfloat) :
  (1 <= length window)%nat -> Forall tame window ->
  exists mean,
    Float.div (Float.sum window) (Float.of_nat (length window)) = Ok mean /\
    (Float.isfinite mean = false \/
     exists m, mean = Fin m /\ -1e150 <= m <= 1e150).
Proof.
  intros Hlen Htame.
  assert (Hpos : 0 < INR (length window)) by (apply lt_0_INR; lia).
  assert (E : Reqb (INR (length window)) 0 = false) by (apply Reqb_false; lra).
  assert (E1 : Rltb 0 (INR (length window)) = true) by (now apply Rltb_true).
  unfold Float.sum, Float.of_nat.
  destruct (sum_tame window Htame 0 (Fin 0)) as [Hinf | (s & Hsum & Hs)].
  { right. exists 0. split; [reflexivity | simpl; lra]. }
  - destruct (fold_left Float.add window (Fin 0)) as [r | | |];
      try discriminate; simpl; rewrite E; unfold Float.scale_inf;
      try rewrite E1; eexists; (split; [reflexivity | now left]).
  - rewrite Hsum, div_finite by lra.
    eexists. split; [reflexivity |]. right. eexists. split; [reflexivity |].
    simpl in Hs. split.
    + apply Rmult_le_reg_r with (r := INR (length window)); [assumption |].
      replace (s / INR (length window) * INR (length window)) with s
        by (field; lra).
      lra.
    + apply Rmult_le_reg_r with (r := INR (length window)); [assumption |].
      replace (s / INR (length window) * INR (length window)) with s
        by (field; lra).
      lra.
Qed.

(** The squared deviation of a tame value from such a mean does not
    overflow. *)
Lemma squared_deviation_returns (x mean : pyfloat) :
  (Float.isfinite mean = false \/
   exists m, mean = Fin m /\ -1e150 <= m <= 1e150) ->
  tame x ->
  exists y, Float.pow2 (Float.sub x mean) = Ok y /\ nonneg y.
Proof.
  intros Hmean Hx.
  assert (Hnonfinite : forall d, Float.isfinite d = false ->
            exists y, Float.pow2 d = Ok y /\ nonneg y).
  { intros [r | | |] Hd; try discriminate; eexists;
      (split; [reflexivity | exact I]). }
  destruct Hmean as [Hinf | (m & -> & Hm)].
  - apply Hnonfinite. destruct x, mean; try discriminate; reflexivity.
  - destruct x as [r | | |]; try (now apply Hnonfinite).
    simpl in Hx. simpl.
    assert (E : Rltb DBL_MAX ((r + - m) * (r + - m)) = false).
    { apply Rltb_false.
      assert (Hsq : (r + - m) * (r + - m) <= 2e150 * 2e150)
        by (apply square_bound; lra).
      unfold DBL_MAX, DBL_MAX_int. lra. }
    rewrite E. eexists. split; [reflexivity |]. simpl.
    apply (Rle_0_sqr (r + - m)).
Qed.

Lemma zscore_statistics_returns (minStd : pyfloat) (window : list pyfloat) :
  (1 <= length window)%nat -> Forall tame window ->
  exists mean std, statistics minStd window = Ok (mean, floored std minStd).
Proof.
  intros Hlen Htame. unfold statistics.
  destruct (mean_tame window Hlen Htame) as (mean & Hmean & Hbound).
  rewrite Hmean. cbn [bind].
  destruct (traverse_returns (fun x => Float.pow2 (Float.sub x mean)) tame
              window) as (squares & Hsquares & Hnonneg).
  { intros x Hx. now apply squared_deviation_returns. }
  { exact Htame. }
  rewrite Hsquares. cbn [bind].
  destruct (div_by_count (Float.sum squares) (length window) Hlen)
    as (variance & Hvar & Hvnonneg).
  { now apply sum_nonneg. }
  rewrite Hvar. cbn [bind].
  destruct (sqrt_nonneg variance Hvnonneg) as (std & Hstd & _).
  rewrite Hstd. cbn [bind]. now exists mean, std.
Qed.

Lemma zscore_scoreAgainst_returns
    (threshold scale minStd mean std value : pyfloat) :
  positive minStd ->
  exists score,
    scoreAgainst threshold scale (mean, floored std minStd) value = Ok score.
Proof.
  intros Hpos. unfold scoreAgainst.
  destruct (div_total (Float.sub value mean) (floored std minStd)) as [q Hq].
  { now apply floored_nonzero. }
  rewrite Hq. simpl. apply logisticScore_total.
Qed.

(** What one call returns when the configuration is sound. *)
Lemma zscore_handleRecord_returns (self : t) (value : pyfloat) :
  (1 <= windowSize self)%nat -> positive (minStd self) ->
  Forall tame (window self) ->
  exists score,
    handleRecord self value =
    Ok (probation (_recordIndex self) (probationaryPeriod self) score,
        mk (probationaryPeriod self) (windowSize self) (threshold self)
           (scale self) (minStd self)
           (deque_append (windowSize self) (window self) value)
           (S (_recordIndex self))).
Proof.
  intros Hsize Hpos Htame. unfold handleRecord.
  destruct (windowSize self <=? length (window self))%nat eqn:Hfull.
  - apply Nat.leb_le in Hfull.
    destruct (zscore_statistics_returns (minStd self) (window self))
      as (mean & std & Hstats); [lia | assumption |].
    rewrite Hstats. simpl.
    destruct (zscore_scoreAgainst_returns (threshold self) (scale self)
                (minStd self) mean std value Hpos) as [score Hscore].
    rewrite Hscore. simpl. now exists score.
  - simpl. now exists (Fin 0).
Qed.

Lemma deque_append_tame (n : nat) (window : list pyfloat) (value : pyfloat) :
  Forall tame window -> tame value -> Forall tame (deque_append n window value).
Proof.
  intros Hw Hv. unfold deque_append.
  assert (H : Forall tame (window ++ [value])).
  { apply Forall_app. split; [assumption | now constructor]. }
  destruct (n <? length (window ++ [value]))%nat; [now apply Forall_tl | exact H].
Qed.

Lemma zscore_step_sound (period : Z) (self : t) (value : pyfloat) :
  ZScore_sound period self -> tame value ->
  exists score self',
    handleRecord self value = Ok (score, self') /\ ZScore_sound period self' /\
    _recordIndex self' = S (_recordIndex self) /\
    ((Z.of_nat (_recordIndex self) < period)%Z -> score = Fin 0).
Proof.
  intros (Hsize & Hpos & Htame & Hp) Hvalue.
  destruct (zscore_handleRecord_returns self value Hsize Hpos Htame)
    as [score Hret].
  eexists; eexists. split; [exact Hret |].
  split; [| split; [reflexivity |]].
  - repeat split; simpl; trivial. now apply deque_append_tame.
  - intros Hlt. unfold probation. rewrite Hp.
    apply Z.ltb_lt in Hlt. now rewrite Hlt.
Qed.

End ZScoreFacts.

(** ** AdaptiveThresholdDetector returns *)

Module AdaptiveFacts.
Import AdaptiveThresholdDetector.

Lemma adaptive_statistics_returns (minDev : pyfloat) (window : list pyfloat) :
  (1 <= length window)%nat ->
  exists mean maxDev,
    statistics minDev window = Ok (mean, floored maxDev minDev).
Proof.
  intros Hlen. unfold statistics.
  destruct (div_by_count_total (Float.sum window) (length window) Hlen)
    as [mean Hmean].
  rewrite Hmean. simpl.
  destruct window as [| x window]; [simpl in Hlen; lia |].
  simpl. eexists; eexists; reflexivity.
Qed.

Lemma adaptive_scoreAgainst_returns
    (sensitivity scale minDev mean maxDev value : pyfloat) :
  positive minDev ->
  exists score,
    scoreAgainst sensitivity scale (mean, floored maxDev minDev) value
    = Ok score.
Proof.
  intros Hpos. unfold scoreAgainst.
  destruct (div_total (Float.abs (Float.sub value mean))
              (floored maxDev minDev)) as [q Hq].
  { now apply floored_nonzero. }
  rewrite Hq. simpl. apply logisticScore_total.
Qed.

Lemma adaptive_handleRecord_returns (self : t) (value : pyfloat) :
  (1 <= windowSize self)%nat -> positive (minDev self) ->
  exists score,
    handleRecord self value =
    Ok (probation (_recordIndex self) (probationaryPeriod self) score,
        mk (probationaryPeriod self) (windowSize self) (sensitivity self)
           (scale self) (minDev self)
           (deque_append (windowSize self) (window self) value)
           (S (_recordIndex self))).
Proof.
  intros Hsize Hpos. unfold handleRecord.
  destruct (windowSize self <=? length (window self))%nat eqn:Hfull.
  - apply Nat.leb_le in Hfull.
    destruct (adaptive_statistics_returns (minDev self) (window self))
      as (mean & maxDev & Hstats); [lia |].
    rewrite Hstats. simpl.
    destruct (adaptive_scoreAgainst_returns (sensitivity self) (scale self)
                (minDev self) mean maxDev value Hpos) as [score Hscore].
    rewrite Hscore. simpl. now exists score.
  - simpl. now exists (Fin 0).
Qed.

Lemma adaptive_step_sound (period : Z) (self : t) (value : pyfloat) :
  Adaptive_sound period self ->
  exists score self',
    handleRecord self value = Ok (score, self') /\ Adaptive_sound period self' /\
    _recordIndex self' = S (_recordIndex self) /\
    ((Z.of_nat (_recordIndex self) < period)%Z -> score = Fin 0).
Proof.
  intros (Hsize & Hpos & Hp).
  destruct (adaptive_handleRecord_returns self value Hsize Hpos) as [score Hret].
  eexists; eexists. split; [exact Hret |].
  split; [now repeat split |]. split; [reflexivity |].
  intros Hlt. unfold probation. rewrite Hp.
  apply Z.ltb_lt in Hlt. now rewrite Hlt.
Qed.

End AdaptiveFacts.

(** ** EwmaDetector returns *)

Module EwmaFacts.
Import EwmaDetector.

(** The variance estimate never goes below zero for [0 < alpha <= 1]. *)
Lemma ewma_update_nonneg (a : R) (ewma : option pyfloat) (variance value : pyfloat) :
  0 < a <= 1 -> nonneg variance ->
  nonneg (snd (update (Fin a) (ewma, variance) value)).
Proof.
  intros Ha Hv. destruct ewma as [e |]; [| simpl; lra].
  unfold update. cbn [snd].
  apply mul_nonneg; [simpl; lra |].
  apply add_nonneg; [assumption |].
  destruct (Float.sub value e) as [d | | |]; simpl; trivial.
  - nra.
  - unfold Float.scale_inf.
    assert (E : Rltb 0 a = true) by (apply Rltb_true; lra).
    now rewrite E.
  - unfold Float.scale_inf.
    assert (E : Rltb 0 a = true) by (apply Rltb_true; lra).
    now rewrite E.
Qed.

Lemma ewma_scoreAgainst_returns
    (threshold scale minStd ewma variance value : pyfloat) :
  positive minStd -> nonneg variance ->
  exists score,
    scoreAgainst threshold scale minStd ewma variance value = Ok score.
Proof.
  intros Hpos Hv. unfold scoreAgainst.
  destruct (sqrt_nonneg variance Hv) as (std & Hstd & _).
  rewrite Hstd. simpl.
  destruct (div_total (Float.abs (Float.sub value ewma)) (floored std minStd))
    as [ratio Hratio].
  { now apply floored_nonzero. }
  rewrite Hratio. simpl. apply logisticScore_total.
Qed.

Lemma ewma_step_sound (period : Z) (self : t) (value : pyfloat) :
  Ewma_sound period self ->
  exists score self',
    handleRecord self value = Ok (score, self') /\ Ewma_sound period self' /\
    _recordIndex self' = S (_recordIndex self) /\
    ((Z.of_nat (_recordIndex self) < period)%Z -> score = Fin 0).
Proof.
  intros ((a & Halpha & Ha) & Hpos & Hv & Hp).
  assert (Hscore : exists score,
             match ewma self with
             | None => Ok (Fin 0)
             | Some e => scoreAgainst (threshold self) (scale self)
                           (minStd self) e (variance self) value
             end = Ok score).
  { destruct (ewma self) as [e |]; [| now exists (Fin 0)].
    now apply ewma_scoreAgainst_returns. }
  destruct Hscore as [score Hscore].
  unfold handleRecord. rewrite Hscore. cbn [bind].
  pose proof (ewma_update_nonneg a (ewma self) (variance self) value Ha Hv) as Hn.
  rewrite <- Halpha in Hn.
  destruct (update (alpha self) (ewma self, variance self) value)
    as [ewma' variance'].
  eexists; eexists. split; [reflexivity |].
  split; [| split; [reflexivity |]].
  - repeat split; simpl; trivial. now exists a.
  - intros Hlt. unfold probation. rewrite Hp.
    apply Z.ltb_lt in Hlt. now rewrite Hlt.
Qed.

End EwmaFacts.

(** ** Constant windows *)

Lemma sum_repeat (c : R) (n : nat) :
  Float.sum (repeat (Fin c) n) = Fin (INR n * c).
Proof.
  unfold Float.sum.
  assert (H : forall a, fold_left Float.add (repeat (Fin c) n) (Fin a)
                        = Fin (a + INR n * c)).
  { induction n as [| n IH]; intros a.
    - simpl. f_equal. lra.
    - change (repeat (Fin c) (S n)) with (Fin c :: repeat (Fin c) n).
      cbn [fold_left Float.add]. rewrite IH. f_equal. rewrite S_INR. lra. }
  rewrite H. f_equal. lra.
Qed.

Lemma pow2_no_deviation (c : R) :
  Float.pow2 (Float.sub (Fin c) (Fin c)) = Ok (Fin 0).
Proof.
  simpl. replace ((c + - c) * (c + - c)) with 0 by ring.
  assert (E : Rltb DBL_MAX 0 = false).
  { apply Rltb_false. unfold DBL_MAX, DBL_MAX_int. lra. }
  now rewrite E.
Qed.

(** A window of [n >= 1] equal finite values has that value as mean and
    zero spread, so the floor decides the divisor. *)
Lemma ZScore_statistics_constant (minStd : pyfloat) (c : R) (n : nat) :
  (1 <= n)%nat ->
  ZScoreDetector.statistics minStd (repeat (Fin c) n)
  = Ok (Fin c, floored (Fin 0) minStd).
Proof.
  intros Hn.
  assert (Hpos : 0 < INR n) by (apply lt_0_INR; lia).
  unfold ZScoreDetector.statistics, Float.of_nat.
  rewrite repeat_length, sum_repeat, div_finite by lra.
  cbn [bind].
  replace (INR n * c / INR n) with c by (field; lra).
  rewrite traverse_repeat with (y := Fin 0) by apply pow2_no_deviation.
  cbn [bind]. rewrite sum_repeat, div_finite by lra. cbn [bind].
  replace (INR n * 0 / INR n) with 0 by (field; lra).
  rewrite sqrt_zero. reflexivity.
Qed.

Lemma floored_zero_zero : floored (Fin 0) (Fin 0) = Fin 0.
Proof.
  unfold floored. simpl.
  assert (E : Rltb 0 0 = false) by (apply Rltb_false; lra).
  now rewrite E.
Qed.

Lemma floored_zero_positive (m : R) : 0 < m -> floored (Fin 0) (Fin m) = Fin m.
Proof.
  intros Hm. unfold floored. simpl.
  assert (E : Rltb 0 m = true) by (now apply Rltb_true).
  now rewrite E.
Qed.

(** ** Single calls on explicit states *)

(** While the window is not full the call scores 0.0 and appends. *)
Lemma ZScore_call_filling (p : Z) (n : nat) (threshold scale minStd : pyfloat)
    (window : list pyfloat) (index : nat) (value : pyfloat) :
  (length window < n)%nat ->
  ZScoreDetector.handleRecord
    (ZScoreDetector.mk p n threshold scale minStd window index) value
  = Ok (Fin 0,
        ZScoreDetector.mk p n threshold scale minStd (window ++ [value])
          (S index)).
Proof.
  intros Hlen. unfold ZScoreDetector.handleRecord. simpl.
  assert (E : (n <=? length window)%nat = false) by (apply Nat.leb_gt; lia).
  rewrite E. simpl.
  assert (Hp : probation index p (Fin 0) = Fin 0).
  { unfold probation. now destruct (Z.of_nat index <? p)%Z. }
  rewrite Hp. do 3 f_equal.
  unfold deque_append. rewrite length_app. simpl.
  assert (E1 : (n <? length window + 1)%nat = false) by (apply Nat.ltb_ge; lia).
  now rewrite E1.
Qed.

Lemma Adaptive_call_filling (p : Z) (n : nat)
    (sensitivity scale minDev : pyfloat) (window : list pyfloat) (index : nat)
    (value : pyfloat) :
  (length window < n)%nat ->
  AdaptiveThresholdDetector.handleRecord
    (AdaptiveThresholdDetector.mk p n sensitivity scale minDev window index)
    value
  = Ok (Fin 0,
        AdaptiveThresholdDetector.mk p n sensitivity scale minDev
          (window ++ [value]) (S index)).
Proof.
  intros Hlen. unfold AdaptiveThresholdDetector.handleRecord. simpl.
  assert (E : (n <=? length window)%nat = false) by (apply Nat.leb_gt; lia).
  rewrite E. simpl.
  assert (Hp : probation index p (Fin 0) = Fin 0).
  { unfold probation. now destruct (Z.of_nat index <? p)%Z. }
  rewrite Hp. do 3 f_equal.
  unfold deque_append. rewrite length_app. simpl.
  assert (E1 : (n <? length window + 1)%nat = false) by (apply Nat.ltb_ge; lia).
  now rewrite E1.
Qed.

(** A full window of equal values and a floor of zero: the division by the
    standard deviation raises. *)
Lemma ZScore_call_zero_floor (p : Z) (n : nat) (threshold scale : pyfloat)
    (c : R) (index : nat) (value : pyfloat) :
  (1 <= n)%nat ->
  ZScoreDetector.handleRecord
    (ZScoreDetector.mk p n threshold scale (Fin 0) (repeat (Fin c) n) index)
    value
  = Raise ZeroDivisionError.
Proof.
  intros Hn. unfold ZScoreDetector.handleRecord. simpl.
  rewrite repeat_length, Nat.leb_refl.
  rewrite ZScore_statistics_constant by assumption.
  rewrite floored_zero_zero. simpl.
  unfold ZScoreDetector.scoreAgainst. now rewrite div_by_zero.
Qed.

(** A full window of equal values [c], a floor [m > 0], a finite center and
    a finite scale [s > 0]: the score of a finite value [v] is the logistic
    curve at [(|v - c| / m - t) / s]. *)
Lemma ZScore_call_constant (p : Z) (n : nat) (t s m c v : R) (index : nat) :
  (1 <= n)%nat -> 0 < s -> 0 < m ->
  ZScoreDetector.handleRecord
    (ZScoreDetector.mk p n (Fin t) (Fin s) (Fin m) (repeat (Fin c) n) index)
    (Fin v)
  = Ok (probation index p (Fin (squash ((Rabs (v - c) / m - t) / s))),
        ZScoreDetector.mk p n (Fin t) (Fin s) (Fin m)
          (deque_append n (repeat (Fin c) n) (Fin v)) (S index)).
Proof.
  intros Hn Hs Hm. unfold ZScoreDetector.handleRecord. simpl.
  rewrite repeat_length, Nat.leb_refl.
  rewrite ZScore_statistics_constant by assumption.
  rewrite floored_zero_positive by assumption. simpl.
  unfold ZScoreDetector.scoreAgainst.
  cbn [Float.sub Float.neg Float.add]. rewrite div_finite by lra.
  cbn [bind Float.abs].
  rewrite logisticScore_finite with (s := s); trivial.
  - simpl. do 5 f_equal. unfold Rdiv. rewrite Rabs_mult.
    rewrite (Rabs_right (/ m)).
    + replace (v + - c) with (v - c) by lra. reflexivity.
    + left. now apply Rinv_0_lt_compat.
  - simpl. assert (E : Rleb s 0 = false) by (apply Rleb_false; lra).
    now rewrite E.
Qed.

Lemma ZScore_feed_filling (values : list pyfloat) (p : Z) (n : nat)
    (threshold scale minStd : pyfloat) (window : list pyfloat) (index : nat) :
  (length window + length values <= n)%nat ->
  feed ZScoreDetector.handleRecord
    (ZScoreDetector.mk p n threshold scale minStd window index) values
  = Ok (repeat (Fin 0) (length values),
        ZScoreDetector.mk p n threshold scale minStd (window ++ values)
          (index + length values)).
Proof.
  revert window index.
  induction values as [| v values IH]; intros window index Hlen.
  - simpl. now rewrite app_nil_r, Nat.add_0_r.
  - simpl in Hlen. cbn [feed].
    rewrite ZScore_call_filling by lia. cbn [bind].
    rewrite IH by (rewrite length_app; simpl; lia). cbn [bind].
    rewrite <- app_assoc. simpl. do 3 f_equal. lia.
Qed.

Lemma Adaptive_feed_filling (values : list pyfloat) (p : Z) (n : nat)
    (sensitivity scale minDev : pyfloat) (window : list pyfloat) (index : nat) :
  (length window + length values <= n)%nat ->
  feed AdaptiveThresholdDetector.handleRecord
    (AdaptiveThresholdDetector.mk p n sensitivity scale minDev window index)
    values
  = Ok (repeat (Fin 0) (length values),
        AdaptiveThresholdDetector.mk p n sensitivity scale minDev
          (window ++ values) (index + length values)).
Proof.
  revert window index.
  induction values as [| v values IH]; intros window index Hlen.
  - simpl. now rewrite app_nil_r, Nat.add_0_r.
  - simpl in Hlen. cbn [feed].
    rewrite Adaptive_call_filling by lia. cbn [bind].
    rewrite IH by (rewrite length_app; simpl; lia). cbn [bind].
    rewrite <- app_assoc. simpl. do 3 f_equal. lia.
Qed.

(** ** Probation (C3) *)

(** Two records 1e200 and 0 fill a window of size 2; the next call squares
    the deviation 5e199 of the first from the mean and overflows. *)
Lemma ZScore_overflow_run (p : Z) :
  feed ZScoreDetector.handleRecord
    (ZScoreDetector.init p 2 (Fin 3) (Fin 1) (Fin 1e-6))
    [Fin 1e200; Fin 0; Fin 0]
  = Raise OverflowError.
Proof.
  unfold ZScoreDetector.init.
  change [Fin 1e200; Fin 0; Fin 0] with ([Fin 1e200; Fin 0] ++ [Fin 0]).
  rewrite feed_app, ZScore_feed_filling by (simpl; lia).
  cbn [bind app feed length Nat.add]. rewrite ZScore_call.
  cbn [length Nat.leb]. unfold ZScoreDetector.statistics, Float.sum, Float.of_nat.
  cbn [fold_left Float.add length]. rewrite div_finite by (simpl; lra).
  cbn [bind traverse Float.sub Float.neg Float.add Float.pow2].
  match goal with
  | |- context [Rltb DBL_MAX ?e] =>
      assert (E : Rltb DBL_MAX e = true)
        by (apply Rltb_true; unfold DBL_MAX, DBL_MAX_int; simpl; lra);
      rewrite E
  end.
  reflexivity.
Qed.

(** C3 fails as stated, in two ways.  With the floor [minStd] configured as
    0 and [windowSize] 1, the second of two equal values meets a zero standard
    deviation and the call raises ZeroDivisionError.  With the default floor
    and [windowSize] 2, the values 1e200, 0, 0 make the third call raise
    OverflowError.  Both calls have an index below the probationary period 5
    and return nothing. *)
Lemma probation_call_raises :
  feed ZScoreDetector.handleRecord
    (ZScoreDetector.init 5 1 (Fin 3) (Fin 1) (Fin 0)) [Fin 1; Fin 1]
  = Raise ZeroDivisionError
  /\
  feed ZScoreDetector.handleRecord
    (ZScoreDetector.init 5 2 (Fin 3) (Fin 1) (Fin 1e-6))
    [Fin 1e200; Fin 0; Fin 0]
  = Raise OverflowError.
Proof.
  split; [| apply ZScore_overflow_run].
  unfold ZScoreDetector.init. cbn [feed].
  rewrite ZScore_call_filling by (simpl; lia). cbn [bind app].
  change [Fin 1] with (repeat (Fin 1) 1).
  rewrite ZScore_call_zero_floor by lia. reflexivity.
Qed.

(** C3, amended: with a sound configuration (window detectors:
    [windowSize >= 1] and a floor [minStd] or [minDev] above zero; EWMA:
    [0 < alpha <= 1] and [minStd] above zero), any probationary period [p] and
    any input values (for ZScoreDetector: values that are NaN, infinite or of
    magnitude at most 1e150), every call returns, and each of the first [p]
    calls returns exactly 0.0. *)
Theorem probation_scores_zero :
  (forall p windowSize threshold scale minStd values,
     (1 <= windowSize)%nat -> positive minStd -> Forall tame values ->
     exists scores self',
       feed ZScoreDetector.handleRecord
         (ZScoreDetector.init p windowSize threshold scale minStd) values
       = Ok (scores, self') /\
       forall i, (i < length values)%nat -> (Z.of_nat i < p)%Z ->
         nth_error scores i = Some (Fin 0)) /\
  (forall p alpha threshold scale minStd values,
     0 < alpha <= 1 -> positive minStd ->
     exists scores self',
       feed EwmaDetector.handleRecord
         (EwmaDetector.init p (Fin alpha) threshold scale minStd) values
       = Ok (scores, self') /\
       forall i, (i < length values)%nat -> (Z.of_nat i < p)%Z ->
         nth_error scores i = Some (Fin 0)) /\
  (forall p windowSize sensitivity scale minDev values,
     (1 <= windowSize)%nat -> positive minDev ->
     exists scores self',
       feed AdaptiveThresholdDetector.handleRecord
         (AdaptiveThresholdDetector.init p windowSize sensitivity scale minDev)
         values
       = Ok (scores, self') /\
       forall i, (i < length values)%nat -> (Z.of_nat i < p)%Z ->
         nth_error scores i = Some (Fin 0)).
Proof.
  repeat split.
  - intros p windowSize threshold scale minStd values Hsize Hpos Htame.
    destruct (feed_returns _ _ (ZScore_sound p) tame
                ZScoreDetector._recordIndex p
                (ZScoreFacts.zscore_step_sound p) values
                (ZScoreDetector.init p windowSize threshold scale minStd))
      as (scores & self' & Hfeed & _ & _ & Hzero).
    { repeat split; simpl; trivial. }
    { exact Htame. }
    exists scores, self'. split; [exact Hfeed |]. exact Hzero.
  - intros p alpha threshold scale minStd values Halpha Hpos.
    destruct (feed_returns _ _ (Ewma_sound p) (fun _ => True)
                EwmaDetector._recordIndex p
                (fun self value H _ => EwmaFacts.ewma_step_sound p self value H)
                values
                (EwmaDetector.init p (Fin alpha) threshold scale minStd))
      as (scores & self' & Hfeed & _ & _ & Hzero).
    { repeat split; simpl; trivial; try lra. now exists alpha. }
    { apply Forall_forall. trivial. }
    exists scores, self'. split; [exact Hfeed |]. exact Hzero.
  - intros p windowSize sensitivity scale minDev values Hsize Hpos.
    destruct (feed_returns _ _ (Adaptive_sound p) (fun _ => True)
                AdaptiveThresholdDetector._recordIndex p
                (fun self value H _ =>
                   AdaptiveFacts.adaptive_step_sound p self value H)
                values
                (AdaptiveThresholdDetector.init p windowSize sensitivity scale
                   minDev))
      as (scores & self' & Hfeed & _ & _ & Hzero).
    { now repeat split. }
    { apply Forall_forall. trivial. }
    exists scores, self'. split; [exact Hfeed |]. exact Hzero.
Qed.

Lemma probation_scores_zero_witness :
  (exists scores self',
     feed ZScoreDetector.handleRecord
       (ZScoreDetector.init 5 3 (Fin 2) (Fin 1) (Fin 1e-6)) [Fin 1; Fin 7]
     = Ok (scores, self') /\
     forall i, (i < 2)%nat -> (Z.of_nat i < 5)%Z ->
       nth_error scores i = Some (Fin 0)) /\
  (exists scores self',
     feed EwmaDetector.handleRecord
       (EwmaDetector.init 5 (Fin 0.2) (Fin 3) (Fin 1) (Fin 1e-6)) [Fin 1; Fin 7]
     = Ok (scores, self') /\
     forall i, (i < 2)%nat -> (Z.of_nat i < 5)%Z ->
       nth_error scores i = Some (Fin 0)) /\
  (exists scores self',
     feed AdaptiveThresholdDetector.handleRecord
       (AdaptiveThresholdDetector.init 5 3 (Fin 1.5) (Fin 0.5) (Fin 1e-6))
       [Fin 1; Fin 7]
     = Ok (scores, self') /\
     forall i, (i < 2)%nat -> (Z.of_nat i < 5)%Z ->
       nth_error scores i = Some (Fin 0)).
Proof.
  assert (Hfloor : positive (Fin 1e-6)) by (apply Rltb_true; lra).
  split; [| split].
  - apply (proj1 probation_scores_zero 5%Z 3%nat (Fin 2) (Fin 1) (Fin 1e-6)
             [Fin 1; Fin 7]); [lia | exact Hfloor |].
    repeat constructor; simpl; lra.
  - apply (proj1 (proj2 probation_scores_zero) 5%Z 0.2 (Fin 3) (Fin 1)
             (Fin 1e-6) [Fin 1; Fin 7]); [lra | exact Hfloor].
  - apply (proj2 (proj2 probation_scores_zero) 5%Z 3%nat (Fin 1.5) (Fin 0.5)
             (Fin 1e-6) [Fin 1; Fin 7]); [lia | exact Hfloor].
Defined.

(** ** Totality (C9) *)

(** C9 fails as stated, in two ways.  With [alpha = 0.2] and the floor
    [minStd] configured as 0, the second of two equal values divides by a zero
    standard deviation: ZeroDivisionError.  With [windowSize = 2] and the
    default floor, the finite values 1e200, 0, 0 make ZScoreDetector square a
    deviation of 5e199: OverflowError. *)
Lemma handleRecord_raises :
  feed EwmaDetector.handleRecord
    (EwmaDetector.init 0 (Fin 0.2) (Fin 3) (Fin 1) (Fin 0)) [Fin 1; Fin 1]
  = Raise ZeroDivisionError
  /\
  feed ZScoreDetector.handleRecord
    (ZScoreDetector.init 0 2 (Fin 3) (Fin 1) (Fin 1e-6))
    [Fin 1e200; Fin 0; Fin 0]
  = Raise OverflowError.
Proof.
  split; [| apply ZScore_overflow_run].
  unfold EwmaDetector.init. cbn [feed].
  rewrite Ewma_call_first. cbn [bind].
  unfold EwmaDetector.handleRecord. simpl.
  unfold EwmaDetector.scoreAgainst.
  rewrite sqrt_zero. cbn [bind]. rewrite floored_zero_zero.
  now rewrite div_by_zero.
Qed.

(** C9, amended: under [windowSize >= 1] (window detectors) and
    [0 < alpha <= 1] (EWMA), and with a floor [minStd] or [minDev] above zero,
    [handleRecord] returns a score in every state reached from a fresh
    detector, for every input value, NaN and the infinities included; for
    ZScoreDetector the finite input values are of magnitude at most 1e150.
    The EWMA variance estimate is never below zero. *)
Theorem handleRecord_total :
  (forall p windowSize threshold scale minStd values,
     (1 <= windowSize)%nat -> positive minStd -> Forall tame values ->
     exists scores self',
       feed ZScoreDetector.handleRecord
         (ZScoreDetector.init p windowSize threshold scale minStd) values
       = Ok (scores, self') /\ length scores = length values) /\
  (forall p alpha threshold scale minStd values,
     0 < alpha <= 1 -> positive minStd ->
     exists scores self',
       feed EwmaDetector.handleRecord
         (EwmaDetector.init p (Fin alpha) threshold scale minStd) values
       = Ok (scores, self') /\ length scores = length values /\
       nonneg (EwmaDetector.variance self')) /\
  (forall p windowSize sensitivity scale minDev values,
     (1 <= windowSize)%nat -> positive minDev ->
     exists scores self',
       feed AdaptiveThresholdDetector.handleRecord
         (AdaptiveThresholdDetector.init p windowSize sensitivity scale minDev)
         values
       = Ok (scores, self') /\ length scores = length values).
Proof.
  repeat split.
  - intros p windowSize threshold scale minStd values Hsize Hpos Htame.
    destruct (feed_returns _ _ (ZScore_sound p) tame
                ZScoreDetector._recordIndex p
                (ZScoreFacts.zscore_step_sound p) values
                (ZScoreDetector.init p windowSize threshold scale minStd))
      as (scores & self' & Hfeed & _ & Hlen & _).
    { repeat split; simpl; trivial. }
    { exact Htame. }
    now exists scores, self'.
  - intros p alpha threshold scale minStd values Halpha Hpos.
    destruct (feed_returns _ _ (Ewma_sound p) (fun _ => True)
                EwmaDetector._recordIndex p
                (fun self value H _ => EwmaFacts.ewma_step_sound p self value H)
                values
                (EwmaDetector.init p (Fin alpha) threshold scale minStd))
      as (scores & self' & Hfeed & Hsound & Hlen & _).
    { repeat split; simpl; trivial; try lra. now exists alpha. }
    { apply Forall_forall. trivial. }
    exists scores, self'. repeat split; trivial. apply Hsound.
  - intros p windowSize sensitivity scale minDev values Hsize Hpos.
    destruct (feed_returns _ _ (Adaptive_sound p) (fun _ => True)
                AdaptiveThresholdDetector._recordIndex p
                (fun self value H _ =>
                   AdaptiveFacts.adaptive_step_sound p self value H)
                values
                (AdaptiveThresholdDetector.init p windowSize sensitivity scale
                   minDev))
      as (scores & self' & Hfeed & _ & Hlen & _).
    { now repeat split. }
    { apply Forall_forall. trivial. }
    now exists scores, self'.
Qed.

Lemma handleRecord_total_witness :
  (exists scores self',
     feed ZScoreDetector.handleRecord
       (ZScoreDetector.init 0 1 (Fin 3) (Fin 1) (Fin 1e-6))
       [Fin 1; NaN; PInf; NInf; Fin 2]
     = Ok (scores, self') /\ length scores = 5%nat) /\
  (exists scores self',
     feed EwmaDetector.handleRecord
       (EwmaDetector.init 0 (Fin 0.2) (Fin 3) (Fin 1) (Fin 1e-6))
       [Fin 1; NaN; PInf; NInf; Fin 2]
     = Ok (scores, self') /\ length scores = 5%nat /\
     nonneg (EwmaDetector.variance self')) /\
  (exists scores self',
     feed AdaptiveThresholdDetector.handleRecord
       (AdaptiveThresholdDetector.init 0 1 (Fin 1.5) (Fin 0.5) (Fin 1e-6))
       [Fin 1; NaN; PInf; NInf; Fin 2]
     = Ok (scores, self') /\ length scores = 5%nat).
Proof.
  assert (Hfloor : positive (Fin 1e-6)) by (apply Rltb_true; lra).
  split; [| split].
  - apply (proj1 handleRecord_total 0%Z 1%nat (Fin 3) (Fin 1) (Fin 1e-6)
             [Fin 1; NaN; PInf; NInf; Fin 2]); [lia | exact Hfloor |].
    repeat constructor; simpl; lra.
  - apply (proj1 (proj2 handleRecord_total) 0%Z 0.2 (Fin 3) (Fin 1)
             (Fin 1e-6) [Fin 1; NaN; PInf; NInf; Fin 2]); [lra | exact Hfloor].
  - apply (proj2 (proj2 handleRecord_total) 0%Z 1%nat (Fin 1.5) (Fin 0.5)
             (Fin 1e-6) [Fin 1; NaN; PInf; NInf; Fin 2]); [lia | exact Hfloor].
Defined.

(** ** Before the window fills (C7) *)

(** C7: for ZScoreDetector and AdaptiveThresholdDetector, any configuration
    and any probationary period, every call made while fewer than
    [windowSize] values have been pushed returns exactly 0.0: a fresh
    detector fed at most [windowSize] values returns only zeros, and the
    values are in its window. *)
Theorem unfilled_window_scores_zero (p : Z) (windowSize : nat)
    (center scale floor : pyfloat) (values : list pyfloat) :
  (length values <= windowSize)%nat ->
  feed ZScoreDetector.handleRecord
    (ZScoreDetector.init p windowSize center scale floor) values
  = Ok (repeat (Fin 0) (length values),
        ZScoreDetector.mk p windowSize center scale floor values
          (length values))
  /\
  feed AdaptiveThresholdDetector.handleRecord
    (AdaptiveThresholdDetector.init p windowSize center scale floor) values
  = Ok (repeat (Fin 0) (length values),
        AdaptiveThresholdDetector.mk p windowSize center scale floor values
          (length values)).
Proof.
  intros Hlen. split.
  - unfold ZScoreDetector.init. now rewrite ZScore_feed_filling.
  - unfold AdaptiveThresholdDetector.init. now rewrite Adaptive_feed_filling.
Qed.

Lemma unfilled_window_scores_zero_witness :
  feed ZScoreDetector.handleRecord
    (ZScoreDetector.init 0 3 (Fin 3) (Fin 1) (Fin 1e-6)) [Fin 5; PInf; Fin 900]
  = Ok ([Fin 0; Fin 0; Fin 0],
        ZScoreDetector.mk 0 3 (Fin 3) (Fin 1) (Fin 1e-6) [Fin 5; PInf; Fin 900] 3)
  /\
  feed AdaptiveThresholdDetector.handleRecord
    (AdaptiveThresholdDetector.init 0 3 (Fin 3) (Fin 1) (Fin 1e-6))
    [Fin 5; PInf; Fin 900]
  = Ok ([Fin 0; Fin 0; Fin 0],
        AdaptiveThresholdDetector.mk 0 3 (Fin 3) (Fin 1) (Fin 1e-6)
          [Fin 5; PInf; Fin 900] 3).
Proof.
  apply (unfilled_window_scores_zero 0 3 (Fin 3) (Fin 1) (Fin 1e-6)
           [Fin 5; PInf; Fin 900]).
  simpl. lia.
Defined.

(** ** Probation leaves the state alone (C10) *)

Lemma rmap_cons_score {S T : Type} (g : S -> T) (score : pyfloat)
    (m : result (list pyfloat * S)) :
  rmap (fun r => g (snd r)) (let* (scores, self) := m in Ok (score :: scores, self))
  = rmap (fun r => g (snd r)) m.
Proof. destruct m as [[scores self] | e]; reflexivity. Qed.

Lemma ZScore_probation_frame (values : list pyfloat) (p1 p2 : Z) (n : nat)
    (threshold scale minStd : pyfloat) (window : list pyfloat) (index : nat) :
  rmap (fun r => ZScore_state (snd r))
    (feed ZScoreDetector.handleRecord
       (ZScoreDetector.mk p1 n threshold scale minStd window index) values)
  = rmap (fun r => ZScore_state (snd r))
      (feed ZScoreDetector.handleRecord
         (ZScoreDetector.mk p2 n threshold scale minStd window index) values).
Proof.
  revert window index.
  induction values as [| v values IH]; intros window index; [reflexivity |].
  cbn [feed]. rewrite !ZScore_call.
  destruct (if (n <=? length window)%nat
            then let* stats := ZScoreDetector.statistics minStd window in
                 ZScoreDetector.scoreAgainst threshold scale stats v
            else Ok (Fin 0)) as [score | e]; [| reflexivity].
  cbn [bind]. rewrite !rmap_cons_score. apply IH.
Qed.

Lemma Adaptive_probation_frame (values : list pyfloat) (p1 p2 : Z) (n : nat)
    (sensitivity scale minDev : pyfloat) (window : list pyfloat) (index : nat) :
  rmap (fun r => Adaptive_state (snd r))
    (feed AdaptiveThresholdDetector.handleRecord
       (AdaptiveThresholdDetector.mk p1 n sensitivity scale minDev window index)
       values)
  = rmap (fun r => Adaptive_state (snd r))
      (feed AdaptiveThresholdDetector.handleRecord
         (AdaptiveThresholdDetector.mk p2 n sensitivity scale minDev window
            index) values).
Proof.
  revert window index.
  induction values as [| v values IH]; intros window index; [reflexivity |].
  cbn [feed]. rewrite !Adaptive_call.
  destruct (if (n <=? length window)%nat
            then let* stats :=
                   AdaptiveThresholdDetector.statistics minDev window in
                 AdaptiveThresholdDetector.scoreAgainst sensitivity scale stats v
            else Ok (Fin 0)) as [score | e]; [| reflexivity].
  cbn [bind]. rewrite !rmap_cons_score. apply IH.
Qed.

Lemma Ewma_probation_frame (values : list pyfloat) (p1 p2 : Z)
    (alpha threshold scale minStd : pyfloat) (ewma : option pyfloat)
    (variance : pyfloat) (index : nat) :
  rmap (fun r => Ewma_state (snd r))
    (feed EwmaDetector.handleRecord
       (EwmaDetector.mk p1 alpha threshold scale minStd ewma variance index)
       values)
  = rmap (fun r => Ewma_state (snd r))
      (feed EwmaDetector.handleRecord
         (EwmaDetector.mk p2 alpha threshold scale minStd ewma variance index)
         values).
Proof.
  revert ewma variance index.
  induction values as [| v values IH]; intros ewma variance index;
    [reflexivity |].
  cbn [feed]. rewrite !Ewma_call.
  destruct (match ewma with
            | Some e => EwmaDetector.scoreAgainst threshold scale minStd e
                          variance v
            | None => Ok (Fin 0)
            end) as [score | e]; [| reflexivity].
  cbn [bind]. rewrite !rmap_cons_score. apply IH.
Qed.

(** C10: for every detector, every state and every input sequence, two
    probationary periods lead to the same window (or ewma and variance) and
    the same record counter after every call, and to the same exception if one
    is raised: the probation check touches only the returned score. *)
Theorem probation_changes_only_score (p1 p2 : Z) (values : list pyfloat) :
  (forall n threshold scale minStd window index,
     rmap (fun r => ZScore_state (snd r))
       (feed ZScoreDetector.handleRecord
          (ZScoreDetector.mk p1 n threshold scale minStd window index) values)
     = rmap (fun r => ZScore_state (snd r))
         (feed ZScoreDetector.handleRecord
            (ZScoreDetector.mk p2 n threshold scale minStd window index)
            values)) /\
  (forall alpha threshold scale minStd ewma variance index,
     rmap (fun r => Ewma_state (snd r))
       (feed EwmaDetector.handleRecord
          (EwmaDetector.mk p1 alpha threshold scale minStd ewma variance index)
          values)
     = rmap (fun r => Ewma_state (snd r))
         (feed EwmaDetector.handleRecord
            (EwmaDetector.mk p2 alpha threshold scale minStd ewma variance
               index) values)) /\
  (forall n sensitivity scale minDev window index,
     rmap (fun r => Adaptive_state (snd r))
       (feed AdaptiveThresholdDetector.handleRecord
          (AdaptiveThresholdDetector.mk p1 n sensitivity scale minDev window
             index) values)
     = rmap (fun r => Adaptive_state (snd r))
         (feed AdaptiveThresholdDetector.handleRecord
            (AdaptiveThresholdDetector.mk p2 n sensitivity scale minDev window
               index) values)).
Proof.
  repeat split; intros.
  - apply ZScore_probation_frame.
  - apply Ewma_probation_frame.
  - apply Adaptive_probation_frame.
Qed.

(** ** Causality (C4) *)

Lemma skipn_succ_tl {A : Type} (k : nat) (l : list A) :
  skipn (S k) l = tl (skipn k l).
Proof.
  revert l. induction k as [| k IH]; intros [| x l]; try reflexivity.
  change (skipn (S (S k)) (x :: l)) with (skipn (S k) l).
  change (skipn (S k) (x :: l)) with (skipn k l). apply IH.
Qed.

(** Appending to the deque that holds the last [n] values of a history gives
    the last [n] values of the longer history. *)
Lemma deque_append_recent (n : nat) (history : list pyfloat) (value : pyfloat) :
  deque_append n (recent n history) value = recent n (history ++ [value]).
Proof.
  unfold deque_append, recent.
  rewrite !length_app, length_skipn. cbn [length].
  destruct (Nat.le_gt_cases n (length history)) as [Hle | Hgt].
  - assert (E : (n <? length history - (length history - n) + 1)%nat = true)
      by (apply Nat.ltb_lt; lia).
    rewrite E.
    replace (length history + 1 - n)%nat with (S (length history - n)) by lia.
    rewrite skipn_succ_tl, skipn_app.
    replace (length history - n - length history)%nat with 0%nat by lia.
    reflexivity.
  - assert (E : (n <? length history - (length history - n) + 1)%nat = false)
      by (apply Nat.ltb_ge; lia).
    rewrite E.
    replace (length history - n)%nat with 0%nat by lia.
    replace (length history + 1 - n)%nat with 0%nat by lia.
    reflexivity.
Qed.

Lemma ZScore_scoreFromHistory_eq (p : Z) (n : nat)
    (threshold scale minStd : pyfloat) (history : list pyfloat)
    (value : pyfloat) :
  ZScore_scoreFromHistory p n threshold scale minStd history value
  = let* score :=
      if (n <=? length (recent n history))%nat then
        let* stats := ZScoreDetector.statistics minStd (recent n history) in
        ZScoreDetector.scoreAgainst threshold scale stats value
      else Ok (Fin 0) in
    Ok (probation (length history) p score).
Proof. reflexivity. Qed.

Lemma Adaptive_scoreFromHistory_eq (p : Z) (n : nat)
    (sensitivity scale minDev : pyfloat) (history : list pyfloat)
    (value : pyfloat) :
  Adaptive_scoreFromHistory p n sensitivity scale minDev history value
  = let* score :=
      if (n <=? length (recent n history))%nat then
        let* stats :=
          AdaptiveThresholdDetector.statistics minDev (recent n history) in
        AdaptiveThresholdDetector.scoreAgainst sensitivity scale stats value
      else Ok (Fin 0) in
    Ok (probation (length history) p score).
Proof. reflexivity. Qed.

Lemma Ewma_scoreFromHistory_eq (p : Z) (alpha threshold scale minStd : pyfloat)
    (history : list pyfloat) (value : pyfloat) :
  Ewma_scoreFromHistory p alpha threshold scale minStd history value
  = let* score :=
      match fst (Ewma_estimates alpha history) with
      | None => Ok (Fin 0)
      | Some e =>
          EwmaDetector.scoreAgainst threshold scale minStd e
            (snd (Ewma_estimates alpha history)) value
      end in
    Ok (probation (length history) p score).
Proof. reflexivity. Qed.

Lemma ZScore_feed_history (values history : list pyfloat) (p : Z) (n : nat)
    (threshold scale minStd : pyfloat) :
  feed ZScoreDetector.handleRecord
    (ZScoreDetector.mk p n threshold scale minStd (recent n history)
       (length history)) values
  = let* scores :=
      scoresFrom (ZScore_scoreFromHistory p n threshold scale minStd)
        history values in
    Ok (scores,
        ZScoreDetector.mk p n threshold scale minStd
          (recent n (history ++ values)) (length (history ++ values))).
Proof.
  revert history.
  induction values as [| v values IH]; intros history.
  - simpl. now rewrite app_nil_r.
  - cbn [feed scoresFrom].
    rewrite ZScore_call, ZScore_scoreFromHistory_eq.
    destruct (if (n <=? length (recent n history))%nat
              then let* stats :=
                     ZScoreDetector.statistics minStd (recent n history) in
                   ZScoreDetector.scoreAgainst threshold scale stats v
              else Ok (Fin 0)) as [score | e]; [| reflexivity].
    cbn [bind]. rewrite deque_append_recent.
    replace (S (length history)) with (length (history ++ [v]))
      by (rewrite length_app; simpl; lia).
    rewrite IH. rewrite <- app_assoc. simpl.
    destruct (scoresFrom (ZScore_scoreFromHistory p n threshold scale minStd)
                (history ++ [v]) values) as [scores | e]; reflexivity.
Qed.

Lemma Adaptive_feed_history (values history : list pyfloat) (p : Z) (n : nat)
    (sensitivity scale minDev : pyfloat) :
  feed AdaptiveThresholdDetector.handleRecord
    (AdaptiveThresholdDetector.mk p n sensitivity scale minDev
       (recent n history) (length history)) values
  = let* scores :=
      scoresFrom (Adaptive_scoreFromHistory p n sensitivity scale minDev)
        history values in
    Ok (scores,
        AdaptiveThresholdDetector.mk p n sensitivity scale minDev
          (recent n (history ++ values)) (length (history ++ values))).
Proof.
  revert history.
  induction values as [| v values IH]; intros history.
  - simpl. now rewrite app_nil_r.
  - cbn [feed scoresFrom].
    rewrite Adaptive_call, Adaptive_scoreFromHistory_eq.
    destruct (if (n <=? length (recent n history))%nat
              then let* stats :=
                     AdaptiveThresholdDetector.statistics minDev
                       (recent n history) in
                   AdaptiveThresholdDetector.scoreAgainst sensitivity scale
                     stats v
              else Ok (Fin 0)) as [score | e]; [| reflexivity].
    cbn [bind]. rewrite deque_append_recent.
    replace (S (length history)) with (length (history ++ [v]))
      by (rewrite length_app; simpl; lia).
    rewrite IH. rewrite <- app_assoc. simpl.
    destruct (scoresFrom
                (Adaptive_scoreFromHistory p n sensitivity scale minDev)
                (history ++ [v]) values) as [scores | e]; reflexivity.
Qed.

Lemma Ewma_estimates_snoc (alpha : pyfloat) (history : list pyfloat)
    (value : pyfloat) :
  Ewma_estimates alpha (history ++ [value])
  = EwmaDetector.update alpha (Ewma_estimates alpha history) value.
Proof. unfold Ewma_estimates. now rewrite fold_left_app. Qed.

Lemma Ewma_feed_history (values history : list pyfloat) (p : Z)
    (alpha threshold scale minStd : pyfloat) :
  feed EwmaDetector.handleRecord
    (EwmaDetector.mk p alpha threshold scale minStd
       (fst (Ewma_estimates alpha history))
       (snd (Ewma_estimates alpha history)) (length history)) values
  = let* scores :=
      scoresFrom (Ewma_scoreFromHistory p alpha threshold scale minStd)
        history values in
    Ok (scores,
        EwmaDetector.mk p alpha threshold scale minStd
          (fst (Ewma_estimates alpha (history ++ values)))
          (snd (Ewma_estimates alpha (history ++ values)))
          (length (history ++ values))).
Proof.
  revert history.
  induction values as [| v values IH]; intros history.
  - simpl. now rewrite app_nil_r.
  - cbn [feed scoresFrom].
    rewrite Ewma_call, Ewma_scoreFromHistory_eq.
    destruct (match fst (Ewma_estimates alpha history) with
              | Some e =>
                  EwmaDetector.scoreAgainst threshold scale minStd e
                    (snd (Ewma_estimates alpha history)) v
              | None => Ok (Fin 0)
              end) as [score | e]; [| reflexivity].
    cbn [bind]. rewrite <- surjective_pairing, <- Ewma_estimates_snoc.
    replace (S (length history)) with (length (history ++ [v]))
      by (rewrite length_app; simpl; lia).
    rewrite IH. rewrite <- app_assoc. simpl.
    destruct (scoresFrom (Ewma_scoreFromHistory p alpha threshold scale minStd)
                (history ++ [v]) values) as [scores | e]; reflexivity.
Qed.

(** C4: for every detector, the run over any input equals scoring each
    record from the statistics of the records strictly before it (mean and
    floored spread of the last [windowSize] earlier values; ewma and variance
    folded from the earlier values) together with the record's own value, and
    after the run the window holds the last [windowSize] values (the
    estimates are the fold over all values): a value enters the statistics
    only after its own score. *)
Theorem scores_use_earlier_records (p : Z) (values : list pyfloat) :
  (forall n threshold scale minStd,
     feed ZScoreDetector.handleRecord
       (ZScoreDetector.init p n threshold scale minStd) values
     = let* scores :=
         scoresFrom (ZScore_scoreFromHistory p n threshold scale minStd)
           [] values in
       Ok (scores,
           ZScoreDetector.mk p n threshold scale minStd (recent n values)
             (length values))) /\
  (forall alpha threshold scale minStd,
     feed EwmaDetector.handleRecord
       (EwmaDetector.init p alpha threshold scale minStd) values
     = let* scores :=
         scoresFrom (Ewma_scoreFromHistory p alpha threshold scale minStd)
           [] values in
       Ok (scores,
           EwmaDetector.mk p alpha threshold scale minStd
             (fst (Ewma_estimates alpha values))
             (snd (Ewma_estimates alpha values)) (length values))) /\
  (forall n sensitivity scale minDev,
     feed AdaptiveThresholdDetector.handleRecord
       (AdaptiveThresholdDetector.init p n sensitivity scale minDev) values
     = let* scores :=
         scoresFrom (Adaptive_scoreFromHistory p n sensitivity scale minDev)
           [] values in
       Ok (scores,
           AdaptiveThresholdDetector.mk p n sensitivity scale minDev
             (recent n values) (length values))).
Proof.
  repeat split; intros.
  - apply (ZScore_feed_history values [] p n threshold scale minStd).
  - apply (Ewma_feed_history values [] p alpha threshold scale minStd).
  - apply (Adaptive_feed_history values [] p n sensitivity scale minDev).
Qed.

(** ** The end-to-end example (C1) *)

Lemma squash_inside (x y : R) :
  -60 < x < 60 -> - x = y -> squash x = 1 / (1 + exp y).
Proof. intros H <-. unfold squash. rdecide. Qed.

Lemma squash_high (x : R) : 60 <= x -> squash x = 1.
Proof. intros H. unfold squash. rdecide. Qed.

Lemma logistic_value_bounds (y : R) : 0 < y -> 0 < 1 / (1 + exp y) < 1 / 2.
Proof.
  intros Hy.
  assert (H1 : 1 < exp y).
  { rewrite <- exp_0. apply exp_increasing. exact Hy. }
  assert (Hinv : 0 < / (1 + exp y)) by (apply Rinv_0_lt_compat; lra).
  assert (Hlt : / (1 + exp y) < / 2) by (apply Rinv_lt_contravar; lra).
  lra.
Qed.

(** The run of the example: three zeros while the window fills, then the
    logistic curve at [0 - 2] twice, then the upper clamp. *)
Lemma ZScore_example_run :
  feed ZScoreDetector.handleRecord
    (ZScoreDetector.init 0 3 (Fin 2) (Fin 1) (Fin 1e-6))
    [Fin 1; Fin 1; Fin 1; Fin 1; Fin 1; Fin 10]
  = Ok ([Fin 0; Fin 0; Fin 0;
         Fin (1 / (1 + exp 2)); Fin (1 / (1 + exp 2)); Fin 1],
        ZScoreDetector.mk 0 3 (Fin 2) (Fin 1) (Fin 1e-6)
          [Fin 1; Fin 1; Fin 10] 6).
Proof.
  assert (Hmid : squash ((Rabs (1 - 1) / 1e-6 - 2) / 1) = 1 / (1 + exp 2)).
  { replace (1 - 1) with 0 by lra. rewrite Rabs_R0.
    apply squash_inside; lra. }
  assert (Htop : squash ((Rabs (10 - 1) / 1e-6 - 2) / 1) = 1).
  { apply squash_high. rewrite Rabs_right by lra. lra. }
  change [Fin 1; Fin 1; Fin 1; Fin 1; Fin 1; Fin 10]
    with ([Fin 1; Fin 1; Fin 1] ++ [Fin 1; Fin 1; Fin 10]).
  rewrite feed_app. unfold ZScoreDetector.init.
  rewrite ZScore_feed_filling by (simpl; lia).
  cbn [bind app length Nat.add feed].
  change [Fin 1; Fin 1; Fin 1] with (repeat (Fin 1) 3).
  rewrite ZScore_call_constant by (try lia; lra).
  rewrite Hmid. cbn [bind].
  change (deque_append 3 (repeat (Fin 1) 3) (Fin 1)) with (repeat (Fin 1) 3).
  rewrite ZScore_call_constant by (try lia; lra).
  rewrite Hmid. cbn [bind].
  change (deque_append 3 (repeat (Fin 1) 3) (Fin 1)) with (repeat (Fin 1) 3).
  rewrite ZScore_call_constant by (try lia; lra).
  rewrite Htop. reflexivity.
Qed.

(** C1 fails as stated: the fourth score of the example is not 0.0, so the
    score sequence is not [0, 0, 0, 0, 0, 1]. *)
Lemma example_scores_not_zero :
  rmap fst
    (feed ZScoreDetector.handleRecord
       (ZScoreDetector.init 0 3 (Fin 2) (Fin 1) (Fin 1e-6))
       [Fin 1; Fin 1; Fin 1; Fin 1; Fin 1; Fin 10])
  <> Ok [Fin 0; Fin 0; Fin 0; Fin 0; Fin 0; Fin 1].
Proof.
  rewrite ZScore_example_run. simpl. intros H.
  injection H as H _.
  pose proof (logistic_value_bounds 2) as Hb. lra.
Qed.

(** C1, amended: with windowSize 3, threshold 2.0, scale 1.0, minStd 1e-6
    and probationaryPeriod 0, the values [1,1,1,1,1,10] score
    [0, 0, 0, s, s, 1.0] where [s] is the logistic curve at a zero z-score,
    1 / (1 + e^2), which lies strictly between 0 and 0.5. *)
Theorem example_scores :
  rmap fst
    (feed ZScoreDetector.handleRecord
       (ZScoreDetector.init 0 3 (Fin 2) (Fin 1) (Fin 1e-6))
       [Fin 1; Fin 1; Fin 1; Fin 1; Fin 1; Fin 10])
  = Ok [Fin 0; Fin 0; Fin 0;
        Fin (1 / (1 + exp 2)); Fin (1 / (1 + exp 2)); Fin 1]
  /\ 0 < 1 / (1 + exp 2) < 1 / 2.
Proof.
  split.
  - now rewrite ZScore_example_run.
  - apply logistic_value_bounds. lra.
Qed.

(** ** Constant input to the EWMA detector (C2) *)

(** Once the estimate equals the constant input and the variance is zero, a
    further equal value scores the transform of a zero ratio and leaves the
    estimates as they are. *)
Lemma Ewma_call_constant (p : Z) (a v : R) (threshold scale minStd : pyfloat)
    (index : nat) :
  positive minStd ->
  EwmaDetector.handleRecord
    (EwmaDetector.mk p (Fin a) threshold scale minStd (Some (Fin v)) (Fin 0)
       index) (Fin v)
  = let* score := _logisticScore (Some (Fin 0)) threshold (Some scale) in
    Ok (probation index p score,
        EwmaDetector.mk p (Fin a) threshold scale minStd (Some (Fin v)) (Fin 0)
          (S index)).
Proof.
  intros Hpos. rewrite Ewma_call.
  unfold EwmaDetector.scoreAgainst, EwmaDetector.update.
  rewrite sqrt_zero. cbn [bind fst snd Float.sub Float.neg Float.add Float.mul
                          Float.abs].
  assert (Hfloor : floored (Fin 0) minStd = minStd).
  { unfold floored. unfold positive in Hpos. now rewrite Hpos. }
  rewrite Hfloor.
  replace (v + - v) with 0 by lra. rewrite Rabs_R0.
  assert (Hratio : Float.div (Fin 0) minStd = Ok (Fin 0)).
  { destruct minStd as [m | | |]; simpl in Hpos; try discriminate.
    - apply Rltb_true in Hpos. rewrite div_finite by lra.
      do 2 f_equal. unfold Rdiv. lra.
    - reflexivity. }
  rewrite Hratio. cbn [bind].
  replace (v + a * 0) with v by lra.
  replace ((1 + - a) * (0 + a * 0 * 0)) with 0 by lra.
  reflexivity.
Qed.

Lemma Ewma_feed_constant (n : nat) (a v : R) (threshold scale minStd score : pyfloat)
    (index : nat) :
  positive minStd ->
  _logisticScore (Some (Fin 0)) threshold (Some scale) = Ok score ->
  feed EwmaDetector.handleRecord
    (EwmaDetector.mk 0 (Fin a) threshold scale minStd (Some (Fin v)) (Fin 0)
       index) (repeat (Fin v) n)
  = Ok (repeat score n,
        EwmaDetector.mk 0 (Fin a) threshold scale minStd (Some (Fin v)) (Fin 0)
          (index + n)).
Proof.
  intros Hpos Hscore. revert index.
  induction n as [| n IH]; intros index.
  - simpl. now rewrite Nat.add_0_r.
  - change (repeat (Fin v) (S n)) with (Fin v :: repeat (Fin v) n).
    cbn [feed]. rewrite Ewma_call_constant by assumption.
    rewrite Hscore. cbn [bind]. rewrite IH. cbn [bind].
    assert (Hp : probation index 0 score = score).
    { unfold probation.
      assert (E : (Z.of_nat index <? 0)%Z = false) by (apply Z.ltb_ge; lia).
      now rewrite E. }
    rewrite Hp. simpl. do 3 f_equal. lia.
Qed.

(** C2 fails as stated: with alpha 0.2, threshold 3.0, scale 1.0 and
    minStd 1e-6, the second of two equal values scores the logistic curve at
    [0 - 3], which is above zero. *)
Lemma constant_input_score_not_zero :
  rmap fst
    (feed EwmaDetector.handleRecord
       (EwmaDetector.init 0 (Fin 0.2) (Fin 3) (Fin 1) (Fin 1e-6))
       [Fin 5; Fin 5])
  = Ok [Fin 0; Fin (1 / (1 + exp 3))]
  /\ Fin (1 / (1 + exp 3)) <> Fin 0.
Proof.
  assert (Hscore : _logisticScore (Some (Fin 0)) (Fin 3) (Some (Fin 1))
                   = Ok (Fin (1 / (1 + exp 3)))).
  { rewrite logisticScore_finite with (s := 1).
    - do 2 f_equal. apply squash_inside; lra.
    - simpl. assert (E : Rleb 1 0 = false) by (apply Rleb_false; lra).
      now rewrite E.
    - lra. }
  split.
  - unfold EwmaDetector.init. cbn [feed]. rewrite Ewma_call_first.
    cbn [bind]. rewrite Ewma_call_constant by (apply Rltb_true; lra).
    rewrite Hscore. reflexivity.
  - intros H. injection H as H.
    pose proof (logistic_value_bounds 3) as Hb. lra.
Qed.

(** C2, amended: for EwmaDetector with [0 < alpha <= 1], a floor [minStd]
    above zero and probationaryPeriod 0, a constant finite input keeps the
    variance exactly 0.0 after every call; the first score is 0.0 and every
    later score is the transform of a zero ratio,
    [_logisticScore(0.0, threshold, scale)]. *)
Theorem constant_input_keeps_variance_zero (alpha v : R)
    (threshold scale minStd : pyfloat) (n : nat) :
  0 < alpha <= 1 -> positive minStd ->
  exists score,
    _logisticScore (Some (Fin 0)) threshold (Some scale) = Ok score /\
    feed EwmaDetector.handleRecord
      (EwmaDetector.init 0 (Fin alpha) threshold scale minStd)
      (repeat (Fin v) (S n))
    = Ok (Fin 0 :: repeat score n,
          EwmaDetector.mk 0 (Fin alpha) threshold scale minStd (Some (Fin v))
            (Fin 0) (S n)).
Proof.
  intros _ Hpos.
  destruct (logisticScore_total (Some (Fin 0)) threshold (Some scale))
    as [score Hscore].
  exists score. split; [exact Hscore |].
  change (repeat (Fin v) (S n)) with (Fin v :: repeat (Fin v) n).
  unfold EwmaDetector.init. cbn [feed]. rewrite Ewma_call_first. cbn [bind].
  rewrite Ewma_feed_constant with (score := score) by assumption.
  reflexivity.
Qed.

Lemma constant_input_keeps_variance_zero_witness :
  exists score,
    _logisticScore (Some (Fin 0)) (Fin 3) (Some (Fin 1)) = Ok score /\
    feed EwmaDetector.handleRecord
      (EwmaDetector.init 0 (Fin 0.2) (Fin 3) (Fin 1) (Fin 1e-6))
      [Fin 5; Fin 5; Fin 5]
    = Ok ([Fin 0; score; score],
          EwmaDetector.mk 0 (Fin 0.2) (Fin 3) (Fin 1) (Fin 1e-6) (Some (Fin 5))
            (Fin 0) 3).
Proof.
  apply (constant_input_keeps_variance_zero 0.2 5 (Fin 3) (Fin 1) (Fin 1e-6) 2).
  - lra.
  - apply Rltb_true. lra.
Defined.

(** * Further properties of the detectors *)

(** ** Scores lie in the unit interval *)

Lemma squash_range (x : R) : 0 <= squash x <= 1.
Proof.
  unfold squash.
  assert (Hx : 0 < exp (- x)) by apply exp_pos.
  assert (Hinv : 0 < / (1 + exp (- x))) by (apply Rinv_0_lt_compat; lra).
  assert (Hle : / (1 + exp (- x)) <= 1).
  { rewrite <- Rinv_1 at 2. apply Rinv_le_contravar; lra. }
  unfold Rdiv. rdecide.
Qed.

Lemma logisticScore_in_unit (metric : option pyfloat) (center : pyfloat)
    (scale : option pyfloat) :
  center <> NaN -> scale <> Some NaN ->
  Float.isfinite center = true \/ scale <> Some PInf ->
  exists score, _logisticScore metric center scale = Ok score /\ in_unit score.
Proof.
  intros Hc Hs Hinf.
  assert (Hzero : in_unit (Fin 0)) by (simpl; lra).
  destruct metric as [[m | | |] |];
    try (exists (Fin 0); split; [reflexivity | exact Hzero]).
  destruct (effectiveScale_cases scale) as [(s & Heff & Hpos) | [Heff | [_ Heff]]];
    [ | | contradiction].
  - destruct center as [c | | |]; [ | | | contradiction].
    + exists (Fin (squash ((m - c) / s))). split.
      * now apply logisticScore_finite.
      * simpl. apply squash_range.
    + exists (Fin 0). split; [| exact Hzero].
      now apply logisticScore_center_PInf with (s := s).
    + exists (Fin 1). split; [| simpl; lra].
      now apply logisticScore_center_NInf with (s := s).
  - assert (Hscale : scale = Some PInf).
    { destruct scale as [[r | | |] |]; simpl in Heff; try discriminate;
        try reflexivity.
      destruct (Rleb r 0); discriminate. }
    destruct center as [c | | |];
      try (destruct Hinf as [Hinf | Hinf]; [discriminate | contradiction]).
    exists (Fin (1 / 2)). split.
    + now apply logisticScore_infinite_scale.
    + simpl. lra.
Qed.

(** X1: for every metric, [None], NaN and the infinities included, every
    center other than NaN and every scale that is neither NaN nor plus
    infinity, [_logisticScore] returns a score between 0 and 1.  (With a
    scale of plus infinity the offset can be inf/inf and the score NaN.) *)
Theorem logisticScore_range (metric : option pyfloat) (center : pyfloat)
    (scale : option pyfloat) :
  center <> NaN -> scale <> Some NaN -> scale <> Some PInf ->
  exists score, _logisticScore metric center scale = Ok score /\ in_unit score.
Proof.
  intros Hc Hnan Hinf. apply logisticScore_in_unit; trivial. now right.
Qed.

Lemma logisticScore_range_witness :
  exists score,
    _logisticScore (Some (Fin 7)) (Fin 3) (Some (Fin 1)) = Ok score /\
    in_unit score.
Proof.
  apply (logisticScore_range (Some (Fin 7)) (Fin 3) (Some (Fin 1))).
  - discriminate.
  - discriminate.
  - discriminate.
Defined.

Section ScoreInvariant.

Variable S : Type.
Variable step : S -> pyfloat -> result (pyfloat * S).
Variable Inv : S -> Prop.
Variable Good : pyfloat -> Prop.
Variable Q : pyfloat -> Prop.

Hypothesis step_keeps :
  forall self value, Inv self -> Good value ->
    exists score self',
      step self value = Ok (score, self') /\ Inv self' /\ Q score.

(** A step that returns a [Q] score under the invariant makes every run over
    good values return [Q] scores only. *)
Lemma feed_scores (values : list pyfloat) (self : S) :
  Inv self -> Forall Good values ->
  exists scores self',
    feed step self values = Ok (scores, self') /\ Forall Q scores.
Proof.
  revert self. induction values as [| v values IH]; intros self Hinv Hgood.
  - exists [], self. split; [reflexivity | constructor].
  - inversion Hgood as [| v' values' Hv Hvalues]; subst.
    destruct (step_keeps self v Hinv Hv) as (score & self1 & Hstep & Hinv1 & Hq).
    destruct (IH self1 Hinv1 Hvalues) as (scores & self2 & Hfeed & Hall).
    exists (score :: scores), self2. simpl. rewrite Hstep. simpl.
    rewrite Hfeed. simpl. split; [reflexivity | now constructor].
Qed.

End ScoreInvariant.

Lemma probation_in_unit (index : nat) (p : Z) (score : pyfloat) :
  in_unit score -> in_unit (probation index p score).
Proof.
  intros H. unfold probation.
  destruct (Z.of_nat index <? p)%Z; [simpl; lra | exact H].
Qed.

Lemma offset_defined_options (center scale : pyfloat) :
  offset_defined center scale ->
  center <> NaN /\ Some scale <> Some NaN /\
  (Float.isfinite center = true \/ Some scale <> Some PInf).
Proof.
  intros (Hc & Hs & Hinf). repeat split; trivial.
  - intros H. injection H as H. contradiction.
  - right. intros H. injection H as H. contradiction.
Qed.

Lemma ZScore_step_in_unit (period : Z) (self : ZScoreDetector.t)
    (value : pyfloat) :
  ZScore_sound period self /\
  offset_defined (ZScoreDetector.threshold self) (ZScoreDetector.scale self) ->
  tame value ->
  exists score self',
    ZScoreDetector.handleRecord self value = Ok (score, self') /\
    (ZScore_sound period self' /\
     offset_defined (ZScoreDetector.threshold self')
       (ZScoreDetector.scale self')) /\
    in_unit score.
Proof.
  intros [(Hsize & Hpos & Htame & Hp) Hdef] Hvalue.
  destruct self as [p n threshold scale minStd window index]. simpl in *.
  destruct (offset_defined_options _ _ Hdef) as (Hc & Hs & Hinf).
  rewrite ZScore_call.
  assert (Hcore : exists score,
             (if (n <=? length window)%nat
              then let* stats := ZScoreDetector.statistics minStd window in
                   ZScoreDetector.scoreAgainst threshold scale stats value
              else Ok (Fin 0)) = Ok score /\ in_unit score).
  { destruct (n <=? length window)%nat eqn:Hfull.
    - apply Nat.leb_le in Hfull.
      destruct (ZScoreFacts.zscore_statistics_returns minStd window)
        as (mean & std & Hstats); [lia | assumption |].
      rewrite Hstats. cbn [bind]. unfold ZScoreDetector.scoreAgainst.
      destruct (div_total (Float.sub value mean) (floored std minStd))
        as [q Hq]; [now apply floored_nonzero |].
      rewrite Hq. cbn [bind]. now apply logisticScore_in_unit.
    - exists (Fin 0). split; [reflexivity | simpl; lra]. }
  destruct Hcore as (score & Hscore & Hunit). rewrite Hscore. cbn [bind].
  eexists; eexists. split; [reflexivity |]. simpl.
  split; [| now apply probation_in_unit].
  split; [| exact Hdef].
  repeat split; simpl; trivial. now apply ZScoreFacts.deque_append_tame.
Qed.

Lemma Adaptive_step_in_unit (period : Z) (self : AdaptiveThresholdDetector.t)
    (value : pyfloat) :
  Adaptive_sound period self /\
  offset_defined (AdaptiveThresholdDetector.sensitivity self)
    (AdaptiveThresholdDetector.scale self) ->
  True ->
  exists score self',
    AdaptiveThresholdDetector.handleRecord self value = Ok (score, self') /\
    (Adaptive_sound period self' /\
     offset_defined (AdaptiveThresholdDetector.sensitivity self')
       (AdaptiveThresholdDetector.scale self')) /\
    in_unit score.
Proof.
  intros [(Hsize & Hpos & Hp) Hdef] _.
  destruct self as [p n sensitivity scale minDev window index]. simpl in *.
  destruct (offset_defined_options _ _ Hdef) as (Hc & Hs & Hinf).
  rewrite Adaptive_call.
  assert (Hcore : exists score,
             (if (n <=? length window)%nat
              then let* stats :=
                     AdaptiveThresholdDetector.statistics minDev window in
                   AdaptiveThresholdDetector.scoreAgainst sensitivity scale
                     stats value
              else Ok (Fin 0)) = Ok score /\ in_unit score).
  { destruct (n <=? length window)%nat eqn:Hfull.
    - apply Nat.leb_le in Hfull.
      destruct (AdaptiveFacts.adaptive_statistics_returns minDev window)
        as (mean & maxDev & Hstats); [lia |].
      rewrite Hstats. cbn [bind].
      unfold AdaptiveThresholdDetector.scoreAgainst.
      destruct (div_total (Float.abs (Float.sub value mean))
                  (floored maxDev minDev))
        as [q Hq]; [now apply floored_nonzero |].
      rewrite Hq. cbn [bind]. now apply logisticScore_in_unit.
    - exists (Fin 0). split; [reflexivity | simpl; lra]. }
  destruct Hcore as (score & Hscore & Hunit). rewrite Hscore. cbn [bind].
  eexists; eexists. split; [reflexivity |]. simpl.
  split; [| now apply probation_in_unit].
  split; [| exact Hdef]. now repeat split.
Qed.

Lemma Ewma_step_in_unit (period : Z) (self : EwmaDetector.t) (value : pyfloat) :
  Ewma_sound period self /\
  offset_defined (EwmaDetector.threshold self) (EwmaDetector.scale self) ->
  True ->
  exists score self',
    EwmaDetector.handleRecord self value = Ok (score, self') /\
    (Ewma_sound period self' /\
     offset_defined (EwmaDetector.threshold self') (EwmaDetector.scale self')) /\
    in_unit score.
Proof.
  intros [((a & Halpha & Ha) & Hpos & Hv & Hp) Hdef] _.
  destruct self as [p alpha threshold scale minStd ewma variance index].
  simpl in *. subst alpha.
  destruct (offset_defined_options _ _ Hdef) as (Hc & Hs & Hinf).
  rewrite Ewma_call.
  assert (Hcore : exists score,
             match ewma with
             | None => Ok (Fin 0)
             | Some e =>
                 EwmaDetector.scoreAgainst threshold scale minStd e variance
                   value
             end = Ok score /\ in_unit score).
  { destruct ewma as [e |]; [| exists (Fin 0); split; [reflexivity | simpl; lra]].
    unfold EwmaDetector.scoreAgainst.
    destruct (sqrt_nonneg variance Hv) as (std & Hstd & _).
    rewrite Hstd. cbn [bind].
    destruct (div_total (Float.abs (Float.sub value e)) (floored std minStd))
      as [ratio Hratio]; [now apply floored_nonzero |].
    rewrite Hratio. cbn [bind]. now apply logisticScore_in_unit. }
  destruct Hcore as (score & Hscore & Hunit). rewrite Hscore. cbn [bind].
  eexists; eexists. split; [reflexivity |]. simpl.
  split; [| now apply probation_in_unit].
  split; [| exact Hdef].
  repeat split; simpl; trivial; [now exists a |].
  apply (EwmaFacts.ewma_update_nonneg a ewma variance value Ha Hv).
Qed.

(** X2: with a sound configuration (as for totality), a center that is
    not NaN and a scale that is neither NaN nor plus infinity, every score a
    detector returns, in or out of probation, for any input including NaN
    and the infinities, lies between 0 and 1. *)
Theorem scores_in_unit_interval :
  (forall p windowSize threshold scale minStd values,
     (1 <= windowSize)%nat -> positive minStd ->
     offset_defined threshold scale -> Forall tame values ->
     exists scores self',
       feed ZScoreDetector.handleRecord
         (ZScoreDetector.init p windowSize threshold scale minStd) values
       = Ok (scores, self') /\ Forall in_unit scores) /\
  (forall p alpha threshold scale minStd values,
     0 < alpha <= 1 -> positive minStd -> offset_defined threshold scale ->
     exists scores self',
       feed EwmaDetector.handleRecord
         (EwmaDetector.init p (Fin alpha) threshold scale minStd) values
       = Ok (scores, self') /\ Forall in_unit scores) /\
  (forall p windowSize sensitivity scale minDev values,
     (1 <= windowSize)%nat -> positive minDev ->
     offset_defined sensitivity scale ->
     exists scores self',
       feed AdaptiveThresholdDetector.handleRecord
         (AdaptiveThresholdDetector.init p windowSize sensitivity scale minDev)
         values
       = Ok (scores, self') /\ Forall in_unit scores).
Proof.
  repeat split.
  - intros p windowSize threshold scale minStd values Hsize Hpos Hdef Htame.
    apply (feed_scores _ _ _ tame in_unit (ZScore_step_in_unit p));
      [| exact Htame].
    split; [| exact Hdef]. repeat split; simpl; trivial.
  - intros p alpha threshold scale minStd values Halpha Hpos Hdef.
    apply (feed_scores _ _ _ (fun _ => True) in_unit (Ewma_step_in_unit p));
      [| apply Forall_forall; trivial].
    split; [| exact Hdef].
    repeat split; simpl; trivial; try lra. now exists alpha.
  - intros p windowSize sensitivity scale minDev values Hsize Hpos Hdef.
    apply (feed_scores _ _ _ (fun _ => True) in_unit (Adaptive_step_in_unit p));
      [| apply Forall_forall; trivial].
    split; [| exact Hdef]. now repeat split.
Qed.

Lemma scores_in_unit_interval_witness :
  (exists scores self',
     feed ZScoreDetector.handleRecord
       (ZScoreDetector.init 0 1 (Fin 3) (Fin 1) (Fin 1e-6))
       [Fin 1; NaN; Fin 2]
     = Ok (scores, self') /\ Forall in_unit scores) /\
  (exists scores self',
     feed EwmaDetector.handleRecord
       (EwmaDetector.init 0 (Fin 0.2) (Fin 3) (Fin 1) (Fin 1e-6))
       [Fin 1; NaN; Fin 2]
     = Ok (scores, self') /\ Forall in_unit scores) /\
  (exists scores self',
     feed AdaptiveThresholdDetector.handleRecord
       (AdaptiveThresholdDetector.init 0 1 (Fin 1.5) (Fin 0.5) (Fin 1e-6))
       [Fin 1; NaN; Fin 2]
     = Ok (scores, self') /\ Forall in_unit scores).
Proof.
  assert (Hfloor : positive (Fin 1e-6)) by (apply Rltb_true; lra).
  assert (Hdef : forall c s, offset_defined (Fin c) (Fin s)).
  { intros c s. repeat split; discriminate. }
  split; [| split].
  - apply (proj1 scores_in_unit_interval 0%Z 1%nat (Fin 3) (Fin 1) (Fin 1e-6)
             [Fin 1; NaN; Fin 2]); [lia | exact Hfloor | apply Hdef |].
    repeat constructor; simpl; lra.
  - apply (proj1 (proj2 scores_in_unit_interval) 0%Z 0.2 (Fin 3) (Fin 1)
             (Fin 1e-6) [Fin 1; NaN; Fin 2]); [lra | exact Hfloor | apply Hdef].
  - apply (proj2 (proj2 scores_in_unit_interval) 0%Z 1%nat (Fin 1.5) (Fin 0.5)
             (Fin 1e-6) [Fin 1; NaN; Fin 2]); [lia | exact Hfloor | apply Hdef].
Defined.

(** ** NaN records *)

Lemma add_nan_r (x : pyfloat) : Float.add x NaN = NaN.
Proof. now destruct x. Qed.

Lemma sub_nan_r (x : pyfloat) : Float.sub x NaN = NaN.
Proof. now destruct x. Qed.

Lemma fold_add_nan (l : list pyfloat) : fold_left Float.add l NaN = NaN.
Proof. induction l as [| x l IH]; [reflexivity | exact IH]. Qed.

Lemma sum_with_nan (l : list pyfloat) : In NaN l -> Float.sum l = NaN.
Proof.
  unfold Float.sum. generalize (Fin 0).
  induction l as [| x l IH]; intros acc Hin; [contradiction |].
  destruct Hin as [-> | Hin]; cbn [fold_left].
  - rewrite add_nan_r. apply fold_add_nan.
  - now apply IH.
Qed.

Lemma div_nan_by_count (n : nat) :
  (1 <= n)%nat -> Float.div NaN (Float.of_nat n) = Ok NaN.
Proof.
  intros Hn. unfold Float.of_nat. simpl.
  assert (Hpos : 0 < INR n) by (apply lt_0_INR; lia).
  assert (E : Reqb (INR n) 0 = false) by (apply Reqb_false; lra).
  now rewrite E.
Qed.

Lemma nonempty_with_nan (l : list pyfloat) : In NaN l -> (1 <= length l)%nat.
Proof. destruct l; [contradiction | simpl; lia]. Qed.

Lemma traverse_nan_deviation (l : list pyfloat) :
  traverse (fun x => Float.pow2 (Float.sub x NaN)) l
  = Ok (repeat NaN (length l)).
Proof.
  induction l as [| x l IH]; [reflexivity |].
  cbn [traverse length repeat]. rewrite sub_nan_r. cbn [Float.pow2 bind].
  now rewrite IH.
Qed.

Lemma map_nan_deviation (l : list pyfloat) :
  map (fun x => Float.abs (Float.sub x NaN)) l = repeat NaN (length l).
Proof.
  induction l as [| x l IH]; [reflexivity |].
  cbn [map length repeat]. now rewrite sub_nan_r, IH.
Qed.

Lemma max_repeat (x : pyfloat) (n : nat) : Float.max (repeat x (S n)) = Ok x.
Proof.
  change (repeat x (S n)) with (x :: repeat x n). unfold Float.max. f_equal.
  induction n as [| n IH]; [reflexivity |].
  change (repeat x (S n)) with (x :: repeat x n). cbn [fold_left].
  replace (if Float.gtb x x then x else x) with x by (now destruct (Float.gtb x x)).
  exact IH.
Qed.

(** With a NaN in the window the mean and the spread are NaN. *)
Lemma ZScore_statistics_nan (minStd : pyfloat) (window : list pyfloat) :
  In NaN window -> ZScoreDetector.statistics minStd window = Ok (NaN, NaN).
Proof.
  intros Hin. pose proof (nonempty_with_nan window Hin) as Hlen.
  unfold ZScoreDetector.statistics.
  rewrite sum_with_nan, div_nan_by_count by assumption. cbn [bind].
  rewrite traverse_nan_deviation. cbn [bind].
  rewrite sum_with_nan.
  - rewrite div_nan_by_count by assumption. reflexivity.
  - destruct (length window); [lia | now left].
Qed.

Lemma Adaptive_statistics_nan (minDev : pyfloat) (window : list pyfloat) :
  In NaN window ->
  AdaptiveThresholdDetector.statistics minDev window = Ok (NaN, NaN).
Proof.
  intros Hin. pose proof (nonempty_with_nan window Hin) as Hlen.
  unfold AdaptiveThresholdDetector.statistics.
  rewrite sum_with_nan, div_nan_by_count by assumption. cbn [bind].
  rewrite map_nan_deviation.
  destruct (length window) as [| n]; [lia |].
  rewrite max_repeat. reflexivity.
Qed.

Lemma ZScore_score_against_nan (threshold scale value : pyfloat) :
  ZScoreDetector.scoreAgainst threshold scale (NaN, NaN) value = Ok (Fin 0).
Proof.
  unfold ZScoreDetector.scoreAgainst. rewrite sub_nan_r. reflexivity.
Qed.

Lemma Adaptive_score_against_nan (sensitivity scale value : pyfloat) :
  AdaptiveThresholdDetector.scoreAgainst sensitivity scale (NaN, NaN) value
  = Ok (Fin 0).
Proof.
  unfold AdaptiveThresholdDetector.scoreAgainst. rewrite sub_nan_r. reflexivity.
Qed.

Lemma probation_zero (index : nat) (p : Z) : probation index p (Fin 0) = Fin 0.
Proof. unfold probation. now destruct (Z.of_nat index <? p)%Z. Qed.

(** A call on a window that holds a NaN scores 0.0, whatever the value and
    the configuration. *)
Lemma ZScore_call_nan (p : Z) (n : nat) (threshold scale minStd : pyfloat)
    (window : list pyfloat) (index : nat) (value : pyfloat) :
  In NaN window ->
  ZScoreDetector.handleRecord
    (ZScoreDetector.mk p n threshold scale minStd window index) value
  = Ok (Fin 0,
        ZScoreDetector.mk p n threshold scale minStd
          (deque_append n window value) (S index)).
Proof.
  intros Hin. rewrite ZScore_call.
  destruct (n <=? length window)%nat.
  - rewrite ZScore_statistics_nan by assumption. cbn [bind].
    rewrite ZScore_score_against_nan. cbn [bind]. now rewrite probation_zero.
  - cbn [bind]. now rewrite probation_zero.
Qed.

Lemma Adaptive_call_nan (p : Z) (n : nat) (sensitivity scale minDev : pyfloat)
    (window : list pyfloat) (index : nat) (value : pyfloat) :
  In NaN window ->
  AdaptiveThresholdDetector.handleRecord
    (AdaptiveThresholdDetector.mk p n sensitivity scale minDev window index)
    value
  = Ok (Fin 0,
        AdaptiveThresholdDetector.mk p n sensitivity scale minDev
          (deque_append n window value) (S index)).
Proof.
  intros Hin. rewrite Adaptive_call.
  destruct (n <=? length window)%nat.
  - rewrite Adaptive_statistics_nan by assumption. cbn [bind].
    rewrite Adaptive_score_against_nan. cbn [bind]. now rewrite probation_zero.
  - cbn [bind]. now rewrite probation_zero.
Qed.

(** Appending to a window [a ++ NaN :: b] within capacity keeps the NaN,
    with one more value behind it, as long as the NaN is not the one evicted. *)
Lemma deque_append_keeps (n : nat) (a b : list pyfloat) (x value : pyfloat) :
  (length (a ++ x :: b) <= n)%nat -> (length b + 1 < n)%nat ->
  exists a',
    deque_append n (a ++ x :: b) value = a' ++ x :: (b ++ [value]) /\
    (length (a' ++ x :: (b ++ [value])) <= n)%nat.
Proof.
  intros Hlen Hb. unfold deque_append.
  rewrite <- app_assoc. cbn [app].
  destruct (n <? length (a ++ x :: b ++ [value]))%nat eqn:E.
  - apply Nat.ltb_lt in E. rewrite !length_app in *. cbn [length] in *.
    rewrite length_app in E. cbn [length] in E.
    destruct a as [| y a]; [simpl in *; lia |].
    exists a. cbn [app tl]. split; [reflexivity |].
    rewrite !length_app. cbn [length]. rewrite length_app. cbn [length].
    simpl in Hlen. lia.
  - apply Nat.ltb_ge in E. exists a. split; [reflexivity | exact E].
Qed.

Lemma ZScore_feed_nan (values : list pyfloat) (p : Z) (n : nat)
    (threshold scale minStd : pyfloat) (a b : list pyfloat) (index : nat) :
  (length (a ++ NaN :: b) <= n)%nat -> (length b + length values <= n)%nat ->
  exists self',
    feed ZScoreDetector.handleRecord
      (ZScoreDetector.mk p n threshold scale minStd (a ++ NaN :: b) index)
      values
    = Ok (repeat (Fin 0) (length values), self').
Proof.
  revert a b index.
  induction values as [| v values IH]; intros a b index Hlen Hb.
  - eexists. reflexivity.
  - cbn [feed]. rewrite ZScore_call_nan by (apply in_elt). cbn [bind].
    destruct values as [| w values].
    + eexists. reflexivity.
    + cbn [length] in Hb.
      destruct (deque_append_keeps n a b NaN v Hlen) as (a' & -> & Hlen');
        [lia |].
      destruct (IH a' (b ++ [v]) (S index) Hlen') as [self' Hfeed].
      { rewrite length_app. cbn [length]. lia. }
      rewrite Hfeed. cbn [bind]. eexists. reflexivity.
Qed.

Lemma Adaptive_feed_nan (values : list pyfloat) (p : Z) (n : nat)
    (sensitivity scale minDev : pyfloat) (a b : list pyfloat) (index : nat) :
  (length (a ++ NaN :: b) <= n)%nat -> (length b + length values <= n)%nat ->
  exists self',
    feed AdaptiveThresholdDetector.handleRecord
      (AdaptiveThresholdDetector.mk p n sensitivity scale minDev
         (a ++ NaN :: b) index) values
    = Ok (repeat (Fin 0) (length values), self').
Proof.
  revert a b index.
  induction values as [| v values IH]; intros a b index Hlen Hb.
  - eexists. reflexivity.
  - cbn [feed]. rewrite Adaptive_call_nan by (apply in_elt). cbn [bind].
    destruct values as [| w values].
    + eexists. reflexivity.
    + cbn [length] in Hb.
      destruct (deque_append_keeps n a b NaN v Hlen) as (a' & -> & Hlen');
        [lia |].
      destruct (IH a' (b ++ [v]) (S index) Hlen') as [self' Hfeed].
      { rewrite length_app. cbn [length]. lia. }
      rewrite Hfeed. cbn [bind]. eexists. reflexivity.
Qed.

(** X3: in ZScoreDetector and AdaptiveThresholdDetector, once a NaN record
    is the newest value of a window within capacity, the next [windowSize]
    calls return exactly 0.0 and never raise, whatever the values, the
    probationary period and the rest of the configuration: the mean of a
    window with a NaN is NaN and the transform maps a NaN metric to 0.0. *)
Theorem nan_record_silences_window (p : Z) (n : nat)
    (center scale floor : pyfloat) (older values : list pyfloat) (index : nat) :
  (length older < n)%nat -> (length values <= n)%nat ->
  (exists self',
     feed ZScoreDetector.handleRecord
       (ZScoreDetector.mk p n center scale floor (older ++ [NaN]) index) values
     = Ok (repeat (Fin 0) (length values), self')) /\
  (exists self',
     feed AdaptiveThresholdDetector.handleRecord
       (AdaptiveThresholdDetector.mk p n center scale floor (older ++ [NaN])
          index) values
     = Ok (repeat (Fin 0) (length values), self')).
Proof.
  intros Holder Hvalues.
  assert (Hlen : (length (older ++ [NaN]) <= n)%nat).
  { rewrite length_app. cbn [length]. lia. }
  split.
  - now apply (ZScore_feed_nan values p n center scale floor older []).
  - now apply (Adaptive_feed_nan values p n center scale floor older []).
Qed.

Lemma nan_record_silences_window_witness :
  (exists self',
     feed ZScoreDetector.handleRecord
       (ZScoreDetector.mk 0 2 (Fin 3) (Fin 1) (Fin 0) [Fin 5; NaN] 7)
       [Fin 1e200; Fin 0]
     = Ok ([Fin 0; Fin 0], self')) /\
  (exists self',
     feed AdaptiveThresholdDetector.handleRecord
       (AdaptiveThresholdDetector.mk 0 2 (Fin 3) (Fin 1) (Fin 0) [Fin 5; NaN] 7)
       [Fin 1e200; Fin 0]
     = Ok ([Fin 0; Fin 0], self')).
Proof.
  apply (nan_record_silences_window 0 2 (Fin 3) (Fin 1) (Fin 0) [Fin 5]
           [Fin 1e200; Fin 0] 7); simpl; lia.
Defined.

Lemma mul_nan_r (x : pyfloat) : Float.mul x NaN = NaN.
Proof. now destruct x. Qed.

Lemma div_by_nan (x : pyfloat) : Float.div x NaN = Ok NaN.
Proof. now destruct x. Qed.

(** A NaN record turns both estimates into NaN. *)
Lemma Ewma_update_nan (alpha e variance : pyfloat) :
  EwmaDetector.update alpha (Some e, variance) NaN = (Some NaN, NaN).
Proof.
  unfold EwmaDetector.update.
  replace (Float.sub NaN e) with NaN by (now destruct e).
  rewrite !mul_nan_r, !add_nan_r, mul_nan_r. reflexivity.
Qed.

Lemma Ewma_update_from_nan (alpha value : pyfloat) :
  EwmaDetector.update alpha (Some NaN, NaN) value = (Some NaN, NaN).
Proof.
  unfold EwmaDetector.update. rewrite sub_nan_r.
  rewrite !mul_nan_r, !add_nan_r. reflexivity.
Qed.

Lemma Ewma_call_from_nan (p : Z) (alpha threshold scale minStd : pyfloat)
    (index : nat) (value : pyfloat) :
  EwmaDetector.handleRecord
    (EwmaDetector.mk p alpha threshold scale minStd (Some NaN) NaN index) value
  = Ok (Fin 0,
        EwmaDetector.mk p alpha threshold scale minStd (Some NaN) NaN (S index)).
Proof.
  rewrite Ewma_call, Ewma_update_from_nan.
  unfold EwmaDetector.scoreAgainst. rewrite sub_nan_r.
  cbn [Float.sqrt bind Float.abs fst snd].
  replace (floored NaN minStd) with NaN by (now destruct minStd).
  rewrite div_by_nan. cbn [bind].
  replace (_logisticScore (Some NaN) threshold (Some scale))
    with (@Ok pyfloat (Fin 0)) by reflexivity.
  cbn [bind]. now rewrite probation_zero.
Qed.

Lemma Ewma_feed_from_nan (values : list pyfloat) (p : Z)
    (alpha threshold scale minStd : pyfloat) (index : nat) :
  feed EwmaDetector.handleRecord
    (EwmaDetector.mk p alpha threshold scale minStd (Some NaN) NaN index) values
  = Ok (repeat (Fin 0) (length values),
        EwmaDetector.mk p alpha threshold scale minStd (Some NaN) NaN
          (index + length values)).
Proof.
  revert index. induction values as [| v values IH]; intros index.
  - simpl. now rewrite Nat.add_0_r.
  - cbn [feed]. rewrite Ewma_call_from_nan. cbn [bind]. rewrite IH.
    cbn [bind length repeat]. do 3 f_equal. lia.
Qed.

(** X4: EwmaDetector never recovers from a NaN record.  In a state with an
    estimate, a variance not below zero and a floor [minStd] above zero, a NaN
    record scores 0.0, turns ewma and variance into NaN, and every later
    record scores exactly 0.0 whatever its value, for any alpha, threshold,
    scale and probationary period. *)
Theorem nan_record_silences_ewma (p : Z)
    (alpha threshold scale minStd e variance : pyfloat) (index : nat)
    (later : list pyfloat) :
  positive minStd -> nonneg variance ->
  feed EwmaDetector.handleRecord
    (EwmaDetector.mk p alpha threshold scale minStd (Some e) variance index)
    (NaN :: later)
  = Ok (repeat (Fin 0) (S (length later)),
        EwmaDetector.mk p alpha threshold scale minStd (Some NaN) NaN
          (index + S (length later))).
Proof.
  intros Hpos Hv. cbn [feed]. rewrite Ewma_call, Ewma_update_nan.
  unfold EwmaDetector.scoreAgainst.
  destruct (sqrt_nonneg variance Hv) as (std & Hstd & _).
  rewrite Hstd. cbn [bind fst snd].
  replace (Float.sub NaN e) with NaN by (now destruct e).
  cbn [Float.abs].
  assert (Hratio : Float.div NaN (floored std minStd) = Ok NaN).
  { pose proof (floored_nonzero std minStd Hpos) as Hnz.
    destruct (floored std minStd) as [d | | |]; try reflexivity.
    simpl. assert (E : Reqb d 0 = false).
    { apply Reqb_false. intros ->. now apply Hnz. }
    now rewrite E. }
  rewrite Hratio. cbn [bind].
  replace (_logisticScore (Some NaN) threshold (Some scale))
    with (@Ok pyfloat (Fin 0)) by reflexivity.
  cbn [bind]. rewrite probation_zero.
  rewrite Ewma_feed_from_nan. cbn [bind repeat]. do 3 f_equal. lia.
Qed.

Lemma nan_record_silences_ewma_witness :
  feed EwmaDetector.handleRecord
    (EwmaDetector.mk 0 (Fin 0.2) (Fin 3) (Fin 1) (Fin 1e-6) (Some (Fin 4))
       (Fin 2) 9)
    [NaN; Fin 4; Fin 1e300]
  = Ok ([Fin 0; Fin 0; Fin 0],
        EwmaDetector.mk 0 (Fin 0.2) (Fin 3) (Fin 1) (Fin 1e-6) (Some NaN) NaN 12).
Proof.
  apply (nan_record_silences_ewma 0 (Fin 0.2) (Fin 3) (Fin 1) (Fin 1e-6)
           (Fin 4) (Fin 2) 9 [Fin 4; Fin 1e300]).
  - apply Rltb_true. lra.
  - simpl. lra.
Defined.

(** ** Degenerate configurations *)

(** X5: with [windowSize] 0 the deque stays empty and always counts as
    full, so the very first call of ZScoreDetector and of
    AdaptiveThresholdDetector divides the empty sum by a length of 0 and
    raises ZeroDivisionError, whatever the value and the other options. *)
Theorem zero_window_raises (p : Z) (center scale floor value : pyfloat)
    (later : list pyfloat) :
  feed ZScoreDetector.handleRecord
    (ZScoreDetector.init p 0 center scale floor) (value :: later)
  = Raise ZeroDivisionError
  /\
  feed AdaptiveThresholdDetector.handleRecord
    (AdaptiveThresholdDetector.init p 0 center scale floor) (value :: later)
  = Raise ZeroDivisionError.
Proof.
  assert (E : Reqb 0 0 = true) by (now apply Reqb_true).
  split.
  - unfold ZScoreDetector.init. cbn [feed]. rewrite ZScore_call.
    cbn [length Nat.leb].
    unfold ZScoreDetector.statistics, Float.sum, Float.of_nat.
    cbn [fold_left length INR Float.div]. now rewrite E.
  - unfold AdaptiveThresholdDetector.init. cbn [feed]. rewrite Adaptive_call.
    cbn [length Nat.leb].
    unfold AdaptiveThresholdDetector.statistics, Float.sum, Float.of_nat.
    cbn [fold_left length INR Float.div]. now rewrite E.
Qed.

(** X6: a smoothing factor above 1 makes the variance estimate negative.
    For EwmaDetector with [alpha > 1] and a floor [minStd] above zero, after
    two finite values that differ by at least 1e-100 the third call raises
    ValueError from [math.sqrt], whatever the third value.  (The bound keeps
    [alpha * diff * diff] from underflowing to zero, which would leave a
    variance of -0.0, whose square root is defined.) *)
Theorem alpha_above_one_raises (p : Z) (alpha v0 v1 : R)
    (threshold scale minStd value : pyfloat) (later : list pyfloat) :
  1 < alpha -> 1e-100 <= Rabs (v1 - v0) -> positive minStd ->
  feed EwmaDetector.handleRecord
    (EwmaDetector.init p (Fin alpha) threshold scale minStd)
    (Fin v0 :: Fin v1 :: value :: later)
  = Raise ValueError.
Proof.
  intros Halpha Hfar Hpos.
  assert (Hne : v0 <> v1).
  { intros ->. revert Hfar. replace (v1 - v1) with 0 by lra.
    rewrite Rabs_R0. lra. }
  unfold EwmaDetector.init. cbn [feed].
  rewrite Ewma_call_first. cbn [bind]. rewrite Ewma_call.
  destruct (EwmaFacts.ewma_scoreAgainst_returns threshold scale minStd (Fin v0)
              (Fin 0) (Fin v1) Hpos) as [score Hscore]; [simpl; lra |].
  rewrite Hscore. cbn [bind]. rewrite Ewma_call.
  unfold EwmaDetector.update at 2.
  cbn [snd fst Float.sub Float.neg Float.add Float.mul].
  unfold EwmaDetector.scoreAgainst at 1. cbn [Float.sqrt].
  assert (E : Rltb ((1 + - alpha) * (0 + alpha * (v1 + - v0) * (v1 + - v0))) 0
              = true).
  { apply Rltb_true.
    assert (Hsq : 0 < (v1 + - v0) * (v1 + - v0)).
    { destruct (Rtotal_order v1 v0) as [H | [H | H]]; [nra | | nra].
      now subst. }
    assert (Hprod : 0 < (alpha - 1) * (alpha * ((v1 + - v0) * (v1 + - v0)))).
    { apply Rmult_lt_0_compat; [lra |]. apply Rmult_lt_0_compat; lra. }
    replace ((1 + - alpha) * (0 + alpha * (v1 + - v0) * (v1 + - v0)))
      with (- ((alpha - 1) * (alpha * ((v1 + - v0) * (v1 + - v0))))) by ring.
    lra. }
  now rewrite E.
Qed.

Lemma alpha_above_one_raises_witness :
  feed EwmaDetector.handleRecord
    (EwmaDetector.init 0 (Fin 2) (Fin 3) (Fin 1) (Fin 1e-6))
    [Fin 1; Fin 2; Fin 3]
  = Raise ValueError.
Proof.
  apply (alpha_above_one_raises 0 2 1 2 (Fin 3) (Fin 1) (Fin 1e-6) (Fin 3) []).
  - lra.
  - rewrite Rabs_right; lra.
  - apply Rltb_true. lra.
Defined.

(** ** Scores and distance from the window mean *)

Lemma effectiveScale_positive (s : R) :
  0 < s -> effectiveScale (Some (Fin s)) = Fin s.
Proof.
  intros Hs. simpl.
  assert (E : Rleb s 0 = false) by (apply Rleb_false; lra).
  now rewrite E.
Qed.

Lemma ZScore_scoreAgainst_finite (t s mean std v : R) :
  0 < s -> 0 < std ->
  ZScoreDetector.scoreAgainst (Fin t) (Fin s) (Fin mean, Fin std) (Fin v)
  = Ok (Fin (squash ((Rabs (v - mean) / std - t) / s))).
Proof.
  intros Hs Hstd. unfold ZScoreDetector.scoreAgainst.
  cbn [Float.sub Float.neg Float.add]. rewrite div_finite by lra.
  cbn [bind Float.abs].
  rewrite logisticScore_finite with (s := s);
    [| now apply effectiveScale_positive | assumption].
  do 5 f_equal. unfold Rdiv. rewrite Rabs_mult.
  rewrite (Rabs_right (/ std)).
  - replace (v + - mean) with (v - mean) by lra. reflexivity.
  - left. now apply Rinv_0_lt_compat.
Qed.

Lemma Adaptive_scoreAgainst_finite (t s mean maxDev v : R) :
  0 < s -> 0 < maxDev ->
  AdaptiveThresholdDetector.scoreAgainst (Fin t) (Fin s) (Fin mean, Fin maxDev)
    (Fin v)
  = Ok (Fin (squash ((Rabs (v - mean) / maxDev - t) / s))).
Proof.
  intros Hs Hdev. unfold AdaptiveThresholdDetector.scoreAgainst.
  cbn [Float.sub Float.neg Float.add Float.abs]. rewrite div_finite by lra.
  cbn [bind].
  rewrite logisticScore_finite with (s := s);
    [| now apply effectiveScale_positive | assumption].
  replace (v + - mean) with (v - mean) by lra. reflexivity.
Qed.

Lemma squash_of_deviation_monotone (t s spread d1 d2 : R) :
  0 < s -> 0 < spread -> d1 <= d2 ->
  squash ((d1 / spread - t) / s) <= squash ((d2 / spread - t) / s).
Proof.
  intros Hs Hspread Hd. apply squash_monotone.
  assert (Hinv : 0 < / s) by (now apply Rinv_0_lt_compat).
  assert (Hinv' : 0 < / spread) by (now apply Rinv_0_lt_compat).
  apply Rmult_le_compat_r; [lra |].
  assert (d1 / spread <= d2 / spread); [| lra].
  apply Rmult_le_compat_r; lra.
Qed.

(** X7: against the same finite statistics (a mean and a spread of at
    least 1e-150) and with a finite center and a finite scale above zero, of
    two values within 1e150 of the mean the farther one never scores lower
    than the nearer one, in ZScoreDetector and in AdaptiveThresholdDetector
    alike.  (The bounds keep the quotient finite: a quotient that overflows
    to infinity is scored 0.0.) *)
Theorem farther_value_scores_higher (t s mean spread v1 v2 : R) :
  0 < s -> 1e-150 <= spread ->
  Rabs (v1 - mean) <= Rabs (v2 - mean) -> Rabs (v2 - mean) <= 1e150 ->
  (exists s1 s2,
     ZScoreDetector.scoreAgainst (Fin t) (Fin s) (Fin mean, Fin spread) (Fin v1)
     = Ok (Fin s1) /\
     ZScoreDetector.scoreAgainst (Fin t) (Fin s) (Fin mean, Fin spread) (Fin v2)
     = Ok (Fin s2) /\ s1 <= s2) /\
  (exists s1 s2,
     AdaptiveThresholdDetector.scoreAgainst (Fin t) (Fin s)
       (Fin mean, Fin spread) (Fin v1) = Ok (Fin s1) /\
     AdaptiveThresholdDetector.scoreAgainst (Fin t) (Fin s)
       (Fin mean, Fin spread) (Fin v2) = Ok (Fin s2) /\ s1 <= s2).
Proof.
  intros Hs Hfloor Hd _.
  assert (Hspread : 0 < spread) by lra.
  split.
  - eexists; eexists. repeat split.
    + now apply ZScore_scoreAgainst_finite.
    + now apply ZScore_scoreAgainst_finite.
    + now apply squash_of_deviation_monotone.
  - eexists; eexists. repeat split.
    + now apply Adaptive_scoreAgainst_finite.
    + now apply Adaptive_scoreAgainst_finite.
    + now apply squash_of_deviation_monotone.
Qed.

Lemma farther_value_scores_higher_witness :
  (exists s1 s2,
     ZScoreDetector.scoreAgainst (Fin 3) (Fin 1) (Fin 10, Fin 2) (Fin 11)
     = Ok (Fin s1) /\
     ZScoreDetector.scoreAgainst (Fin 3) (Fin 1) (Fin 10, Fin 2) (Fin 16)
     = Ok (Fin s2) /\ s1 <= s2) /\
  (exists s1 s2,
     AdaptiveThresholdDetector.scoreAgainst (Fin 3) (Fin 1) (Fin 10, Fin 2)
       (Fin 11) = Ok (Fin s1) /\
     AdaptiveThresholdDetector.scoreAgainst (Fin 3) (Fin 1) (Fin 10, Fin 2)
       (Fin 16) = Ok (Fin s2) /\ s1 <= s2).
Proof.
  apply (farther_value_scores_higher 3 1 10 2 11 16); try lra;
    rewrite !Rabs_right; lra.
Defined.

(** ** Flat windows *)

Lemma squash_half_iff (x : R) : 1 / 2 <= squash x <-> 0 <= x.
Proof.
  split; [| apply squash_above].
  intros H. destruct (Rle_lt_dec 0 x) as [Hx | Hx]; [assumption | exfalso].
  unfold squash in H.
  assert (Hexp : 1 < exp (- x)).
  { rewrite <- exp_0. apply exp_increasing. lra. }
  assert (Hinv : / (1 + exp (- x)) < / 2) by (apply Rinv_lt_contravar; lra).
  unfold Rdiv in H. revert H. rdecide.
Qed.

Lemma Adaptive_statistics_constant (minDev : pyfloat) (c : R) (n : nat) :
  (1 <= n)%nat ->
  AdaptiveThresholdDetector.statistics minDev (repeat (Fin c) n)
  = Ok (Fin c, floored (Fin 0) minDev).
Proof.
  intros Hn.
  assert (Hpos : 0 < INR n) by (apply lt_0_INR; lia).
  unfold AdaptiveThresholdDetector.statistics, Float.of_nat.
  rewrite repeat_length, sum_repeat, div_finite by lra.
  cbn [bind].
  replace (INR n * c / INR n) with c by (field; lra).
  rewrite map_repeat. cbn [Float.sub Float.neg Float.add Float.abs].
  replace (Rabs (c + - c)) with 0
    by (replace (c + - c) with 0 by lra; now rewrite Rabs_R0).
  destruct n as [| n]; [lia |].
  rewrite max_repeat. reflexivity.
Qed.

Lemma probation_over (index : nat) (p : Z) (score : pyfloat) :
  (p <= Z.of_nat index)%Z -> probation index p score = score.
Proof.
  intros H. unfold probation.
  assert (E : (Z.of_nat index <? p)%Z = false) by (apply Z.ltb_ge; lia).
  now rewrite E.
Qed.

(** X8: after [windowSize] zeros the window has zero spread and the floor
    is the divisor.  Once probation is over, the next finite value [v]
    scores at least 0.5 when its magnitude is at least center times floor,
    and at most 0.5 when its magnitude is at most center times floor
    ([threshold * minStd] in ZScoreDetector, [sensitivity * minDev] in
    AdaptiveThresholdDetector), for a finite scale above zero, a floor of at
    least 1e-150 and a value of magnitude at most 1e150.  (The bounds keep
    the quotient finite; sums of zeros are exact.) *)
Theorem flat_window_threshold (p : Z) (n : nat) (t s m v : R) :
  (1 <= n)%nat -> 0 < s -> 1e-150 <= m -> Rabs v <= 1e150 ->
  (p <= Z.of_nat n)%Z ->
  (exists score self',
     feed ZScoreDetector.handleRecord
       (ZScoreDetector.init p n (Fin t) (Fin s) (Fin m))
       (repeat (Fin 0) n ++ [Fin v])
     = Ok (repeat (Fin 0) n ++ [Fin score], self') /\
     (t * m <= Rabs v -> 1 / 2 <= score) /\
     (Rabs v <= t * m -> score <= 1 / 2)) /\
  (exists score self',
     feed AdaptiveThresholdDetector.handleRecord
       (AdaptiveThresholdDetector.init p n (Fin t) (Fin s) (Fin m))
       (repeat (Fin 0) n ++ [Fin v])
     = Ok (repeat (Fin 0) n ++ [Fin score], self') /\
     (t * m <= Rabs v -> 1 / 2 <= score) /\
     (Rabs v <= t * m -> score <= 1 / 2)).
Proof.
  intros Hn Hs Hfloor _ Hp.
  assert (Hm : 0 < m) by lra.
  assert (Hinv : 0 < / s) by (now apply Rinv_0_lt_compat).
  assert (Hinv' : 0 < / m) by (now apply Rinv_0_lt_compat).
  assert (Hv : v - 0 = v) by lra.
  assert (Hhigh : t * m <= Rabs v ->
                  1 / 2 <= squash ((Rabs (v - 0) / m - t) / s)).
  { intros H. rewrite Hv. apply squash_above. apply Rmult_le_pos; [| lra].
    assert (H2 : t * m * / m <= Rabs v * / m)
      by (apply Rmult_le_compat_r; lra).
    replace (t * m * / m) with t in H2 by (field; lra).
    unfold Rdiv. lra. }
  assert (Hlow : Rabs v <= t * m ->
                 squash ((Rabs (v - 0) / m - t) / s) <= 1 / 2).
  { intros H. rewrite Hv. apply squash_below.
    assert (H2 : Rabs v * / m <= t * m * / m)
      by (apply Rmult_le_compat_r; lra).
    replace (t * m * / m) with t in H2 by (field; lra).
    assert (H3 : 0 <= (t - Rabs v / m) * / s)
      by (apply Rmult_le_pos; unfold Rdiv; lra).
    unfold Rdiv in *. lra. }
  split.
  - rewrite feed_app. unfold ZScoreDetector.init.
    rewrite ZScore_feed_filling by (rewrite repeat_length; simpl; lia).
    rewrite repeat_length. cbn [bind app feed Nat.add].
    rewrite ZScore_call.
    rewrite repeat_length, Nat.leb_refl.
    rewrite ZScore_statistics_constant, floored_zero_positive by assumption.
    cbn [bind]. rewrite ZScore_scoreAgainst_finite by assumption.
    cbn [bind]. rewrite probation_over by assumption.
    eexists; eexists. split; [reflexivity | split; assumption].
  - rewrite feed_app. unfold AdaptiveThresholdDetector.init.
    rewrite Adaptive_feed_filling by (rewrite repeat_length; simpl; lia).
    rewrite repeat_length. cbn [bind app feed Nat.add].
    rewrite Adaptive_call.
    rewrite repeat_length, Nat.leb_refl.
    rewrite Adaptive_statistics_constant, floored_zero_positive by assumption.
    cbn [bind]. rewrite Adaptive_scoreAgainst_finite by assumption.
    cbn [bind]. rewrite probation_over by assumption.
    eexists; eexists. split; [reflexivity | split; assumption].
Qed.

Lemma flat_window_threshold_witness :
  (exists score self',
     feed ZScoreDetector.handleRecord
       (ZScoreDetector.init 0 2 (Fin 3) (Fin 1) (Fin 1e-6))
       [Fin 0; Fin 0; Fin 100]
     = Ok ([Fin 0; Fin 0; Fin score], self') /\
     (3 * 1e-6 <= Rabs 100 -> 1 / 2 <= score) /\
     (Rabs 100 <= 3 * 1e-6 -> score <= 1 / 2)) /\
  (exists score self',
     feed AdaptiveThresholdDetector.handleRecord
       (AdaptiveThresholdDetector.init 0 2 (Fin 3) (Fin 1) (Fin 1e-6))
       [Fin 0; Fin 0; Fin 100]
     = Ok ([Fin 0; Fin 0; Fin score], self') /\
     (3 * 1e-6 <= Rabs 100 -> 1 / 2 <= score) /\
     (Rabs 100 <= 3 * 1e-6 -> score <= 1 / 2)).
Proof.
  apply (flat_window_threshold 0 2 3 1 1e-6 100); try lra; try lia.
  rewrite Rabs_right; lra.
Defined.

(** ** Probation as a mask *)

Lemma probation_none (index : nat) (score : pyfloat) :
  probation index 0 score = score.
Proof. apply probation_over. lia. Qed.

Lemma rmap_mask_cons {T : Type} (index : nat) (p : Z) (score : pyfloat)
    (m : result (list pyfloat * T)) :
  rmap (fun r => maskScores index p (fst r))
    (let* (scores, self) := m in Ok (score :: scores, self))
  = rmap (fun scores => probation index p score :: scores)
      (rmap (fun r => maskScores (S index) p (fst r)) m).
Proof. destruct m as [[scores self] | e]; reflexivity. Qed.

Lemma rmap_fst_cons {S : Type} (score : pyfloat) (m : result (list pyfloat * S)) :
  rmap fst (let* (scores, self) := m in Ok (score :: scores, self))
  = rmap (fun scores => score :: scores) (rmap fst m).
Proof. destruct m as [[scores self] | e]; reflexivity. Qed.

Lemma ZScore_probation_mask (values : list pyfloat) (p : Z) (n : nat)
    (threshold scale minStd : pyfloat) (window : list pyfloat) (index : nat) :
  rmap fst
    (feed ZScoreDetector.handleRecord
       (ZScoreDetector.mk p n threshold scale minStd window index) values)
  = rmap (fun r => maskScores index p (fst r))
      (feed ZScoreDetector.handleRecord
         (ZScoreDetector.mk 0 n threshold scale minStd window index) values).
Proof.
  revert window index.
  induction values as [| v values IH]; intros window index; [reflexivity |].
  cbn [feed]. rewrite !ZScore_call.
  destruct (if (n <=? length window)%nat
            then let* stats := ZScoreDetector.statistics minStd window in
                 ZScoreDetector.scoreAgainst threshold scale stats v
            else Ok (Fin 0)) as [score | e]; [| reflexivity].
  cbn [bind]. rewrite rmap_fst_cons, rmap_mask_cons, probation_none.
  now rewrite IH.
Qed.

Lemma Adaptive_probation_mask (values : list pyfloat) (p : Z) (n : nat)
    (sensitivity scale minDev : pyfloat) (window : list pyfloat) (index : nat) :
  rmap fst
    (feed AdaptiveThresholdDetector.handleRecord
       (AdaptiveThresholdDetector.mk p n sensitivity scale minDev window index)
       values)
  = rmap (fun r => maskScores index p (fst r))
      (feed AdaptiveThresholdDetector.handleRecord
         (AdaptiveThresholdDetector.mk 0 n sensitivity scale minDev window
            index) values).
Proof.
  revert window index.
  induction values as [| v values IH]; intros window index; [reflexivity |].
  cbn [feed]. rewrite !Adaptive_call.
  destruct (if (n <=? length window)%nat
            then let* stats :=
                   AdaptiveThresholdDetector.statistics minDev window in
                 AdaptiveThresholdDetector.scoreAgainst sensitivity scale stats v
            else Ok (Fin 0)) as [score | e]; [| reflexivity].
  cbn [bind]. rewrite rmap_fst_cons, rmap_mask_cons, probation_none.
  now rewrite IH.
Qed.

Lemma Ewma_probation_mask (values : list pyfloat) (p : Z)
    (alpha threshold scale minStd : pyfloat) (ewma : option pyfloat)
    (variance : pyfloat) (index : nat) :
  rmap fst
    (feed EwmaDetector.handleRecord
       (EwmaDetector.mk p alpha threshold scale minStd ewma variance index)
       values)
  = rmap (fun r => maskScores index p (fst r))
      (feed EwmaDetector.handleRecord
         (EwmaDetector.mk 0 alpha threshold scale minStd ewma variance index)
         values).
Proof.
  revert ewma variance index.
  induction values as [| v values IH]; intros ewma variance index;
    [reflexivity |].
  cbn [feed]. rewrite !Ewma_call.
  destruct (match ewma with
            | Some e => EwmaDetector.scoreAgainst threshold scale minStd e
                          variance v
            | None => Ok (Fin 0)
            end) as [score | e]; [| reflexivity].
  cbn [bind]. rewrite rmap_fst_cons, rmap_mask_cons, probation_none.
  now rewrite IH.
Qed.

(** X9: for every detector, state and input, the scores of a run under a
    probationary period [p] are the scores of the same run under period 0
    with the override applied call by call: 0.0 while the record index is
    below [p], the period-0 score from then on; both runs raise together. *)
Theorem probation_masks_scores (p : Z) (values : list pyfloat) :
  (forall n threshold scale minStd window index,
     rmap fst
       (feed ZScoreDetector.handleRecord
          (ZScoreDetector.mk p n threshold scale minStd window index) values)
     = rmap (fun r => maskScores index p (fst r))
         (feed ZScoreDetector.handleRecord
            (ZScoreDetector.mk 0 n threshold scale minStd window index)
            values)) /\
  (forall alpha threshold scale minStd ewma variance index,
     rmap fst
       (feed EwmaDetector.handleRecord
          (EwmaDetector.mk p alpha threshold scale minStd ewma variance index)
          values)
     = rmap (fun r => maskScores index p (fst r))
         (feed EwmaDetector.handleRecord
            (EwmaDetector.mk 0 alpha threshold scale minStd ewma variance
               index) values)) /\
  (forall n sensitivity scale minDev window index,
     rmap fst
       (feed AdaptiveThresholdDetector.handleRecord
          (AdaptiveThresholdDetector.mk p n sensitivity scale minDev window
             index) values)
     = rmap (fun r => maskScores index p (fst r))
         (feed AdaptiveThresholdDetector.handleRecord
            (AdaptiveThresholdDetector.mk 0 n sensitivity scale minDev window
               index) values)).
Proof.
  repeat split; intros.
  - apply ZScore_probation_mask.
  - apply Ewma_probation_mask.
  - apply Adaptive_probation_mask.
Qed.

(** * The env file reader *)

Module EnvFileFacts.
Import Ascii String.
Import EnvFile.

(** ** Stripping *)

Lemma lstrip_blank (ws s : str) : blank ws -> lstrip (ws ++ s) = lstrip s.
Proof.
  induction 1 as [| c ws Hc Hws IH]; [reflexivity |].
  cbn [app lstrip]. now rewrite Hc.
Qed.

Lemma lstrip_all_blank (ws : str) : blank ws -> lstrip ws = [].
Proof.
  intros H. rewrite <- (app_nil_r ws). now rewrite lstrip_blank.
Qed.

Lemma lstrip_head (s : str) (c : N) (rest : str) :
  lstrip s = c :: rest -> isspace c = false.
Proof.
  induction s as [| x s IH]; [discriminate |].
  cbn [lstrip]. destruct (isspace x) eqn:E; [exact IH |].
  intros H. injection H as -> _. exact E.
Qed.

Lemma lstrip_nonspace (c : N) (s : str) :
  isspace c = false -> lstrip (c :: s) = c :: s.
Proof. intros H. cbn [lstrip]. now rewrite H. Qed.

Lemma lstrip_before_nonspace (a : str) (c : N) (b : str) :
  isspace c = false -> lstrip (a ++ c :: b) = lstrip a ++ c :: b.
Proof.
  intros Hc. induction a as [| x a IH].
  - simpl. now rewrite Hc.
  - cbn [app lstrip]. destruct (isspace x); [exact IH | reflexivity].
Qed.

Lemma blank_rev (ws : str) : blank ws -> blank (rev ws).
Proof. unfold blank. apply Forall_rev. Qed.

Lemma rstrip_blank (s ws : str) : blank ws -> rstrip (s ++ ws) = rstrip s.
Proof.
  intros H. unfold rstrip. rewrite rev_app_distr.
  now rewrite lstrip_blank by (now apply blank_rev).
Qed.

Lemma rstrip_all_blank (ws : str) : blank ws -> rstrip ws = [].
Proof.
  intros H. unfold rstrip. now rewrite lstrip_all_blank by (now apply blank_rev).
Qed.

Lemma rstrip_after_nonspace (a : str) (c : N) (b : str) :
  isspace c = false -> rstrip (a ++ c :: b) = a ++ c :: rstrip b.
Proof.
  intros Hc. unfold rstrip. rewrite rev_app_distr. cbn [rev].
  rewrite <- app_assoc. cbn [app].
  rewrite lstrip_before_nonspace by assumption.
  rewrite rev_app_distr. cbn [rev]. rewrite rev_involutive.
  now rewrite <- app_assoc.
Qed.

Lemma rstrip_cons_nonspace (c : N) (b : str) :
  isspace c = false -> rstrip (c :: b) = c :: rstrip b.
Proof. intros Hc. exact (rstrip_after_nonspace [] c b Hc). Qed.

Lemma rstrip_last (s : str) (c : N) :
  isspace c = false -> rstrip (s ++ [c]) = s ++ [c].
Proof.
  intros Hc. rewrite rstrip_after_nonspace by assumption. reflexivity.
Qed.

Lemma strip_head (s : str) (c : N) (rest : str) :
  strip s = c :: rest -> isspace c = false.
Proof.
  unfold strip. destruct (lstrip s) as [| x t] eqn:E.
  - discriminate.
  - pose proof (lstrip_head s x t E) as Hx.
    rewrite (rstrip_cons_nonspace x t Hx).
    intros H. injection H as -> _. exact Hx.
Qed.

Lemma strip_last (s : str) (rest : str) (c : N) :
  strip s = rest ++ [c] -> isspace c = false.
Proof.
  unfold strip, rstrip. intros H.
  apply (f_equal (@rev N)) in H. rewrite rev_involutive, rev_app_distr in H.
  cbn [rev app] in H. now apply lstrip_head in H.
Qed.

(** Whitespace around a stripped string is all that stripping removes. *)
Lemma strip_padded (ws1 s ws2 : str) :
  strip s = s -> blank ws1 -> blank ws2 -> strip (ws1 ++ s ++ ws2) = s.
Proof.
  intros Hs H1 H2. unfold strip. rewrite lstrip_blank by assumption.
  destruct s as [| c r].
  - cbn [app]. now rewrite lstrip_all_blank.
  - pose proof (strip_head _ _ _ Hs) as Hc.
    cbn [app]. rewrite lstrip_nonspace by assumption.
    change (c :: r ++ ws2) with ((c :: r) ++ ws2).
    rewrite rstrip_blank by assumption.
    unfold strip in Hs. rewrite lstrip_nonspace in Hs by assumption.
    exact Hs.
Qed.

Lemma strip_blank (ws : str) : blank ws -> strip ws = [].
Proof.
  intros H. unfold strip. now rewrite lstrip_all_blank.
Qed.

Lemma strip_idempotent (s : str) : strip (strip s) = strip s.
Proof.
  assert (H : strip s = rstrip (lstrip s)) by reflexivity.
  rewrite H. clear H.
  destruct (lstrip s) as [| c t] eqn:E; [reflexivity |].
  pose proof (lstrip_head s c t E) as Hc.
  rewrite (rstrip_cons_nonspace c t Hc).
  unfold strip. rewrite lstrip_nonspace by assumption.
  rewrite (rstrip_cons_nonspace c (rstrip t) Hc).
  f_equal. unfold rstrip. rewrite rev_involutive.
  f_equal. destruct (lstrip (rev t)) as [| x u] eqn:Eu; [reflexivity |].
  apply lstrip_nonspace. now apply lstrip_head in Eu.
Qed.

Lemma lstrip_incl (s : str) (c : N) : In c (lstrip s) -> In c s.
Proof.
  induction s as [| x s IH]; [trivial |].
  cbn [lstrip]. destruct (isspace x); [| trivial].
  intros H. right. now apply IH.
Qed.

Lemma strip_incl (s : str) (c : N) : In c (strip s) -> In c s.
Proof.
  unfold strip, rstrip. intros H.
  apply lstrip_incl. apply in_rev. apply lstrip_incl. now apply in_rev in H.
Qed.

Lemma contains_true (s : str) (c : N) : contains s c = true <-> In c s.
Proof.
  unfold contains. rewrite existsb_exists. split.
  - intros (x & Hx & E). apply N.eqb_eq in E. now subst.
  - intros H. exists c. split; [assumption | apply N.eqb_refl].
Qed.

Lemma contains_false (s : str) (c : N) : contains s c = false <-> ~ In c s.
Proof.
  rewrite <- contains_true. destruct (contains s c); split; intros H;
    try discriminate; try reflexivity; try (intros H'; discriminate).
  now contradiction H.
Qed.

Lemma contains_strip (s : str) (c : N) :
  contains s c = false -> contains (strip s) c = false.
Proof.
  rewrite !contains_false. intros H Hin. apply H. now apply strip_incl.
Qed.

Lemma blank_without (ws : str) (c : N) :
  isspace c = false -> blank ws -> contains ws c = false.
Proof.
  intros Hc Hws. apply contains_false. intros Hin.
  unfold blank in Hws. rewrite Forall_forall in Hws.
  apply Hws in Hin. congruence.
Qed.

(** ** Splitting at the first [=] *)

Lemma split1_first (a : str) (c : N) (b : str) :
  contains a c = false -> split1 (a ++ c :: b) c = [a; b].
Proof.
  induction a as [| x a IH]; intros H.
  - simpl. now rewrite N.eqb_refl.
  - unfold contains in H. cbn [existsb] in H.
    apply orb_false_iff in H. destruct H as [Hx Ha].
    cbn [app split1]. rewrite N.eqb_sym, Hx. now rewrite IH.
Qed.

Lemma contains_split (s : str) (c : N) :
  contains s c = true ->
  exists a b, s = a ++ c :: b /\ contains a c = false.
Proof.
  induction s as [| x s IH]; [discriminate |].
  unfold contains. cbn [existsb]. destruct (c =? x)%N eqn:E.
  - apply N.eqb_eq in E. subst x. intros _. now exists [], s.
  - intros H. destruct (IH H) as (a & b & -> & Ha).
    exists (x :: a), b. split; [reflexivity |].
    unfold contains. cbn [existsb]. rewrite E. exact Ha.
Qed.

Lemma startswith_through (p x y : str) (c : N) :
  In c x -> ~ In c p -> startswith (x ++ y) p = startswith x p.
Proof.
  revert x. induction p as [| a p IH]; intros x Hin Hnot.
  - now destruct x.
  - destruct x as [| b x]; [contradiction |].
    cbn [app startswith]. destruct (b =? a)%N eqn:E; [| reflexivity].
    cbn [andb]. apply N.eqb_eq in E. subst b. apply IH.
    + destruct Hin as [-> | Hin]; [| assumption].
      exfalso. apply Hnot. now left.
    + intros H. apply Hnot. now right.
Qed.

Lemma startswith_prefix (p y : str) : startswith (p ++ y) p = true.
Proof.
  induction p as [| a p IH]; [now destruct y |].
  cbn [app startswith]. now rewrite N.eqb_refl.
Qed.

(** ** The loop body *)

Lemma last_or_nil (s : str) : s = [] \/ exists front c, s = front ++ [c].
Proof.
  destruct s as [| x s]; [now left | right].
  destruct (@exists_last N (x :: s)) as (front & c & H); [discriminate |].
  now exists front, c.
Qed.

(** The part of a stripped line after the [=]: the value with the whitespace
    before it, or nothing. *)
Lemma value_part (ws3 value ws4 : str) :
  strip value = value -> blank ws3 -> blank ws4 ->
  exists tail,
    rstrip (ws3 ++ value ++ ws4) = tail /\ rstrip tail = tail /\
    strip tail = value.
Proof.
  intros Hv H3 H4. rewrite app_assoc, rstrip_blank by assumption.
  destruct (last_or_nil value) as [-> | (front & c & ->)].
  - rewrite app_nil_r. exists []. now rewrite rstrip_all_blank.
  - pose proof (strip_last _ _ _ Hv) as Hc.
    exists (ws3 ++ front ++ [c]). rewrite app_assoc.
    split; [now apply rstrip_last | split].
    + now apply rstrip_last.
    + rewrite <- app_assoc.
      rewrite <- (app_nil_r (front ++ [c])) at 1.
      apply strip_padded; [assumption | assumption | constructor].
Qed.

Lemma parseAssignment_found (key ws2 tail : str) :
  strip key = key -> key <> [] -> contains key equals = false ->
  blank ws2 ->
  parseAssignment (key ++ ws2 ++ equals :: tail)
  = Ok (Some (key, unquote (strip tail))).
Proof.
  intros Hk Hne Hno H2. unfold parseAssignment.
  assert (Hpre : contains (key ++ ws2) equals = false).
  { apply contains_false. intros Hin. apply in_app_or in Hin.
    destruct Hin as [Hin | Hin].
    - now apply contains_false in Hno.
    - apply (blank_without ws2 equals) in H2; [| reflexivity].
      now apply contains_false in H2. }
  assert (Hin : contains (key ++ ws2 ++ equals :: tail) equals = true).
  { apply contains_true. apply in_or_app. right. apply in_or_app. right.
    now left. }
  rewrite Hin. cbn [negb]. rewrite app_assoc, split1_first by assumption.
  assert (Hs : strip (key ++ ws2) = key).
  { apply (strip_padded [] key ws2); trivial. constructor. }
  rewrite Hs. destruct key as [| k key]; [contradiction | reflexivity].
Qed.

Lemma strip_line (ws1 : str) (c0 : N) (body rest : str) :
  isspace c0 = false -> blank ws1 ->
  strip (ws1 ++ (c0 :: body) ++ equals :: rest)
  = (c0 :: body) ++ equals :: rstrip rest.
Proof.
  intros Hc H1. unfold strip. rewrite lstrip_blank by assumption.
  cbn [app]. rewrite lstrip_nonspace by assumption.
  change (c0 :: body ++ equals :: rest) with ((c0 :: body) ++ equals :: rest).
  now rewrite rstrip_after_nonspace.
Qed.

Lemma skipn_prefix (p y : str) : skipn (List.length p) (p ++ y) = y.
Proof. induction p as [| a p IH]; [reflexivity | exact IH]. Qed.

Lemma strip_key_line (ws key ws2 rest : str) :
  key <> [] -> strip key = key -> blank ws ->
  strip (ws ++ key ++ ws2 ++ equals :: rest)
  = key ++ ws2 ++ equals :: rstrip rest.
Proof.
  intros Hne Hk Hws. destruct key as [| k0 kr]; [contradiction |].
  pose proof (strip_head _ _ _ Hk) as Hk0.
  pose proof (strip_line ws k0 (kr ++ ws2) rest Hk0 Hws) as E.
  cbn [app] in *. rewrite <- !app_assoc in E. exact E.
Qed.

Lemma strip_export_line (ws p more rest : str) (c : N) :
  isspace c = false -> blank ws ->
  strip (ws ++ (c :: p) ++ more ++ equals :: rest)
  = (c :: p) ++ more ++ equals :: rstrip rest.
Proof.
  intros Hc Hws.
  pose proof (strip_line ws c (p ++ more) rest Hc Hws) as E.
  cbn [app] in *. rewrite <- !app_assoc in E. exact E.
Qed.

Lemma parseLine_stripped (rawLine line : str) :
  strip rawLine = line -> line <> [] ->
  parseLine rawLine
  = if startswith line (lit "#") then Ok None
    else parseAssignment
           (if startswith line (lit "export ")
            then strip (skipn (List.length (lit "export ")) line)
            else line).
Proof.
  intros <- Hne. unfold parseLine.
  destruct (strip rawLine); [contradiction | reflexivity].
Qed.

Lemma startswith_one (x y : str) (c : N) :
  x <> [] -> startswith (x ++ y) [c] = startswith x [c].
Proof.
  intros Hne. destruct x as [| a x]; [contradiction |].
  cbn [app startswith]. f_equal. now destruct x, y.
Qed.

(** A line [key = value] with optional whitespace around each part. *)
Lemma parse_plain_line (key value ws1 ws2 ws3 ws4 : str) :
  key <> [] -> strip key = key -> contains key equals = false ->
  strip value = value ->
  blank ws1 -> blank ws2 -> blank ws3 -> blank ws4 ->
  startswith key (lit "#") = false ->
  startswith (key ++ ws2 ++ [equals]) (lit "export ") = false ->
  parseLine (ws1 ++ key ++ ws2 ++ equals :: ws3 ++ value ++ ws4)
  = Ok (Some (key, unquote value)).
Proof.
  intros Hne Hk Hno Hv H1 H2 H3 H4 Hhash Hexport.
  destruct (value_part ws3 value ws4 Hv H3 H4) as (tail & Htail & Hfix & Hval).
  rewrite (parseLine_stripped _ (key ++ ws2 ++ equals :: tail)).
  - assert (E1 : startswith (key ++ ws2 ++ equals :: tail) (lit "#") = false).
    { etransitivity; [| exact Hhash]. now apply startswith_one. }
    assert (E2 : startswith (key ++ ws2 ++ equals :: tail) (lit "export ")
                 = false).
    { etransitivity; [| exact Hexport].
      replace (key ++ ws2 ++ equals :: tail)
        with ((key ++ ws2 ++ [equals]) ++ tail)
        by (rewrite <- !app_assoc; reflexivity).
      apply startswith_through with (c := equals).
      - apply in_or_app. right. apply in_or_app. right. now left.
      - apply contains_false. reflexivity. }
    rewrite E1, E2, parseAssignment_found by trivial.
    now rewrite Hval.
  - rewrite strip_key_line by trivial. now rewrite Htail.
  - destruct key; [contradiction | discriminate].
Qed.

(** The same line behind [export]. *)
Lemma parse_export_line (key value ws0 ws1 ws2 ws3 ws4 : str) :
  key <> [] -> strip key = key -> contains key equals = false ->
  strip value = value ->
  blank ws0 -> blank ws1 -> blank ws2 -> blank ws3 -> blank ws4 ->
  parseLine
    (ws1 ++ lit "export " ++ ws0 ++ key ++ ws2 ++ equals :: ws3 ++ value ++ ws4)
  = Ok (Some (key, unquote value)).
Proof.
  intros Hne Hk Hno Hv H0 H1 H2 H3 H4.
  destruct (value_part ws3 value ws4 Hv H3 H4) as (tail & Htail & Hfix & Hval).
  rewrite (parseLine_stripped _
             (lit "export " ++ ws0 ++ key ++ ws2 ++ equals :: tail)).
  - assert (E1 : startswith
                   (lit "export " ++ ws0 ++ key ++ ws2 ++ equals :: tail)
                   (lit "#") = false) by reflexivity.
    rewrite E1, startswith_prefix, skipn_prefix.
    rewrite strip_key_line, Hfix, parseAssignment_found by trivial.
    now rewrite Hval.
  - rewrite <- Htail.
    replace (ws0 ++ key ++ ws2 ++ equals :: ws3 ++ value ++ ws4)
      with ((ws0 ++ key ++ ws2) ++ equals :: ws3 ++ value ++ ws4)
      by (rewrite <- !app_assoc; reflexivity).
    replace (ws0 ++ key ++ ws2 ++ equals :: rstrip (ws3 ++ value ++ ws4))
      with ((ws0 ++ key ++ ws2) ++ equals :: rstrip (ws3 ++ value ++ ws4))
      by (rewrite <- !app_assoc; reflexivity).
    apply (strip_export_line ws1 (lit "xport ") (ws0 ++ key ++ ws2)
             (ws3 ++ value ++ ws4) 101%N); trivial.
  - discriminate.
Qed.

Lemma unquote_plain (value : str) :
  List.hd 0%N value <> apostrophe -> List.hd 0%N value <> quotation ->
  unquote value = value.
Proof.
  intros H1 H2. unfold unquote.
  apply N.eqb_neq in H1. apply N.eqb_neq in H2. rewrite H1, H2.
  now rewrite !andb_false_r.
Qed.

Lemma unquote_quoted (q : N) (inner : str) :
  q = apostrophe \/ q = quotation -> unquote (q :: inner ++ [q]) = inner.
Proof.
  intros Hq. unfold unquote. cbn [List.hd List.tl].
  change (q :: inner ++ [q]) with ((q :: inner) ++ [q]).
  rewrite last_last, N.eqb_refl, removelast_last.
  assert (Hlen : (2 <=? List.length ((q :: inner) ++ [q]))%nat = true).
  { apply Nat.leb_le. rewrite length_app. simpl. lia. }
  rewrite Hlen.
  destruct Hq as [-> | ->]; reflexivity.
Qed.

Lemma strip_quoted (q : N) (inner : str) :
  q = apostrophe \/ q = quotation ->
  strip (q :: inner ++ [q]) = q :: inner ++ [q].
Proof.
  intros Hq.
  assert (Hs : isspace q = false) by (destruct Hq as [-> | ->]; reflexivity).
  unfold strip. rewrite lstrip_nonspace by assumption.
  change (q :: inner ++ [q]) with ((q :: inner) ++ [q]).
  now apply rstrip_last.
Qed.

(** X10: the loop of [_loadEnvFile] skips every line that holds only
    whitespace and every line whose first character after leading whitespace
    is [#], whatever follows it. *)
Theorem blank_and_comment_lines_skipped (ws rest : str) :
  blank ws ->
  parseLine ws = Ok None /\ parseLine (ws ++ hash :: rest) = Ok None.
Proof.
  intros Hws. split.
  - unfold parseLine. now rewrite strip_blank.
  - unfold parseLine.
    assert (Hline : strip (ws ++ hash :: rest) = hash :: rstrip rest).
    { unfold strip. rewrite lstrip_blank by assumption.
      rewrite lstrip_nonspace by reflexivity.
      now apply rstrip_cons_nonspace. }
    rewrite Hline.
    assert (E : startswith (hash :: rstrip rest) (lit "#") = true)
      by apply (startswith_prefix [hash]).
    now rewrite E.
Qed.

Lemma blank_and_comment_lines_skipped_witness :
  parseLine (lit "   ") = Ok None /\
  parseLine (lit "   " ++ hash :: lit " FOO=1") = Ok None.
Proof.
  apply (blank_and_comment_lines_skipped (lit "   ") (lit " FOO=1")).
  repeat constructor.
Defined.

Lemma parseLine_valid (rawLine : str) :
  exists parsed,
    parseLine rawLine = Ok parsed /\
    match parsed with
    | None => True
    | Some (key, value) =>
        key <> [] /\ contains key equals = false /\ strip key = key
    end.
Proof.
  assert (Hassign : forall line,
            exists parsed,
              parseAssignment line = Ok parsed /\
              match parsed with
              | None => True
              | Some (key, value) =>
                  key <> [] /\ contains key equals = false /\ strip key = key
              end).
  { intros line. unfold parseAssignment.
    destruct (contains line equals) eqn:E; [| now exists None].
    destruct (contains_split line equals E) as (a & b & -> & Ha).
    cbn [negb]. rewrite split1_first by assumption.
    destruct (strip a) as [| k key] eqn:Ek; [now exists None |].
    eexists. split; [reflexivity |]. rewrite <- Ek. repeat split.
    - rewrite Ek. discriminate.
    - now apply contains_strip.
    - apply strip_idempotent. }
  unfold parseLine. destruct (strip rawLine) as [| c line]; [now exists None |].
  destruct (startswith (c :: line) (lit "#")); [now exists None |].
  apply Hassign.
Qed.

(** X11: the loop body never raises, and a name it assigns is never
    empty, never contains [=] and has no whitespace at either end. *)
Theorem assigned_name_valid (rawLine : str) :
  exists parsed,
    parseLine rawLine = Ok parsed /\
    match parsed with
    | None => True
    | Some (key, value) =>
        key <> [] /\ contains key equals = false /\ strip key = key
    end.
Proof. exact (parseLine_valid rawLine). Qed.

(** X12: a line [NAME=value], with optional whitespace around the line,
    the name and the value, assigns exactly that value to that name when the
    name is not empty, holds no [=] and no outer whitespace, and the value
    holds no outer whitespace and does not begin with a quote character.
    Written after [export ], the same holds; without it, the name must not
    begin with [#] and the line must not begin with [export ]. *)
Theorem assignment_line_parsed (key value ws0 ws1 ws2 ws3 ws4 : str) :
  key <> [] -> strip key = key -> contains key equals = false ->
  strip value = value ->
  List.hd 0%N value <> apostrophe -> List.hd 0%N value <> quotation ->
  blank ws0 -> blank ws1 -> blank ws2 -> blank ws3 -> blank ws4 ->
  (startswith key (lit "#") = false ->
   startswith (key ++ ws2 ++ [equals]) (lit "export ") = false ->
   parseLine (ws1 ++ key ++ ws2 ++ equals :: ws3 ++ value ++ ws4)
   = Ok (Some (key, value))) /\
  parseLine
    (ws1 ++ lit "export " ++ ws0 ++ key ++ ws2 ++ equals :: ws3 ++ value ++ ws4)
  = Ok (Some (key, value)).
Proof.
  intros Hne Hk Hno Hv Hq1 Hq2 H0 H1 H2 H3 H4.
  rewrite <- (unquote_plain value Hq1 Hq2) at 2 4.
  split.
  - intros Hhash Hexport. now apply parse_plain_line.
  - now apply parse_export_line.
Qed.

Lemma assignment_line_parsed_witness :
  parseLine
    (lit "  " ++ lit "NAB_EWMA_ALPHA" ++ lit " " ++ equals :: lit "  "
     ++ lit "0.5" ++ [10%N])
  = Ok (Some (lit "NAB_EWMA_ALPHA", lit "0.5")) /\
  parseLine
    (lit "  " ++ lit "export " ++ lit " " ++ lit "NAB_EWMA_ALPHA" ++ lit " "
     ++ equals :: lit "  " ++ lit "0.5" ++ [10%N])
  = Ok (Some (lit "NAB_EWMA_ALPHA", lit "0.5")).
Proof.
  assert (H : blank (lit " ") /\ blank (lit "  ") /\ blank [10%N])
    by (repeat constructor).
  destruct H as (Hone & Htwo & Hnl).
  destruct (assignment_line_parsed (lit "NAB_EWMA_ALPHA") (lit "0.5") (lit " ")
              (lit "  ") (lit " ") (lit "  ") [10%N]) as [Hplain Hexport];
    try reflexivity; try discriminate; try assumption.
  split; [apply Hplain; reflexivity | exact Hexport].
Defined.

(** X13: a value wrapped in a pair of apostrophes or of quotation marks is
    assigned without them and otherwise verbatim, whatever it holds inside:
    whitespace at its ends, [#], [=] or further quotes. *)
Theorem quoted_value_verbatim (q : N) (key inner ws0 ws1 ws2 ws3 ws4 : str) :
  q = apostrophe \/ q = quotation ->
  key <> [] -> strip key = key -> contains key equals = false ->
  blank ws0 -> blank ws1 -> blank ws2 -> blank ws3 -> blank ws4 ->
  (startswith key (lit "#") = false ->
   startswith (key ++ ws2 ++ [equals]) (lit "export ") = false ->
   parseLine (ws1 ++ key ++ ws2 ++ equals :: ws3 ++ (q :: inner ++ [q]) ++ ws4)
   = Ok (Some (key, inner))) /\
  parseLine
    (ws1 ++ lit "export " ++ ws0 ++ key ++ ws2
     ++ equals :: ws3 ++ (q :: inner ++ [q]) ++ ws4)
  = Ok (Some (key, inner)).
Proof.
  intros Hq Hne Hk Hno H0 H1 H2 H3 H4.
  rewrite <- (unquote_quoted q inner Hq) at 2 4.
  pose proof (strip_quoted q inner Hq) as Hv.
  split.
  - intros Hhash Hexport. now apply parse_plain_line.
  - now apply parse_export_line.
Qed.

Lemma quoted_value_verbatim_witness :
  parseLine
    ([] ++ lit "FOO" ++ [] ++ equals :: []
     ++ (quotation :: lit " a=b # 'c' " ++ [quotation]) ++ [10%N])
  = Ok (Some (lit "FOO", lit " a=b # 'c' ")) /\
  parseLine
    ([] ++ lit "export " ++ [] ++ lit "FOO" ++ []
     ++ equals :: [] ++ (quotation :: lit " a=b # 'c' " ++ [quotation])
     ++ [10%N])
  = Ok (Some (lit "FOO", lit " a=b # 'c' ")).
Proof.
  assert (Hnl : blank [10%N]) by (repeat constructor).
  assert (Hnone : blank []) by constructor.
  destruct (quoted_value_verbatim quotation (lit "FOO") (lit " a=b # 'c' ") []
              [] [] [] [10%N] (or_intror eq_refl)) as [Hplain Hexport];
    try reflexivity; try discriminate; try assumption.
  split; [apply Hplain; reflexivity | exact Hexport].
Defined.

(** ** The whole file *)

Lemma setitem_ok (env : environ) (key value : str) :
  contains key equals = false -> unsettable (key, value) = false ->
  setitem env key value
  = Ok (fun name => if str_eqb name key then Some value else env name).
Proof.
  intros Hno Hset. unfold setitem. unfold unsettable in Hset.
  cbn [fst snd] in Hset. now rewrite Hset, Hno.
Qed.

Lemma setitem_refused (env : environ) (key value : str) :
  unsettable (key, value) = true -> setitem env key value = Raise ValueError.
Proof.
  intros Hset. unfold setitem. unfold unsettable in Hset.
  cbn [fst snd] in Hset. now rewrite Hset.
Qed.

Lemma assignments_cons (rawLine : str) (lines : list str) :
  assignments (rawLine :: lines)
  = match parseLine rawLine with
    | Ok (Some assignment) => assignment :: assignments lines
    | _ => assignments lines
    end.
Proof.
  unfold assignments. cbn [flat_map].
  now destruct (parseLine rawLine) as [[a |] | e].
Qed.

Lemma assignments_app (before after : list str) :
  assignments (before ++ after) = assignments before ++ assignments after.
Proof. apply flat_map_app. Qed.

Lemma find_append {A : Type} (f : A -> bool) (front back : list A) :
  find f (front ++ back)
  = match find f front with Some x => Some x | None => find f back end.
Proof.
  induction front as [| a front IH]; [reflexivity |].
  cbn [app find]. now destruct (f a).
Qed.

Lemma find_absent {A : Type} (f : A -> bool) (l : list A) :
  Forall (fun a => f a = false) l -> find f l = None.
Proof.
  induction 1 as [| a l Ha _ IH]; [reflexivity |].
  cbn [find]. now rewrite Ha.
Qed.

Lemma str_eqb_refl (s : str) : str_eqb s s = true.
Proof. unfold str_eqb. now destruct (list_eq_dec N.eq_dec s s). Qed.

Lemma str_eqb_neq (a b : str) : a <> b -> str_eqb a b = false.
Proof. intros H. unfold str_eqb. now destruct (list_eq_dec N.eq_dec a b). Qed.

Lemma override_cons (assignment : str * str) (assigned : list (str * str))
    (env : environ) (name : str) :
  override (assignment :: assigned) env name
  = override assigned
      (fun name => if str_eqb name (fst assignment)
                   then Some (snd assignment) else env name) name.
Proof.
  unfold override. cbn [rev]. rewrite find_append.
  destruct (find _ (rev assigned)); [reflexivity |].
  cbn [find]. now destruct (str_eqb name (fst assignment)).
Qed.

Lemma override_absent (assigned : list (str * str)) (env : environ)
    (name : str) :
  Forall (fun a => fst a <> name) assigned ->
  override assigned env name = env name.
Proof.
  intros H. unfold override. rewrite find_absent; [reflexivity |].
  apply Forall_rev. revert H. apply Forall_impl. intros a Ha.
  apply str_eqb_neq. congruence.
Qed.

(** The loop over the lines, as one statement: it raises exactly when some
    line asks for an assignment the environment refuses, and otherwise each
    name holds what the last line assigning it says, or its old value. *)
Lemma loadLines_spec (lines : list str) (env : environ) :
  if existsb unsettable (assignments lines)
  then loadLines lines env = Raise ValueError
  else exists env',
         loadLines lines env = Ok env' /\
         forall name, env' name = override (assignments lines) env name.
Proof.
  revert env. induction lines as [| rawLine lines IH]; intros env.
  - cbn. now exists env.
  - rewrite assignments_cons. cbn [loadLines].
    destruct (parseLine_valid rawLine) as (parsed & -> & Hkey).
    cbn [bind]. destruct parsed as [[key value] |]; [| apply IH].
    destruct Hkey as (_ & Hno & _). cbn [existsb].
    destruct (unsettable (key, value)) eqn:Hset; cbn [orb].
    + now rewrite setitem_refused.
    + rewrite setitem_ok by assumption. cbn [bind].
      specialize (IH (fun name => if str_eqb name key then Some value
                                  else env name)).
      destruct (existsb unsettable (assignments lines)); [exact IH |].
      destruct IH as (env' & Hload & Hlook). exists env'. split; [exact Hload |].
      intros name. now rewrite Hlook, override_cons.
Qed.

Lemma loadLines_returned (lines : list str) (env env' : environ) :
  loadLines lines env = Ok env' ->
  forall name, env' name = override (assignments lines) env name.
Proof.
  intros Hload. pose proof (loadLines_spec lines env) as H.
  destruct (existsb unsettable (assignments lines)); [congruence |].
  destruct H as (env'' & Hload' & Hlook).
  assert (env'' = env') by congruence. now subst.
Qed.

(** X14: loading a file raises ValueError exactly when some line assigns a
    name or value that the environment refuses (a null character or an
    unencodable surrogate); otherwise it returns, and every name then holds
    the value of the last line assigning it, or its old value when no line
    does. *)
Theorem env_file_loaded (lines : list str) (env : environ) :
  if existsb unsettable (assignments lines)
  then loadLines lines env = Raise ValueError
  else exists env',
         loadLines lines env = Ok env' /\
         forall name, env' name = override (assignments lines) env name.
Proof. exact (loadLines_spec lines env). Qed.

(** X15: when a file is loaded and a line assigns a name that no later line
    assigns again, the name holds that line's value afterwards, whatever it
    held before and whatever the earlier lines say. *)
Theorem last_assignment_wins (before after : list str)
    (rawLine key value : str) (env env' : environ) :
  parseLine rawLine = Ok (Some (key, value)) ->
  Forall (fun a => fst a <> key) (assignments after) ->
  loadLines (before ++ rawLine :: after) env = Ok env' ->
  env' key = Some value.
Proof.
  intros Hparse Hlater Hload.
  rewrite (loadLines_returned _ _ _ Hload), assignments_app, assignments_cons,
    Hparse.
  unfold override. rewrite rev_app_distr. cbn [rev].
  rewrite <- app_assoc, find_append, find_absent.
  - cbn [app find fst snd]. now rewrite str_eqb_refl.
  - apply Forall_rev. revert Hlater. apply Forall_impl. intros a Ha.
    apply str_eqb_neq. congruence.
Qed.

Lemma last_assignment_wins_witness :
  exists env',
    loadLines
      ([lit "A=1"; lit "B=2"] ++ lit "A = 3 " :: [lit "# A=4"; lit "B=5"])
      (fun _ => None) = Ok env' /\
    env' (lit "A") = Some (lit "3").
Proof.
  eexists.
  assert (Hload :
    loadLines
      ([lit "A=1"; lit "B=2"] ++ lit "A = 3 " :: [lit "# A=4"; lit "B=5"])
      (fun _ => None) = Ok ?[env']) by reflexivity.
  split; [exact Hload |].
  apply (last_assignment_wins [lit "A=1"; lit "B=2"] [lit "# A=4"; lit "B=5"]
           (lit "A = 3 ") (lit "A") (lit "3") (fun _ => None) _).
  - reflexivity.
  - repeat constructor. discriminate.
  - exact Hload.
Defined.

(** X16: loading a file leaves every name that none of its lines assigns
    as it was. *)
Theorem unassigned_names_kept (lines : list str) (name : str)
    (env env' : environ) :
  Forall (fun a => fst a <> name) (assignments lines) ->
  loadLines lines env = Ok env' ->
  env' name = env name.
Proof.
  intros Hnone Hload.
  rewrite (loadLines_returned _ _ _ Hload). now apply override_absent.
Qed.

Lemma unassigned_names_kept_witness :
  exists env',
    loadLines [lit "A=1"; lit "export B=2"]
      (fun name => if str_eqb name (lit "PATH") then Some (lit "/bin")
                   else None) = Ok env' /\
    env' (lit "PATH") = Some (lit "/bin").
Proof.
  destruct (loadLines [lit "A=1"; lit "export B=2"]
              (fun name => if str_eqb name (lit "PATH") then Some (lit "/bin")
                           else None)) as [env' | e] eqn:Hload;
    [| discriminate Hload].
  exists env'. split; [reflexivity |].
  rewrite (unassigned_names_kept [lit "A=1"; lit "export B=2"] (lit "PATH")
             _ env' ltac:(repeat constructor; discriminate) Hload).
  reflexivity.
Defined.

Lemma override_twice (assigned : list (str * str)) (env : environ)
    (name : str) :
  override assigned (override assigned env) name = override assigned env name.
Proof.
  unfold override.
  now destruct (find (fun a => str_eqb name (fst a)) (rev assigned)).
Qed.

(** X17: loading the same file a second time, into the environment the
    first load produced, returns again and changes no name; a missing path
    or file changes nothing either time. *)
Theorem reload_changes_nothing (exists_ : str -> option (list str))
    (path : option str) (env env' : environ) :
  _loadEnvFile exists_ path env = Ok env' ->
  exists env'',
    _loadEnvFile exists_ path env' = Ok env'' /\
    forall name, env'' name = env' name.
Proof.
  unfold _loadEnvFile. intros Hload.
  destruct path as [[| c path] |]; try (now exists env').
  destruct (exists_ (c :: path)) as [lines |]; [| now exists env'].
  pose proof (loadLines_returned _ _ _ Hload) as Hfirst.
  pose proof (loadLines_spec lines env) as Hspec.
  pose proof (loadLines_spec lines env') as Hagain.
  destruct (existsb unsettable (assignments lines)); [congruence |].
  destruct Hagain as (env'' & Hload' & Hlook). exists env''.
  split; [exact Hload' |]. intros name.
  rewrite Hlook.
  unfold override. rewrite Hfirst. unfold override.
  now destruct (find (fun a => str_eqb name (fst a)) (rev (assignments lines))).
Qed.

Lemma reload_changes_nothing_witness :
  exists env' env'',
    _loadEnvFile (fun _ => Some [lit "A=1"; lit "# note"; lit "A='2'"])
      (Some (lit "config/simple_stats.env")) (fun _ => None) = Ok env' /\
    _loadEnvFile (fun _ => Some [lit "A=1"; lit "# note"; lit "A='2'"])
      (Some (lit "config/simple_stats.env")) env' = Ok env'' /\
    forall name, env'' name = env' name.
Proof.
  eexists.
  assert (Hload :
    _loadEnvFile (fun _ => Some [lit "A=1"; lit "# note"; lit "A='2'"])
      (Some (lit "config/simple_stats.env")) (fun _ => None) = Ok ?[env'])
    by reflexivity.
  destruct (reload_changes_nothing _ _ _ _ Hload) as (env'' & Hagain & Hsame).
  exists env''. split; [exact Hload | split; [exact Hagain | exact Hsame]].
Defined.

End EnvFileFacts.
